(** * pinba2 coordinator: report hosts and the coordinator control loop

    A shallow embedding of [src/coordinator.cpp].  The C++ code is a set of
    objects whose methods mutate process-wide state (nanomsg endpoints, the
    ticker, threads) and may throw; it is modelled with a state-and-exception
    monad over explicit records.  Everything that lives in headers that are
    not part of the translated sources (sockets, ticker, poller, reports) is
    introduced separately and says so. *)

From stdpp Require Import base gmap sets list strings pretty.
From Stdlib Require Import ZArith Ascii.

Open Scope Z_scope.
Open Scope string_scope.
Open Scope list_scope.

(** ** Outcomes of C++ calls *)

(** What a [throw] hands up.  [StdException message] is an object of a class
    derived from [std::exception], [message] its [what()]: every [throw] of
    the file ([std::logic_error], [std::runtime_error]) is of this kind, and
    it is the kind the coordinator's one [catch] clause names.
    [OtherException value] is any other thrown value, as a user callback may
    throw ([throw 42;]). *)
Inductive exception :=
| StdException (message : string)
| OtherException (value : Z).

(** [e.what()]; a value that is not a [std::exception] has none. *)
Definition what (e : exception) : string :=
  match e with
  | StdException message => message
  | OtherException _ => ""
  end.

(** Ways in which the process stops making progress instead of returning or
    throwing. *)
Inductive fatal :=
| StdTerminate        (* std::terminate(): a joinable std::thread is destroyed,
                         or an exception leaves a thread's function *)
| UndefinedBehaviour  (* integer division by zero *)
| BlockedForever.     (* a blocking recv whose reply never comes *)

Inductive result (St A : Type) :=
| Ret (a : A) (s : St)
| Throw (e : exception) (s : St)
| Fatal (f : fatal) (s : St).
Arguments Ret {St A} a s.
Arguments Throw {St A} e s.
Arguments Fatal {St A} f s.

(** The state in which a result leaves the process. *)
Definition final_state {St A} (r : result St A) : St :=
  match r with
  | Ret _ s | Throw _ s | Fatal _ s => s
  end.

(** Statements of a method: a state transformer that returns, throws or
    stops. *)
Definition M (St A : Type) : Type := St → result St A.

Definition ret {St A} (a : A) : M St A := λ s, Ret a s.

Definition bind {St A B} (m : M St A) (k : A → M St B) : M St B := λ s,
  match m s with
  | Ret a s' => k a s'
  | Throw e s' => Throw e s'
  | Fatal f s' => Fatal f s'
  end.

Definition throw {St A} (e : exception) : M St A := λ s, Throw e s.
Definition stop {St A} (f : fatal) : M St A := λ s, Fatal f s.
Definition gets {St A} (f : St → A) : M St A := λ s, Ret (f s) s.
Definition modify {St} (f : St → St) : M St unit := λ s, Ret tt (f s).

(** [try { m } catch (E const& e) { h e }]; [h] tells by the kind of [e]
    what the clause does with it. *)
Definition try_catch {St A} (m : M St A) (h : exception → M St A) : M St A := λ s,
  match m s with
  | Throw e s' => h e s'
  | r => r
  end.

(** Stack unwinding: when [m] throws, the destructors [d] of the locals in
    scope run and the exception continues. *)
Definition unwinding {St A} (m : M St A) (d : M St unit) : M St A :=
  try_catch m (λ e, bind d (λ _, throw e)).

Declare Scope cpp_scope.
Delimit Scope cpp_scope with cpp.
Notation "x <- m ;; k" := (bind m (λ x, k))
  (at level 100, m at next level, right associativity) : cpp_scope.
Notation "m ;;; k" := (bind m (λ _, k))
  (at level 100, right associativity) : cpp_scope.
Open Scope cpp_scope.

(** The result of a call into code the core treats as opaque (a report
    method, a user callback): it returns or raises. *)
Inductive outcome (A : Type) :=
| Done (a : A)
| Raise (e : exception).
Arguments Done {A} a.
Arguments Raise {A} e.

(** ** Reports, packets, batches *)

Definition timeval_t := Z.
(** [duration_t], a signed 64-bit count of nanoseconds. *)
Definition duration_t := Z.
Definition d_millisecond : duration_t := 1000000.

(** [report_info_t], of [pinba/report.h]: the two fields [startup] reads. *)
Record report_info_t := {
  time_window : duration_t;
  tick_count : Z;            (* uint32_t *)
}.

(** The interface [report_t] (pure virtual in [pinba/report.h]) with the
    types it mentions.  The core never looks inside a report. *)
Class Reports := {
  report_t : Type;
  report_snapshot_t : Type;
  packet_t : Type;
  report_name : report_t → string;                         (* name().str() *)
  info : report_t → report_info_t;
  ticks_init : timeval_t → report_t → outcome report_t;
  tick_now : timeval_t → report_t → outcome report_t;
  add_multi : list packet_t → Z → report_t → outcome report_t;
  get_snapshot : report_t → outcome (report_t * report_snapshot_t);
    (* not const: the report it leaves, and the snapshot *)
}.

(** [packet_batch_t]; a [packet_batch_ptr] is the address of one. *)
Record packet_batch_t `{Reports} := {
  packets : list packet_t;
  packet_count : Z;          (* uint32_t *)
}.
Definition packet_batch_ptr := nat.

Section Coordinator.
Context `{Reports}.

(** ** Control messages of the coordinator ([pinba/coordinator.h]) *)

Inductive coordinator_status_t :=
| COORDINATOR_STATUS__OK
| COORDINATOR_STATUS__ERROR.

Inductive coordinator_response_t :=
| coordinator_response___generic_t (status : coordinator_status_t) (err : option string)
| coordinator_response___report_snapshot_t (snapshot : report_snapshot_t).

(** ** What the calls of one run did, in order

    The trace is an observation device: each method appends its own entry
    when it is entered or when it completes the step named. *)
Inductive event :=
| EvProcessBatch (host : string) (batch : packet_batch_ptr)  (* host.process_batch(batch) *)
| EvHostCreated (host : string) (thread_name : string)       (* constructor returned *)
| EvThreadSpawn (host : string) (tid : nat)                  (* std::thread t(...) *)
| EvHostShutdown (host : string)                             (* host.shutdown() entered *)
| EvThreadJoin (host : string) (tid : nat)                   (* t_.join() returned *)
| EvSubscribe (name : string) (interval : duration_t)
| EvUnsubscribe (name : string)
| EvControlSend (response : coordinator_response_t).         (* control_sock_.send_message *)

(** ** Process-wide state *)

Inductive thread_state := Running | Exited.

(** [nmsg_ticker_chan_t]: what a subscription handle identifies. *)
Record nmsg_ticker_chan_t := {
  chan_name : string;
  chan_interval : duration_t;
}.

(** [pinba_globals_t] together with the state of the process that the
    methods below act on: the ticker's live subscriptions, the inproc
    addresses bound in nanomsg, the threads started so far, the packet batches
    in memory, the monotonic clock and the trace. *)
Record pinba_globals_t := {
  ticker : gmap string duration_t;
  nn_bound : gset string;
  threads : list thread_state;
  batches : gmap packet_batch_ptr packet_batch_t;
  clock_monotonic_now : timeval_t;
  trace : list event;
}.

Definition set_ticker (f : gmap string duration_t → gmap string duration_t) (g : pinba_globals_t) :=
  {| ticker := f (ticker g); nn_bound := nn_bound g; threads := threads g;
     batches := batches g; clock_monotonic_now := clock_monotonic_now g; trace := trace g |}.
Definition set_nn_bound (f : gset string → gset string) (g : pinba_globals_t) :=
  {| ticker := ticker g; nn_bound := f (nn_bound g); threads := threads g;
     batches := batches g; clock_monotonic_now := clock_monotonic_now g; trace := trace g |}.
Definition set_threads (f : list thread_state → list thread_state) (g : pinba_globals_t) :=
  {| ticker := ticker g; nn_bound := nn_bound g; threads := f (threads g);
     batches := batches g; clock_monotonic_now := clock_monotonic_now g; trace := trace g |}.
Definition set_clock (now : timeval_t) (g : pinba_globals_t) :=
  {| ticker := ticker g; nn_bound := nn_bound g; threads := threads g;
     batches := batches g; clock_monotonic_now := now; trace := trace g |}.
Definition set_trace (f : list event → list event) (g : pinba_globals_t) :=
  {| ticker := ticker g; nn_bound := nn_bound g; threads := threads g;
     batches := batches g; clock_monotonic_now := clock_monotonic_now g; trace := f (trace g) |}.

Definition emit (e : event) : M pinba_globals_t unit :=
  modify (set_trace (λ t, t ++ [e])).

(** *** Ticker service

    Modelled from the spec: the ticker ([pinba/nmsg_ticker.h]) is consumed
    through [subscribe(interval, name)], whose name must be unique across live
    subscriptions, and [unsubscribe(channel)], which frees the name. *)
Definition ticker_name_in_use (name : string) : exception :=
  StdException ("ticker: subscription name already in use: " +:+ name).

Definition subscribe (interval : duration_t) (name : string)
  : M pinba_globals_t nmsg_ticker_chan_t :=
  t <- gets ticker;;
  match t !! name with
  | Some _ => throw (ticker_name_in_use name)
  | None =>
      modify (set_ticker (insert name interval));;;
      emit (EvSubscribe name interval);;;
      ret {| chan_name := name; chan_interval := interval |}
  end.

Definition unsubscribe (chan : nmsg_ticker_chan_t) : M pinba_globals_t unit :=
  modify (set_ticker (delete (chan_name chan)));;;
  emit (EvUnsubscribe (chan_name chan)).

(** *** Sockets

    [nmsg_socket_t] is declared in [pinba/nmsg_socket.h].  Of nanomsg's inproc
    transport the model keeps that an address is bound by at most one socket
    at a time: a second [bind] fails (EADDRINUSE), which the wrapper reports
    by throwing, and closing the socket frees the address. *)
Definition nn_address_in_use (endpoint : string) : exception :=
  StdException ("nn_bind(" +:+ endpoint +:+ ") failed: address in use").

Definition nmsg_bind (endpoint : string) : M pinba_globals_t unit :=
  b <- gets nn_bound;;
  if decide (endpoint ∈ b) then throw (nn_address_in_use endpoint)
  else modify (set_nn_bound (λ b, {[endpoint]} ∪ b)).

Definition nmsg_close (endpoint : string) : M pinba_globals_t unit :=
  modify (set_nn_bound (λ b, b ∖ {[endpoint]})).

(** ** Report host *)

Record report_host_conf_t := {
  name : string;
  thread_name : string;
  nn_reqrep : string;
  nn_shutdown : string;
  nn_packets : string;
  nn_packets_buffer : nat;   (* size_t *)
}.

(** [report_host___new_thread_t].  [t_] is [Some tid] while the [std::thread]
    is joinable.  The PUSH/PULL pair [packets_send_sock_]/[packets_recv_sock_]
    is the queue of batch pointers in flight between them; its bound is
    [nn_packets_buffer] pointers (NN_RCVBUF is [sizeof(packet_batch_ptr)]
    times that).  The REP sockets are the addresses they hold in
    [nn_bound]. *)
Record report_host___new_thread_t := {
  conf_ : report_host_conf_t;
  t_ : option nat;
  packets_sock_ : list packet_batch_ptr;
  ticker_chan_ : option nmsg_ticker_chan_t;
  report_ : option report_t;
  packets_received : Z;      (* uint64_t *)
}.

Definition set_t_ (t : option nat) (h : report_host___new_thread_t) :=
  {| conf_ := conf_ h; t_ := t; packets_sock_ := packets_sock_ h;
     ticker_chan_ := ticker_chan_ h; report_ := report_ h;
     packets_received := packets_received h |}.
Definition set_packets_sock_ (q : list packet_batch_ptr) (h : report_host___new_thread_t) :=
  {| conf_ := conf_ h; t_ := t_ h; packets_sock_ := q;
     ticker_chan_ := ticker_chan_ h; report_ := report_ h;
     packets_received := packets_received h |}.
Definition set_ticker_chan_ (c : option nmsg_ticker_chan_t) (h : report_host___new_thread_t) :=
  {| conf_ := conf_ h; t_ := t_ h; packets_sock_ := packets_sock_ h;
     ticker_chan_ := c; report_ := report_ h;
     packets_received := packets_received h |}.
Definition set_report_ (r : option report_t) (h : report_host___new_thread_t) :=
  {| conf_ := conf_ h; t_ := t_ h; packets_sock_ := packets_sock_ h;
     ticker_chan_ := ticker_chan_ h; report_ := r;
     packets_received := packets_received h |}.
Definition set_packets_received (n : Z) (h : report_host___new_thread_t) :=
  {| conf_ := conf_ h; t_ := t_ h; packets_sock_ := packets_sock_ h;
     ticker_chan_ := ticker_chan_ h; report_ := report_ h;
     packets_received := n |}.

(** A host as its constructor leaves it: no thread, no report, nothing
    queued, [packets_received(0)]. *)
Definition fresh_host (conf : report_host_conf_t) : report_host___new_thread_t :=
  {| conf_ := conf; t_ := None; packets_sock_ := []; ticker_chan_ := None;
     report_ := None; packets_received := 0 |}.

(** The constructor: three binds, in member order.  When a bind throws, the
    sockets already constructed are closed again before the exception
    leaves. *)
Definition new_report_host (conf : report_host_conf_t)
  : M pinba_globals_t report_host___new_thread_t :=
  nmsg_bind (nn_packets conf);;;
  unwinding (nmsg_bind (nn_reqrep conf)) (nmsg_close (nn_packets conf));;;
  unwinding (nmsg_bind (nn_shutdown conf))
            (nmsg_close (nn_reqrep conf);;; nmsg_close (nn_packets conf));;;
  emit (EvHostCreated (name conf) (thread_name conf));;;
  ret (fresh_host conf).

(** The implicit destructor: members die in reverse order, the sockets first
    and [t_] last, and destroying a joinable [std::thread] calls
    [std::terminate]. *)
Definition delete_report_host (h : report_host___new_thread_t) : M pinba_globals_t unit :=
  nmsg_close (nn_shutdown (conf_ h));;;
  nmsg_close (nn_reqrep (conf_ h));;;
  nmsg_close (nn_packets (conf_ h));;;
  match t_ h with
  | Some _ => stop StdTerminate
  | None => ret tt
  end.

Definition already_started (conf : report_host_conf_t) : exception :=
  StdException ("report handler " +:+ name conf +:+ " is already started").

(** [duration_t / integer]: C++ integer division, undefined for a zero
    divisor. *)
Definition duration_div (d : duration_t) (n : Z) : M pinba_globals_t duration_t :=
  if decide (n = 0) then stop UndefinedBehaviour else ret (d `quot` n).

(** [std::thread t(...)]: the new thread gets the next free id. *)
Definition thread_spawn (host : string) : M pinba_globals_t nat :=
  ts <- gets threads;;
  modify (set_threads (λ ts, ts ++ [Running]));;;
  emit (EvThreadSpawn host (length ts));;;
  ret (length ts).

(** [startup(report_ptr)].  The first statement of the thread's function,
    [report_->ticks_init(os_unix::clock_monotonic_now())], runs in the new
    thread while [startup] returns to its caller; nothing orders the two.
    The model takes the schedule in which the new thread runs that statement
    at once, as part of the spawn, so that every host that is met later has
    a report on which [ticks_init] has run.  An exception there leaves the
    thread's function, which ends the process; on the other schedules the
    process ends as well, only later, possibly after [ADD_REPORT] was
    answered.  Statements about a successful [ADD_REPORT] therefore assume
    that [ticks_init] does not throw.  The rest of the thread's function is
    the poller loop, whose handlers are the [worker_*] definitions below.

    The host is returned when [startup] completes.  When it throws, the C++
    object already holds the report (and nothing else new); its one caller
    then only destroys the host, and the destructor of the model reads [conf_]
    and [t_], which are as before. *)
Definition startup (incoming_report : report_t) (h : report_host___new_thread_t)
  : M pinba_globals_t report_host___new_thread_t :=
  match report_ h with
  | Some _ => throw (already_started (conf_ h))
  | None =>
      let rinfo := info incoming_report in
      tick_interval <- duration_div (time_window rinfo) (tick_count rinfo);;
      chan <- subscribe tick_interval (name (conf_ h));;
      tid <- thread_spawn (name (conf_ h));;
      now <- gets clock_monotonic_now;;
      match ticks_init now incoming_report with
      | Raise _ => stop StdTerminate
      | Done r =>
          ret (set_t_ (Some tid)
                 (set_ticker_chan_ (Some chan) (set_report_ (Some r) h)))
      end
  end.

(** Whether the host's thread is inside its poller loop. *)
Definition worker_running (h : report_host___new_thread_t) (g : pinba_globals_t) : bool :=
  match t_ h with
  | Some tid =>
      match threads g !! tid with
      | Some Running => true
      | _ => false
      end
  | None => false
  end.

(** Handler of the tick channel: [report_->tick_now(now)]. *)
Definition worker_tick (now : timeval_t) (h : report_host___new_thread_t)
  : M pinba_globals_t report_host___new_thread_t :=
  match report_ h with
  | None => stop UndefinedBehaviour
  | Some r =>
      match tick_now now r with
      | Raise _ => stop StdTerminate
      | Done r' => ret (set_report_ (Some r') h)
      end
  end.

Definition uint64_add (a b : Z) : Z := (a + b) `mod` 2 ^ 64.

(** Handler of [packets_recv_sock_]: receive one batch pointer, count its
    packets, feed them to the report.  With nothing queued the socket is not
    readable and the handler does not run. *)
Definition worker_packets (now : timeval_t) (h : report_host___new_thread_t)
  : M pinba_globals_t report_host___new_thread_t :=
  match packets_sock_ h with
  | [] => ret h
  | batch :: q =>
      heap <- gets batches;;
      match heap !! batch, report_ h with
      | Some b, Some r =>
          let h := set_packets_received
                     (uint64_add (packets_received h) (packet_count b))
                     (set_packets_sock_ q h) in
          match add_multi (packets b) (packet_count b) r with
          | Raise _ => stop StdTerminate
          | Done r' => ret (set_report_ (Some r') h)
          end
      | _, _ => stop UndefinedBehaviour
      end
  end.

(** [report_host_call_func_t]: a callback on the report.  The C++ type
    returns [void] and hands its result out through a captured reference;
    here the result is returned. *)
Definition report_host_call_func_t (A : Type) : Type := report_t → outcome (report_t * A).

(** Handler of [reqrep_sock_]: [req->func(report_.get())], then the reply.
    There is no [try] around the call: an exception of [func] leaves the
    handler before the reply is sent.  The poller ([pinba/nmsg_poller.h]) is
    taken to let it pass, so that it leaves the loop and the thread's function
    as well. *)
Definition worker_reqrep {A} (func : report_host_call_func_t A) (h : report_host___new_thread_t)
  : M pinba_globals_t (report_host___new_thread_t * A) :=
  match report_ h with
  | None => stop UndefinedBehaviour
  | Some r =>
      match func r with
      | Raise _ => stop StdTerminate
      | Done (r', a) => ret (set_report_ (Some r') h, a)
      end
  end.

(** Handler of [shutdown_sock_] and what follows it in the thread's function:
    the flag ends the loop after this iteration, the thread unsubscribes from
    the ticker and returns. *)
Definition worker_shutdown (tid : nat) (h : report_host___new_thread_t)
  : M pinba_globals_t unit :=
  match ticker_chan_ h with
  | None => stop UndefinedBehaviour
  | Some chan =>
      unsubscribe chan;;;
      modify (set_threads (λ ts, <[tid := Exited]> ts))
  end.

(** Modelled from the spec: [send_message(batch, NN_DONTWAIT)] of
    [pinba/nmsg_socket.h] is a non-blocking enqueue onto the host's bounded
    inbound queue; it reports whether the message was taken. *)
Definition send_message_dontwait (batch : packet_batch_ptr) (h : report_host___new_thread_t)
  : report_host___new_thread_t * bool :=
  if decide (length (packets_sock_ h) < nn_packets_buffer (conf_ h))%nat
  then (set_packets_sock_ (packets_sock_ h ++ [batch]) h, true)
  else (h, false).

(** [process_batch(packet_batch_ptr)] *)
Definition process_batch (batch : packet_batch_ptr) (h : report_host___new_thread_t)
  : M pinba_globals_t report_host___new_thread_t :=
  emit (EvProcessBatch (name (conf_ h)) batch);;;
  let '(h', success) := send_message_dontwait batch h in
  if negb success
  then ret h'   (* TODO: increment stats, etc. *)
  else ret h'.

(** [call_with_report(func)]: send the request, block on the reply.  The
    worker answers only while its loop runs. *)
Definition call_with_report {A} (func : report_host_call_func_t A) (h : report_host___new_thread_t)
  : M pinba_globals_t (report_host___new_thread_t * A) :=
  g <- gets id;;
  if worker_running h g then worker_reqrep func h else stop BlockedForever.

(** [shutdown()]: send 1, wait for the worker's 1, join. *)
Definition shutdown (h : report_host___new_thread_t)
  : M pinba_globals_t report_host___new_thread_t :=
  emit (EvHostShutdown (name (conf_ h)));;;
  g <- gets id;;
  match t_ h with
  | Some tid =>
      if worker_running h g then
        worker_shutdown tid h;;;
        emit (EvThreadJoin (name (conf_ h)) tid);;;
        ret (set_t_ None h)
      else stop BlockedForever
  | None => stop BlockedForever
  end.

(** ** Coordinator *)

Record coordinator_conf_t := {
  nn_input : string;
  nn_input_buffer : nat;
  nn_control : string;
  nn_report_output : string;
  nn_report_output_buffer : nat;
}.

(** [coordinator_impl_t].  [globals_] stands for the state behind the
    pointer of that name; [coordinator_conf_] is the member [conf_];
    [report_hosts_] is the [std::unordered_map] from report name to host, whose
    iteration order is the container's own ([map_to_list]);
    [poller_shutdown_flag] is the flag of the poller that [worker_thread]
    runs. *)
Record coordinator_impl_t := {
  globals_ : pinba_globals_t;
  coordinator_conf_ : coordinator_conf_t;
  report_hosts_ : gmap string report_host___new_thread_t;
  poller_shutdown_flag : bool;
}.

Definition set_globals_ (g : pinba_globals_t) (c : coordinator_impl_t) :=
  {| globals_ := g; coordinator_conf_ := coordinator_conf_ c;
     report_hosts_ := report_hosts_ c; poller_shutdown_flag := poller_shutdown_flag c |}.
Definition set_report_hosts_
    (f : gmap string report_host___new_thread_t → gmap string report_host___new_thread_t)
    (c : coordinator_impl_t) :=
  {| globals_ := globals_ c; coordinator_conf_ := coordinator_conf_ c;
     report_hosts_ := f (report_hosts_ c); poller_shutdown_flag := poller_shutdown_flag c |}.
Definition set_shutdown_flag (c : coordinator_impl_t) :=
  {| globals_ := globals_ c; coordinator_conf_ := coordinator_conf_ c;
     report_hosts_ := report_hosts_ c; poller_shutdown_flag := true |}.

(** A statement on the globals, run from a method of the coordinator. *)
Definition on_globals {A} (m : M pinba_globals_t A) : M coordinator_impl_t A := λ c,
  match m (globals_ c) with
  | Ret a g => Ret a (set_globals_ g c)
  | Throw e g => Throw e (set_globals_ g c)
  | Fatal f g => Fatal f (set_globals_ g c)
  end.

Inductive coordinator_request_t :=
| coordinator_request___call_t (func : coordinator_impl_t → outcome unit)
| coordinator_request___shutdown_t
| coordinator_request___add_report_t (report : report_t)
| coordinator_request___delete_report_t (report_name : string)
| coordinator_request___get_report_snapshot_t (report_name : string)
| coordinator_request___other (type : Z).   (* any other value of [req->type] *)

Definition control_send (response : coordinator_response_t) : M coordinator_impl_t unit :=
  on_globals (emit (EvControlSend response)).

Definition control_send_generic (status : coordinator_status_t) (err : option string)
  : M coordinator_impl_t unit :=
  control_send (coordinator_response___generic_t status err).

(** [for (auto& report_host : report_hosts_) report_host.second->f();] *)
Fixpoint for_hosts (f : report_host___new_thread_t → M pinba_globals_t report_host___new_thread_t)
    (l : list (string * report_host___new_thread_t)) : M coordinator_impl_t unit :=
  match l with
  | [] => ret tt
  | (k, h) :: l' =>
      h' <- on_globals (f h);;
      modify (set_report_hosts_ (insert k h'));;;
      for_hosts f l'
  end.

(** The loop over [report_hosts_], a [std::unordered_map]: every entry is
    visited once, in an order the container chooses.  Here it is the order of
    [map_to_list]; no statement below depends on which order it is. *)
Definition for_each_report_host
    (f : report_host___new_thread_t → M pinba_globals_t report_host___new_thread_t)
  : M coordinator_impl_t unit :=
  hosts <- gets report_hosts_;;
  for_hosts f (map_to_list hosts).

(** The names [ADD_REPORT] gives a host, from [thread_id] and the report's
    name. *)
Definition rh_conf (buffer : nat) (thread_id : nat) (report_name : string) : report_host_conf_t :=
  let thr_name := "rh/" +:+ pretty thread_id in
  let rh_name := "rh/" +:+ pretty thread_id +:+ "/" +:+ report_name in
  {| name := rh_name;
     thread_name := thr_name;
     nn_reqrep := "inproc://" +:+ rh_name +:+ "/control";
     nn_shutdown := "inproc://" +:+ rh_name +:+ "/shutdown";
     nn_packets := "inproc://" +:+ rh_name +:+ "/packets";
     nn_packets_buffer := buffer |}.

Definition unknown_report (report_name : string) : string :=
  "unknown report: " +:+ report_name.

Definition unknown_request_type (type : Z) : exception :=
  StdException ("unknown coordinator_control_request type: " +:+ pretty type).

(** The callback of [GET_REPORT_SNAPSHOT]:
    [[&](report_t *report) { snapshot = report->get_snapshot(); }] *)
Definition get_snapshot_func : report_host_call_func_t report_snapshot_t := λ report,
  get_snapshot report.

(** The [switch (req->type)] inside the [try] block. *)
Definition control_dispatch (req : coordinator_request_t) : M coordinator_impl_t unit :=
  match req with
  | coordinator_request___call_t func =>
      this <- gets id;;
      match func this with
      | Raise e => throw e
      | Done _ => control_send_generic COORDINATOR_STATUS__OK None
      end

  | coordinator_request___shutdown_t =>
      for_each_report_host shutdown;;;
      modify set_shutdown_flag;;;
      control_send_generic COORDINATOR_STATUS__OK None

  | coordinator_request___add_report_t report =>
      hosts <- gets report_hosts_;;
      conf <- gets coordinator_conf_;;
      let conf := rh_conf (nn_report_output_buffer conf) (size hosts) (report_name report) in
      rh <- on_globals (new_report_host conf);;
      rh <- unwinding (on_globals (startup report rh))
                      (on_globals (delete_report_host rh));;
      (* report_hosts_.emplace(report_name, move(rh)).  With the key present
         nothing is inserted and the host that [rh] owned dies: inside
         emplace, when the element is built from the arguments before the
         key is looked up (libstdc++), or else at the closing brace of the
         case, after the reply.  The model takes the first. *)
      match hosts !! report_name report with
      | None => modify (set_report_hosts_ (insert (report_name report) rh))
      | Some _ => on_globals (delete_report_host rh)
      end;;;
      control_send_generic COORDINATOR_STATUS__OK None

  | coordinator_request___delete_report_t report_name =>
      hosts <- gets report_hosts_;;
      match hosts !! report_name with
      | None =>
          control_send_generic COORDINATOR_STATUS__ERROR (Some (unknown_report report_name))
      | Some host =>
          host <- on_globals (shutdown host);;
          modify (set_report_hosts_ (delete report_name));;;
          on_globals (delete_report_host host);;;
          control_send_generic COORDINATOR_STATUS__OK None
      end

  | coordinator_request___get_report_snapshot_t report_name =>
      hosts <- gets report_hosts_;;
      match hosts !! report_name with
      | None =>
          control_send_generic COORDINATOR_STATUS__ERROR (Some (unknown_report report_name))
      | Some host =>
          r <- on_globals (call_with_report get_snapshot_func host);;
          modify (set_report_hosts_ (insert report_name (fst r)));;;
          control_send (coordinator_response___report_snapshot_t (snd r))
      end

  | coordinator_request___other type => throw (unknown_request_type type)
  end.

(** Handler of [control_sock_]: the [try] block and its
    [catch (std::exception const& e)].  An exception of another type is not
    caught, here or further up: it leaves the handler, [poller.loop()] (taken
    to let it pass, as in the hosts' threads) and [worker_thread], the
    function of the coordinator's [std::thread], which is
    [std::terminate]. *)
Definition on_control_sock (req : coordinator_request_t) : M coordinator_impl_t unit :=
  try_catch (control_dispatch req)
    (λ e, match e with
          | StdException message =>
              control_send_generic COORDINATOR_STATUS__ERROR (Some message)
          | OtherException _ => stop StdTerminate
          end).

(** Handler of [in_sock_]: relay the batch to all reports. *)
Definition on_in_sock (batch : packet_batch_ptr) : M coordinator_impl_t unit :=
  for_each_report_host (process_batch batch).

(** Handler of the tick channel: [chan.recv()] and nothing else. *)
Definition on_tick_chan : M coordinator_impl_t unit := ret tt.

(** What the poller found readable; [now] is the time it hands the
    handler. *)
Inductive poller_event :=
| tick_chan_readable (now : timeval_t)
| in_sock_readable (now : timeval_t) (batch : packet_batch_ptr)
| control_sock_readable (now : timeval_t) (req : coordinator_request_t).

Definition poller_now (ev : poller_event) : timeval_t :=
  match ev with
  | tick_chan_readable now | in_sock_readable now _ | control_sock_readable now _ => now
  end.

Definition poller_handle (ev : poller_event) : M coordinator_impl_t unit :=
  on_globals (modify (set_clock (poller_now ev)));;;
  match ev with
  | tick_chan_readable _ => on_tick_chan
  | in_sock_readable _ batch => on_in_sock batch
  | control_sock_readable _ req => on_control_sock req
  end.

(** [poller.loop()]: one handler per iteration, until the flag is set.  A
    run is given by the events the poller reports; when they are used up the
    loop is still waiting. *)
Fixpoint poller_loop (evs : list poller_event) : M coordinator_impl_t unit :=
  match evs with
  | [] => ret tt
  | ev :: evs' =>
      poller_handle ev;;;
      flag <- gets poller_shutdown_flag;;
      if flag : bool then ret tt else poller_loop evs'
  end.

Definition coordinator_tick_name : string := "coordinator_thread".

(** [worker_thread()]: the subscription, then ([worker_thread_rest]) the
    loop and what follows it.  [poller.loop()] returns only once the flag is
    set; when the events of the run are used up before that, the thread is
    still inside the loop and what follows it is not reached. *)
Definition worker_thread_rest (tick_chan : nmsg_ticker_chan_t) (evs : list poller_event)
  : M coordinator_impl_t unit :=
  poller_loop evs;;;
  flag <- gets poller_shutdown_flag;;
  if flag : bool then on_globals (unsubscribe tick_chan) else stop BlockedForever.

Definition worker_thread (evs : list poller_event) : M coordinator_impl_t unit :=
  tick_chan <- on_globals (subscribe (1000 * d_millisecond) coordinator_tick_name);;
  worker_thread_rest tick_chan evs.

(** The constructor [coordinator_impl_t(globals, conf)]. *)
Definition create_coordinator (conf : coordinator_conf_t)
  : M pinba_globals_t coordinator_impl_t :=
  nmsg_bind (nn_control conf);;;
  unwinding (nmsg_bind (nn_report_output conf)) (nmsg_close (nn_control conf));;;
  g <- gets id;;
  ret {| globals_ := g; coordinator_conf_ := conf; report_hosts_ := ∅;
         poller_shutdown_flag := false |}.

(** ** The process: the coordinator's thread and the hosts' threads

    A host's thread services its tick channel and its packets socket on its
    own; its two other sockets are served inside [call_with_report] and
    [shutdown] above, which wait for the reply. *)
Inductive host_poller_event :=
| host_tick_readable (now : timeval_t)
| host_packets_readable (now : timeval_t).

Definition host_poll (report_name : string) (ev : host_poller_event)
  : M coordinator_impl_t unit :=
  hosts <- gets report_hosts_;;
  g <- gets globals_;;
  match hosts !! report_name with
  | Some h =>
      if worker_running h g then
        h' <- on_globals (match ev with
                          | host_tick_readable now => worker_tick now h
                          | host_packets_readable now => worker_packets now h
                          end);;
        modify (set_report_hosts_ (insert report_name h'))
      else ret tt
  | None => ret tt
  end.

Inductive process_event :=
| coordinator_thread (ev : poller_event)
| host_thread (report_name : string) (ev : host_poller_event).

(** An interleaving of the threads' loop iterations.  Once the coordinator's
    flag is set its loop has ended and nothing handles its sockets. *)
Fixpoint process_run (evs : list process_event) : M coordinator_impl_t unit :=
  match evs with
  | [] => ret tt
  | coordinator_thread ev :: evs' =>
      flag <- gets poller_shutdown_flag;;
      if flag : bool then process_run evs'
      else poller_handle ev;;; process_run evs'
  | host_thread k ev :: evs' =>
      host_poll k ev;;; process_run evs'
  end.

(** The coordinator as [worker_thread] finds it when it enters its loop: no
    hosts yet, no host thread started. *)
Definition fresh_coordinator (c : coordinator_impl_t) : Prop :=
  report_hosts_ c = ∅ ∧ poller_shutdown_flag c = false ∧ threads (globals_ c) = [].

End Coordinator.

(** ** A concrete report, for running the model

    It counts the packets it was fed and the ticks it saw; [broken] makes
    [get_snapshot] raise. *)
Module counting.

Record report := {
  rname : string;
  rinfo : report_info_t;
  seen : Z;
  ticks : list timeval_t;
  broken : bool;
}.

Definition feed (n : Z) (r : report) : report :=
  {| rname := rname r; rinfo := rinfo r; seen := seen r + n;
     ticks := ticks r; broken := broken r |}.

Definition tick (now : timeval_t) (r : report) : report :=
  {| rname := rname r; rinfo := rinfo r; seen := seen r;
     ticks := ticks r ++ [now]; broken := broken r |}.

Definition snapshot (r : report) : outcome Z :=
  if broken r then Raise (StdException "snapshot failed") else Done (seen r).

#[export] Instance reports : Reports := {|
  report_t := report;
  report_snapshot_t := Z;
  packet_t := Z;
  report_name := rname;
  info := rinfo;
  ticks_init := λ now r, Done (tick now r);
  tick_now := λ now r, Done (tick now r);
  add_multi := λ ps n r, Done (feed n r);
  get_snapshot := λ r, match snapshot r with
                       | Done s => Done (r, s)
                       | Raise e => Raise e
                       end;
|}.

Definition mk (n : string) (window count : Z) (b : bool) : report :=
  {| rname := n; rinfo := {| time_window := window; tick_count := count |};
     seen := 0; ticks := []; broken := b |}.

Definition conf : coordinator_conf_t :=
  {| nn_input := "inproc://input"; nn_input_buffer := 16;
     nn_control := "inproc://control"; nn_report_output := "inproc://report";
     nn_report_output_buffer := 2 |}.

Definition globals0 : pinba_globals_t :=
  {| ticker := ∅; nn_bound := ∅; threads := [];
     batches := {[ 0%nat := {| packets := [1; 2; 3]; packet_count := 3 |};
                   1%nat := {| packets := [4; 5; 6; 7; 8]; packet_count := 5 |} ]};
     clock_monotonic_now := 0; trace := [] |}.

(** The coordinator right after its constructor. *)
Definition coordinator0 : coordinator_impl_t :=
  {| globals_ := globals0; coordinator_conf_ := conf; report_hosts_ := ∅;
     poller_shutdown_flag := false |}.

Definition add (n : string) : poller_event :=
  control_sock_readable 0 (coordinator_request___add_report_t (mk n 1000000000 10 false)).
Definition del (n : string) : poller_event :=
  control_sock_readable 0 (coordinator_request___delete_report_t n).
Definition snap (n : string) : poller_event :=
  control_sock_readable 0 (coordinator_request___get_report_snapshot_t n).

Definition add_broken (n : string) : poller_event :=
  control_sock_readable 0 (coordinator_request___add_report_t (mk n 1000000000 10 true)).
Definition push (batch : packet_batch_ptr) : poller_event := in_sock_readable 0 batch.
Definition failing_call : coordinator_request_t :=
  coordinator_request___call_t (λ _, Raise (StdException "callback failed")).
(** A callback that does [throw 42;]. *)
Definition throwing_call : coordinator_request_t :=
  coordinator_request___call_t (λ _, Raise (OtherException 42)).

(** The coordinator with one host, "a". *)
Definition with_a : coordinator_impl_t :=
  final_state (poller_loop [add "a"] coordinator0).

(** One host whose report cannot produce a snapshot. *)
Definition with_broken : coordinator_impl_t :=
  final_state (poller_loop [add_broken "r"] coordinator0).

(** One host, of capacity 2, with two batches queued. *)
Definition with_full_queue : coordinator_impl_t :=
  final_state (poller_loop [add "a"; push 0%nat; push 1%nat] coordinator0).

(** A coordinator whose ticker already has a subscription called
    "rh/0/x", made by another part of the process. *)
Definition name_taken : coordinator_impl_t :=
  {| globals_ := set_ticker (insert "rh/0/x" 1) globals0; coordinator_conf_ := conf;
     report_hosts_ := ∅; poller_shutdown_flag := false |}.

(** A run of the process: two hosts are added, they tick and take a batch,
    one is deleted and a third is added. *)
Definition busy_run : list process_event :=
  [coordinator_thread (add "a"); coordinator_thread (add "b");
   host_thread "a" (host_tick_readable 1); coordinator_thread (push 0%nat);
   host_thread "a" (host_packets_readable 3); coordinator_thread (del "a");
   coordinator_thread (add "c")].
Definition busy : coordinator_impl_t := final_state (process_run busy_run coordinator0).

(** Add, delete, add. *)
Definition add_delete_add : list poller_event := [add "a"; del "a"; add "b"].

(** One host is fed a batch of 3 and a batch of 5 packets, drains both, and
    is asked for a snapshot. *)
Definition single_host_run : list process_event :=
  [coordinator_thread (add "r"); coordinator_thread (push 0%nat);
   coordinator_thread (push 1%nat);
   host_thread "r" (host_packets_readable 1); host_thread "r" (host_packets_readable 2);
   coordinator_thread (snap "r")].

End counting.

(** ** Vocabulary of the statements *)

Section Observations.
Context `{Reports}.

(** [c] after one more response went out on the control socket. *)
Definition replied (response : coordinator_response_t) (c : coordinator_impl_t)
  : coordinator_impl_t :=
  set_globals_ (set_trace (λ t, t ++ [EvControlSend response]) (globals_ c)) c.

(** [c] when the poller hands a handler the time [now]. *)
Definition at_time (now : timeval_t) (c : coordinator_impl_t) : coordinator_impl_t :=
  set_globals_ (set_clock now (globals_ c)) c.

Definition error_response (msg : string) : coordinator_response_t :=
  coordinator_response___generic_t COORDINATOR_STATUS__ERROR (Some msg).

Definition ok_response : coordinator_response_t :=
  coordinator_response___generic_t COORDINATOR_STATUS__OK None.

(** The responses sent so far, oldest first. *)
Definition responses (t : list event) : list coordinator_response_t :=
  omap (λ e, match e with EvControlSend r => Some r | _ => None end) t.

(** The hosts constructed so far: name and thread name, oldest first. *)
Definition hosts_created (t : list event) : list (string * string) :=
  omap (λ e, match e with EvHostCreated n thr => Some (n, thr) | _ => None end) t.

(** The addresses a host binds. *)
Definition endpoints (h : report_host___new_thread_t) : list string :=
  [nn_packets (conf_ h); nn_reqrep (conf_ h); nn_shutdown (conf_ h)].

(** The reading of "an index never reused over the coordinator's
    lifetime": in no run from [c0] do two of the hosts constructed have the
    same thread name "rh/<i>". *)
Definition index_never_reused (c0 : coordinator_impl_t) : Prop :=
  ∀ evs c, poller_loop evs c0 = Ret tt c → NoDup (hosts_created (trace (globals_ c))).*2.

(** Strings without the separator of the name scheme. *)
Fixpoint no_slash (s : string) : Prop :=
  match s with
  | EmptyString => True
  | String a s' => a ≠ "/"%char ∧ no_slash s'
  end.


(** What one [host.shutdown()] adds to the trace. *)
Definition shutdown_events (h : report_host___new_thread_t) : list event :=
  match t_ h, ticker_chan_ h with
  | Some tid, Some chan =>
      [EvHostShutdown (name (conf_ h)); EvUnsubscribe (chan_name chan);
       EvThreadJoin (name (conf_ h)) tid]
  | _, _ => []
  end.

(** The threads of the hosts of a list of registry entries. *)
Definition tids (l : list (string * report_host___new_thread_t)) : list nat :=
  omap (λ kh, t_ kh.2) l.

(** Two states of one host that differ at most in what its own thread
    changes: the report, the queue, the packet counter. *)
Definition same_thread (h h' : report_host___new_thread_t) : Prop :=
  conf_ h' = conf_ h ∧ t_ h' = t_ h
  ∧ (is_Some (ticker_chan_ h) → is_Some (ticker_chan_ h'))
  ∧ (is_Some (report_ h) → is_Some (report_ h')).

(** What holds of the registry while the coordinator's loop runs: every
    host has the configuration [ADD_REPORT] derived for its key, its thread is
    running, no two hosts share a thread, and every running thread belongs to
    a host of the registry. *)
Record running_invariant (c : coordinator_impl_t) : Prop := {
  inv_host : ∀ k h, report_hosts_ c !! k = Some h →
    ∃ i tid, conf_ h = rh_conf (nn_report_output_buffer (coordinator_conf_ c)) i k
      ∧ t_ h = Some tid
      ∧ threads (globals_ c) !! tid = Some Running
      ∧ is_Some (ticker_chan_ h) ∧ is_Some (report_ h);
  inv_tid_inj : ∀ k1 k2 h1 h2 tid,
    report_hosts_ c !! k1 = Some h1 → report_hosts_ c !! k2 = Some h2 →
    t_ h1 = Some tid → t_ h2 = Some tid → k1 = k2;
  inv_owned : ∀ tid, threads (globals_ c) !! tid = Some Running →
    ∃ k h, report_hosts_ c !! k = Some h ∧ t_ h = Some tid;
}.

(** Statements that leave the poller's flag alone, statements that do not
    throw. *)
Definition keeps_flag {A} (m : M coordinator_impl_t A) : Prop :=
  ∀ c, poller_shutdown_flag (final_state (m c)) = poller_shutdown_flag c.

Definition no_throw {St A} (m : M St A) : Prop :=
  ∀ s e s', m s ≠ Throw e s'.

End Observations.

(** ** The clients' side *)

Section Clients.
Context `{Reports}.

(** [coordinator_impl_t::request(req)]: a REQ socket connected to
    [nn_control] sends the request and waits for the response.  The
    coordinator's thread handles the request in between, as long as its loop
    runs; what [recv] returns is the first response sent on [control_sock_]
    after the request went in. *)
Definition request (now : timeval_t) (req : coordinator_request_t)
  : M coordinator_impl_t coordinator_response_t :=
  flag <- gets poller_shutdown_flag;;
  if flag : bool then stop BlockedForever
  else
    sent <- gets (λ c, length (responses (trace (globals_ c))));;
    poller_handle (control_sock_readable now req);;;
    rs <- gets (λ c, responses (trace (globals_ c)));;
    match rs !! sent with
    | Some response => ret response
    | None => stop BlockedForever
    end.

(** [coordinator_impl_t::shutdown()]: the SHUTDOWN request, then
    [t_.join()], which returns once [worker_thread] has left its loop and
    unsubscribed the tick channel [tick_chan] it holds. *)
Definition coordinator_shutdown (now : timeval_t) (tick_chan : nmsg_ticker_chan_t)
  : M coordinator_impl_t unit :=
  request now coordinator_request___shutdown_t;;;
  flag <- gets poller_shutdown_flag;;
  if flag : bool then on_globals (unsubscribe tick_chan) else stop BlockedForever.

(** A statement that sends no response on the control socket, whatever its
    outcome. *)
Definition silent {St A} (tr : St → list event) (m : M St A) : Prop :=
  ∀ s, responses (tr (final_state (m s))) = responses (tr s).

(** A statement that sends exactly one response when it returns and none
    when it does not. *)
Definition one_reply {A} (m : M coordinator_impl_t A) : Prop :=
  ∀ c, match m c with
       | Ret _ c' =>
           ∃ r, responses (trace (globals_ c')) = responses (trace (globals_ c)) ++ [r]
       | Throw _ c' | Fatal _ c' =>
           responses (trace (globals_ c')) = responses (trace (globals_ c))
       end.

End Clients.

(** ** How the hosts of the registry come about and change *)

Section Histories.
Context `{Reports}.

(** A host as a successful [startup] of a freshly constructed host leaves
    it. *)
Definition host_born (h' : report_host___new_thread_t) : Prop :=
  ∃ report conf g g', startup report (fresh_host conf) g = Ret h' g'.

(** One call on a host by the coordinator, or one iteration of its own
    thread's loop. *)
Inductive host_step : report_host___new_thread_t → report_host___new_thread_t → Prop :=
| host_step_send batch h :
    host_step h (send_message_dontwait batch h).1
| host_step_tick now h g h' g' :
    worker_tick now h g = Ret h' g' → host_step h h'
| host_step_packets now h g h' g' :
    worker_packets now h g = Ret h' g' → host_step h h'
| host_step_snapshot h g r g' :
    call_with_report get_snapshot_func h g = Ret r g' → host_step h r.1
| host_step_shutdown h g h' g' :
    shutdown h g = Ret h' g' → host_step h h'.

(** Feeding the packets of a list of batches to a report, in order. *)
Fixpoint feed_batches (bs : list packet_batch_t) (r : report_t) : outcome report_t :=
  match bs with
  | [] => Done r
  | b :: bs' =>
      match add_multi (packets b) (packet_count b) r with
      | Done r' => feed_batches bs' r'
      | Raise e => Raise e
      end
  end.

(** Two states of one host with the same configuration, thread and
    ticker channel. *)
Definition same_identity (h h' : report_host___new_thread_t) : Prop :=
  conf_ h' = conf_ h ∧ t_ h' = t_ h ∧ ticker_chan_ h' = ticker_chan_ h.

(** Names and addresses of the shape [ADD_REPORT] gives to hosts. *)
Definition host_name_like (n : string) : Prop := ∃ t, n = "rh/" +:+ t.
Definition host_address_like (a : string) : Prop := ∃ t, a = "inproc://rh/" +:+ t.

(** A coordinator about to enter its loop in a process where nothing else
    uses names of that shape. *)
Definition clean_start (c : coordinator_impl_t) : Prop :=
  fresh_coordinator c
  ∧ (∀ n, is_Some (ticker (globals_ c) !! n) → ¬ host_name_like n)
  ∧ (∀ a, a ∈ nn_bound (globals_ c) → ¬ host_address_like a).

(** Every subscription and every bound address of that shape belongs to a
    host of the registry, and every host is subscribed under its own name. *)
Record resources_invariant (c : coordinator_impl_t) : Prop := {
  res_chan : ∀ k h, report_hosts_ c !! k = Some h →
    ∃ chan, ticker_chan_ h = Some chan ∧ chan_name chan = name (conf_ h);
  res_ticker : ∀ n, is_Some (ticker (globals_ c) !! n) → host_name_like n →
    ∃ k h, report_hosts_ c !! k = Some h ∧ name (conf_ h) = n;
  res_bound : ∀ a, a ∈ nn_bound (globals_ c) → host_address_like a →
    ∃ k h, report_hosts_ c !! k = Some h ∧ a ∈ endpoints h;
}.

End Histories.

(** * Properties *)

Section Properties.
Context `{Reports}.

Implicit Types (c : coordinator_impl_t) (g : pinba_globals_t).
Implicit Types (h : report_host___new_thread_t) (req : coordinator_request_t).

(** Unfolds the monadic plumbing. *)
Ltac mstep :=
  repeat (progress
    (unfold unwinding, control_send_generic, control_send, emit, on_globals,
       bind, ret, throw, stop, gets, modify, try_catch; simpl)).

Lemma poller_loop_step ev evs c c' :
  poller_handle ev c = Ret tt c' →
  poller_shutdown_flag c' = false →
  poller_loop (ev :: evs) c = poller_loop evs c'.
Proof.
  intros Hh Hf. simpl. unfold bind at 1. rewrite Hh.
  unfold bind, gets. by rewrite Hf.
Qed.

Lemma poller_handle_control now req c :
  poller_handle (control_sock_readable now req) c = on_control_sock req (at_time now c).
Proof. reflexivity. Qed.

(** [C3] A [DELETE_REPORT] or [GET_REPORT_SNAPSHOT] that names a report the
    registry does not hold is answered with the error "unknown report: <name>",
    changes nothing but the reply it sends (the registry in particular), and
    the loop goes on with the next event. *)
Theorem unknown_report_replies_error c req report_name now evs :
  report_hosts_ c !! report_name = None →
  poller_shutdown_flag c = false →
  req = coordinator_request___delete_report_t report_name
  ∨ req = coordinator_request___get_report_snapshot_t report_name →
  let c' := replied (error_response ("unknown report: " +:+ report_name)) (at_time now c) in
  on_control_sock req (at_time now c) = Ret tt c'
  ∧ report_hosts_ c' = report_hosts_ c
  ∧ poller_shutdown_flag c' = false
  ∧ poller_loop (control_sock_readable now req :: evs) c = poller_loop evs c'.
Proof.
  intros Hnone Hflag Hreq c'.
  assert (Hrun : on_control_sock req (at_time now c) = Ret tt c').
  { destruct Hreq as [-> | ->]; unfold on_control_sock, control_dispatch; mstep;
      by rewrite Hnone. }
  split_and!; [done | done | done |].
  apply poller_loop_step; [by rewrite poller_handle_control | done].
Qed.

(** *** Statements that leave the poller's flag alone, statements that do
    not throw *)

Lemma keeps_flag_ret {A} (a : A) : keeps_flag (ret a).
Proof. by intros c. Qed.

Lemma keeps_flag_throw {A} e : keeps_flag (throw (A:=A) e).
Proof. by intros c. Qed.

Lemma keeps_flag_gets {A} (f : coordinator_impl_t → A) : keeps_flag (gets f).
Proof. by intros c. Qed.

Lemma keeps_flag_on_globals {A} (m : M pinba_globals_t A) : keeps_flag (on_globals m).
Proof. intros c. unfold on_globals. by destruct (m (globals_ c)). Qed.

Lemma keeps_flag_set_report_hosts_ f : keeps_flag (modify (set_report_hosts_ f)).
Proof. by intros c. Qed.

Lemma keeps_flag_bind {A B} (m : M coordinator_impl_t A) (k : A → M coordinator_impl_t B) :
  keeps_flag m → (∀ a, keeps_flag (k a)) → keeps_flag (bind m k).
Proof.
  intros Hm Hk c. unfold bind. specialize (Hm c).
  destruct (m c) as [a s|e s|f s]; simpl in *; [|done|done].
  by rewrite Hk.
Qed.

Lemma keeps_flag_try_catch {A} (m : M coordinator_impl_t A) k :
  keeps_flag m → (∀ e, keeps_flag (k e)) → keeps_flag (try_catch m k).
Proof.
  intros Hm Hk c. unfold try_catch. specialize (Hm c).
  destruct (m c) as [a s|e s|f s]; simpl in *; [done| |done].
  by rewrite Hk.
Qed.

Lemma keeps_flag_for_hosts f l : keeps_flag (for_hosts f l).
Proof.
  induction l as [|[k h] l IH]; simpl; [apply keeps_flag_ret|].
  apply keeps_flag_bind; [apply keeps_flag_on_globals|intros h'].
  apply keeps_flag_bind; [apply keeps_flag_set_report_hosts_|done].
Qed.

Create HintDb keeps_flag.
#[local] Hint Resolve keeps_flag_ret keeps_flag_throw keeps_flag_gets keeps_flag_on_globals
  keeps_flag_set_report_hosts_ keeps_flag_for_hosts : keeps_flag.

Ltac keeps_flag :=
  repeat first
    [ progress auto with keeps_flag
    | apply keeps_flag_bind; [|intros ?]
    | apply keeps_flag_try_catch; [|intros ?]
    | progress unfold unwinding, control_send_generic, control_send, for_each_report_host
    | match goal with |- keeps_flag (match ?x with _ => _ end) => destruct x end ].

Lemma no_throw_bind {St A B} (m : M St A) (k : A → M St B) :
  no_throw m → (∀ a, no_throw (k a)) → no_throw (bind m k).
Proof.
  intros Hm Hk s e s'. unfold bind. specialize (Hm s).
  destruct (m s) as [a s1|e1 s1|f s1]; [apply Hk| |done].
  by destruct (Hm e1 s1).
Qed.

Lemma no_throw_on_globals {A} (m : M pinba_globals_t A) :
  no_throw m → no_throw (on_globals m).
Proof.
  intros Hm c e c'. unfold on_globals. specialize (Hm (globals_ c)).
  destruct (m (globals_ c)) as [a s1|e1 s1|f s1]; [done| |done].
  by destruct (Hm e1 s1).
Qed.

Lemma no_throw_emit e : no_throw (emit e).
Proof. by intros s e' s'. Qed.

Lemma no_throw_unsubscribe chan : no_throw (unsubscribe chan).
Proof. by intros s e' s'. Qed.

Lemma no_throw_shutdown h : no_throw (shutdown h).
Proof.
  intros g e g'. unfold shutdown. mstep.
  destruct (t_ h) as [tid|]; [|done].
  destruct (worker_running _ _); [|done].
  unfold worker_shutdown. destruct (ticker_chan_ h); mstep; done.
Qed.

Lemma no_throw_for_hosts f l : (∀ h, no_throw (f h)) → no_throw (for_hosts f l).
Proof.
  intros Hf. induction l as [|[k h] l IH]; simpl; [done|].
  apply no_throw_bind; [by apply no_throw_on_globals|intros h'].
  apply no_throw_bind; [done|done].
Qed.

Lemma no_throw_delete_report_host h : no_throw (delete_report_host h).
Proof. intros g e g'. unfold delete_report_host, nmsg_close. mstep. by destruct (t_ h). Qed.

Lemma no_throw_call_with_report {A} (func : report_host_call_func_t A) h :
  no_throw (call_with_report func h).
Proof.
  intros g e g'. unfold call_with_report, worker_reqrep. mstep.
  destruct (worker_running _ _); [|done].
  destruct (report_ h) as [r|]; [|done]. by destruct (func r) as [[r' a]|].
Qed.


(** *** The constructor and [startup], case by case *)

Lemma new_report_host_cases conf g :
  (∃ a, new_report_host conf g = Throw (nn_address_in_use a) g)
  ∨ (new_report_host conf g
     = Ret (fresh_host conf)
         (set_trace (λ t, t ++ [EvHostCreated (name conf) (thread_name conf)])
            (set_nn_bound (λ b, {[nn_shutdown conf]} ∪ ({[nn_reqrep conf]} ∪ ({[nn_packets conf]} ∪ b))) g))
     ∧ (nn_packets conf ∉ nn_bound g)
     ∧ (nn_reqrep conf ∉ nn_bound g)
     ∧ (nn_shutdown conf ∉ nn_bound g)).
Proof.
  unfold new_report_host, nmsg_bind, nmsg_close. mstep.
  destruct (decide (nn_packets conf ∈ nn_bound g)) as [|Hp]; [left; eauto|]. simpl.
  case_decide as Hr; simpl.
  { left. eexists. f_equal. destruct g; unfold set_nn_bound; simpl. f_equal. set_solver. }
  case_decide as Hs; simpl.
  { left. eexists. f_equal. destruct g; unfold set_nn_bound; simpl. f_equal. set_solver. }
  right. split_and!; [by destruct g|set_solver..].
Qed.

Lemma startup_throw report h g e g1 :
  startup report h g = Throw e g1 →
  g1 = g
  ∧ (is_Some (report_ h) ∧ e = already_started (conf_ h)
     ∨ report_ h = None ∧ tick_count (info report) ≠ 0
       ∧ is_Some (ticker g !! name (conf_ h)) ∧ e = ticker_name_in_use (name (conf_ h))).
Proof.
  unfold startup, duration_div, subscribe, thread_spawn. mstep.
  destruct (report_ h) as [r|] eqn:Hr.
  { intros [= <- <-]. eauto. }
  destruct (decide (tick_count (info report) = 0)); [done|]. simpl.
  destruct (ticker g !! name (conf_ h)) eqn:Ht; simpl.
  { intros [= <- <-]. split; [done|]. right. eauto. }
  by destruct (ticks_init _ _).
Qed.

Lemma responses_app t1 t2 : responses (t1 ++ t2) = responses t1 ++ responses t2.
Proof. unfold responses. apply omap_app. Qed.

(** [C9] When the constructor of the host or [startup] throws inside
    [ADD_REPORT], nothing is inserted: the registry is as it was (and so are
    the threads, the ticker's subscriptions and the bound addresses), and the
    one response sent is the generic error with the exception's message. *)
Theorem add_report_failure_changes_nothing report c e g1 :
  let conf := rh_conf (nn_report_output_buffer (coordinator_conf_ c))
                (size (report_hosts_ c)) (report_name report) in
  new_report_host conf (globals_ c) = Throw e g1
  ∨ (∃ rh g', new_report_host conf (globals_ c) = Ret rh g'
              ∧ startup report rh g' = Throw e g1) →
  ∃ c', on_control_sock (coordinator_request___add_report_t report) c = Ret tt c'
        ∧ report_hosts_ c' = report_hosts_ c
        ∧ poller_shutdown_flag c' = poller_shutdown_flag c
        ∧ threads (globals_ c') = threads (globals_ c)
        ∧ ticker (globals_ c') = ticker (globals_ c)
        ∧ nn_bound (globals_ c') = nn_bound (globals_ c)
        ∧ responses (trace (globals_ c'))
          = responses (trace (globals_ c)) ++ [error_response (what e)].
Proof.
  intros conf Hfail.
  unfold on_control_sock, control_dispatch. mstep. fold conf. clearbody conf.
  destruct (new_report_host_cases conf (globals_ c)) as [[e' Hc]|(Hc & Hp & Hr & Hs)].
  - destruct Hfail as [Hf|(rh & g' & Hf & _)]; rewrite Hc in Hf; [|done].
    injection Hf as <- <-. rewrite Hc. simpl.
    eexists. split; [done|]. simpl. split_and!; try done.
    by rewrite responses_app.
  - destruct Hfail as [Hf|(rh & g' & Hf & Hst)]; rewrite Hc in Hf; [done|].
    injection Hf as <- <-. rewrite Hc. simpl.
    destruct (startup_throw _ _ _ _ _ Hst) as [-> [[_ ->]|(_ & _ & _ & ->)]];
      rewrite Hst; simpl.
    all: eexists; (split; [done|]); simpl; split_and!; try done.
    all: first [set_solver|by rewrite !responses_app, app_nil_r].
Qed.

(** [C10] [startup] divides [time_window] by [tick_count] without looking at
    the divisor: with [tick_count = 0] the division is undefined behaviour and
    nothing is thrown or subscribed.  With [tick_count > 0] the quotient is
    defined and (the host's name being free in the ticker) the host subscribes
    at exactly [time_window / tick_count]. *)
Theorem startup_tick_interval report h g :
  report_ h = None →
  (tick_count (info report) = 0 → startup report h g = Fatal UndefinedBehaviour g)
  ∧ (0 < tick_count (info report) →
     let interval := time_window (info report) `quot` tick_count (info report) in
     duration_div (time_window (info report)) (tick_count (info report)) g = Ret interval g
     ∧ (ticker g !! name (conf_ h) = None →
        let g' := final_state (startup report h g) in
        ticker g' !! name (conf_ h) = Some interval
        ∧ EvSubscribe (name (conf_ h)) interval ∈ trace g'
        ∧ ∀ h1 g1, startup report h g = Ret h1 g1 →
            ticker_chan_ h1
            = Some {| chan_name := name (conf_ h); chan_interval := interval |})).
Proof.
  intros Hfresh. unfold startup, duration_div, subscribe, thread_spawn.
  rewrite Hfresh. split.
  - intros Hzero. mstep. by case_decide.
  - intros Hpos. split.
    { mstep. case_decide; [lia|done]. }
    intros Hfree. mstep. case_decide; [lia|]. simpl.
    rewrite Hfree. simpl.
    destruct (ticks_init _ _) as [r|e]; simpl.
    + split_and!; [by rewrite lookup_insert_eq|set_solver|].
      by intros h1 g1 [= <- <-].
    + split_and!; [by rewrite lookup_insert_eq|set_solver|done].
Qed.

(** *** The fan-out loop *)

Lemma process_batch_eq batch h g :
  process_batch batch h g
  = Ret (send_message_dontwait batch h).1
        (set_trace (λ t, t ++ [EvProcessBatch (name (conf_ h)) batch]) g).
Proof.
  unfold process_batch. mstep.
  by destruct (send_message_dontwait batch h) as [h' []].
Qed.

Lemma lookup_foldl_insert {A} (φ : A → A) (l : list (string * A)) (m : gmap string A) k :
  NoDup l.*1 →
  foldl (λ m kh, <[kh.1 := φ kh.2]> m) m l !! k
  = match (list_to_map l : gmap string A) !! k with
    | Some a => Some (φ a)
    | None => m !! k
    end.
Proof.
  revert m. induction l as [|[k0 a0] l IH]; intros m Hnd; simpl.
  { by rewrite lookup_empty. }
  apply NoDup_cons in Hnd as [Hk0 Hnd]. rewrite IH by done.
  destruct (decide (k0 = k)) as [->|Hne].
  - rewrite lookup_insert_eq.
    rewrite (not_elem_of_list_to_map_1 (M:=gmap string) l k) by done.
    by rewrite lookup_insert_eq.
  - rewrite (lookup_insert_ne (list_to_map l)) by done.
    destruct (list_to_map l !! k); [done|]. by rewrite lookup_insert_ne.
Qed.

Lemma foldl_insert_map_to_list {A} (φ : A → A) (m : gmap string A) :
  foldl (λ m kh, <[kh.1 := φ kh.2]> m) m (map_to_list m) = φ <$> m.
Proof.
  apply map_eq. intros k.
  rewrite lookup_foldl_insert by apply NoDup_fst_map_to_list.
  rewrite list_to_map_to_list, lookup_fmap. by destruct (m !! k).
Qed.

Lemma for_hosts_process_batch batch l c :
  for_hosts (process_batch batch) l c
  = Ret tt
      (set_globals_
         (set_trace (λ t, t ++ map (λ kh, EvProcessBatch (name (conf_ kh.2)) batch) l)
            (globals_ c))
         (set_report_hosts_
            (λ m, foldl (λ m kh, <[kh.1 := (send_message_dontwait batch kh.2).1]> m) m l) c)).
Proof.
  revert c. induction l as [|[k h] l IH]; intros c; simpl.
  { destruct c as [[] ? ? ?]. unfold ret, set_globals_, set_trace; simpl. by rewrite app_nil_r. }
  unfold bind at 1, on_globals. rewrite process_batch_eq.
  unfold bind at 1, modify. rewrite IH.
  destruct c as [[] ? ? ?]. unfold set_globals_, set_trace, set_report_hosts_; simpl.
  by rewrite <-app_assoc.
Qed.

(** [C1] One batch read from [in_sock_] is handed to [process_batch] of every
    host of the registry, once each and in the registry's iteration order, and
    it is the same pointer every time: the batches in memory are untouched,
    every host is left as its own [send_message] leaves it, and a host with
    room has that pointer at the end of its queue. *)
Theorem batch_relayed_to_every_host batch c :
  ∃ c', on_in_sock batch c = Ret tt c'
    ∧ trace (globals_ c')
      = trace (globals_ c)
        ++ map (λ kh, EvProcessBatch (name (conf_ kh.2)) batch) (map_to_list (report_hosts_ c))
    ∧ batches (globals_ c') = batches (globals_ c)
    ∧ report_hosts_ c' = (λ h, (send_message_dontwait batch h).1) <$> report_hosts_ c
    ∧ ∀ k h, report_hosts_ c !! k = Some h →
        (length (packets_sock_ h) < nn_packets_buffer (conf_ h))%nat →
        ∃ h', report_hosts_ c' !! k = Some h'
              ∧ packets_sock_ h' = packets_sock_ h ++ [batch]
              ∧ conf_ h' = conf_ h.
Proof.
  unfold on_in_sock, for_each_report_host, bind, gets.
  rewrite for_hosts_process_batch. eexists. split; [done|].
  assert (Hmap := foldl_insert_map_to_list
                    (λ h, (send_message_dontwait batch h).1) (report_hosts_ c)).
  split_and!; [done|done|exact Hmap|].
  intros k h Hk Hroom. cbn [report_hosts_ set_globals_ set_report_hosts_].
  rewrite Hmap, lookup_fmap, Hk. simpl.
  unfold send_message_dontwait. rewrite decide_True by done. eauto.
Qed.

(** *** [host.shutdown()] and the loop over the registry *)

Lemma shutdown_running h g tid :
  t_ h = Some tid → threads g !! tid = Some Running → is_Some (ticker_chan_ h) →
  ∃ g', shutdown h g = Ret (set_t_ None h) g'
    ∧ threads g' = <[tid := Exited]> (threads g)
    ∧ trace g' = trace g ++ shutdown_events h.
Proof.
  intros Ht Hrun [chan Hchan].
  unfold shutdown, worker_running, worker_shutdown, unsubscribe, shutdown_events. mstep.
  rewrite Ht, Hchan. simpl. rewrite Hrun. simpl.
  eexists. split; [done|]. simpl. split; [done|].
  by rewrite <-!app_assoc.
Qed.

Lemma shutdown_ret h g h' g' :
  shutdown h g = Ret h' g' →
  ∃ tid, t_ h = Some tid ∧ threads g !! tid = Some Running
    ∧ h' = set_t_ None h ∧ threads g' = <[tid := Exited]> (threads g).
Proof.
  unfold shutdown, worker_running, worker_shutdown, unsubscribe. mstep.
  destruct (t_ h) as [tid|]; [|done]. simpl.
  destruct (threads g !! tid) as [[]|] eqn:Hrun; simpl; [|done..].
  destruct (ticker_chan_ h); simpl; [|done].
  intros [= <- <-]. eauto.
Qed.

Lemma tids_cons k h l tid : t_ h = Some tid → tids ((k, h) :: l) = tid :: tids l.
Proof. intros Ht. unfold tids. simpl. by rewrite Ht. Qed.

Lemma for_hosts_shutdown l c :
  (∀ k h, (k, h) ∈ l → ∃ tid, t_ h = Some tid
                        ∧ threads (globals_ c) !! tid = Some Running
                        ∧ is_Some (ticker_chan_ h)) →
  NoDup (tids l) →
  ∃ c', for_hosts shutdown l c = Ret tt c'
    ∧ trace (globals_ c') = trace (globals_ c) ++ (l.*2 ≫= shutdown_events)
    ∧ (∀ tid, tid ∈ tids l → threads (globals_ c') !! tid = Some Exited)
    ∧ (∀ tid, tid ∉ tids l → threads (globals_ c') !! tid = threads (globals_ c) !! tid)
    ∧ report_hosts_ c' = foldl (λ m kh, <[kh.1 := set_t_ None kh.2]> m) (report_hosts_ c) l
    ∧ poller_shutdown_flag c' = poller_shutdown_flag c.
Proof.
  revert c. induction l as [|[k h] l IH]; intros c Hall Hnd.
  { exists c. split_and!; try done.
    - simpl. by rewrite app_nil_r.
    - intros tid Hin. by apply elem_of_nil in Hin. }
  destruct (Hall k h) as (tid & Ht & Hrun & Hchan); [left|].
  rewrite (tids_cons k h l tid Ht) in Hnd.
  apply NoDup_cons in Hnd as [Hfresh Hnd].
  destruct (shutdown_running h (globals_ c) tid Ht Hrun Hchan) as (g1 & Hsh & Hthr & Htr).
  set (c1 := set_report_hosts_ (insert k (set_t_ None h)) (set_globals_ g1 c)).
  destruct (IH c1) as (c' & Hloop & Htr' & Hin' & Hout' & Hhosts' & Hflag'); [|done|].
  { intros k' h' Hk'.
    destruct (Hall k' h') as (tid' & Ht' & Hrun' & Hchan'); [by right|].
    exists tid'. split_and!; [done| |done].
    simpl. rewrite Hthr. rewrite list_lookup_insert_ne; [done|].
    intros ->. destruct Hfresh. unfold tids. apply list_elem_of_omap.
    by exists (k', h'). }
  exists c'. split_and!.
  - simpl. unfold bind at 1, on_globals. rewrite Hsh. unfold bind at 1, modify. exact Hloop.
  - rewrite Htr'. simpl. rewrite Htr. by rewrite <-app_assoc.
  - rewrite (tids_cons k h l tid Ht). intros tid0 [->|Hin]%elem_of_cons.
    + rewrite Hout' by done. simpl. rewrite Hthr.
      apply list_lookup_insert_eq. by eapply lookup_lt_Some.
    + by apply Hin'.
  - rewrite (tids_cons k h l tid Ht). intros tid0 [Hne Hnin]%not_elem_of_cons.
    rewrite Hout' by done. simpl. rewrite Hthr. by rewrite list_lookup_insert_ne.
  - by rewrite Hhosts'.
  - by rewrite Hflag'.
Qed.

Lemma NoDup_tids l :
  NoDup l.*1 →
  (∀ k1 k2 h1 h2 tid, (k1, h1) ∈ l → (k2, h2) ∈ l →
     t_ h1 = Some tid → t_ h2 = Some tid → k1 = k2) →
  NoDup (tids l).
Proof.
  induction l as [|[k h] l IH]; intros Hnd Hinj; [constructor|].
  apply NoDup_cons in Hnd as [Hk Hnd]. simpl in Hk.
  assert (NoDup (tids l)) as Hl.
  { apply IH; [done|]. intros k1 k2 h1 h2 tid ? ?. apply Hinj; by right. }
  unfold tids in *. simpl. destruct (t_ h) as [tid|] eqn:Ht; [|done].
  apply NoDup_cons. split; [|done].
  intros ([k' h'] & Hin & Ht')%list_elem_of_omap. simpl in Ht'.
  assert (k = k') as <-.
  { eapply (Hinj k k' h h' tid); [left|by right|done..]. }
  destruct Hk. apply list_elem_of_fmap. by exists (k, h').
Qed.

Lemma running_invariant_at_time now c : running_invariant c → running_invariant (at_time now c).
Proof. by intros [? ? ?]. Qed.

(** The [SHUTDOWN] case of the switch, in a state where the invariant
    holds. *)
Lemma shutdown_request_joins_every_host c :
  running_invariant c →
  ∃ c1, for_each_report_host shutdown c = Ret tt c1
    ∧ control_dispatch coordinator_request___shutdown_t c
      = Ret tt (replied ok_response (set_shutdown_flag c1))
    ∧ trace (globals_ c1)
      = trace (globals_ c) ++ ((map_to_list (report_hosts_ c)).*2 ≫= shutdown_events)
    ∧ (∀ tid st, threads (globals_ c1) !! tid = Some st → st = Exited)
    ∧ report_hosts_ c1 = set_t_ None <$> report_hosts_ c.
Proof.
  intros [Hhost Hinj Hown].
  destruct (for_hosts_shutdown (map_to_list (report_hosts_ c)) c)
    as (c1 & Hloop & Htr & Hin & Hout & Hhosts & Hflag).
  { intros k h Hk%elem_of_map_to_list.
    destruct (Hhost k h Hk) as (i & tid & _ & ? & ? & ? & _). eauto. }
  { apply NoDup_tids; [apply NoDup_fst_map_to_list|].
    intros k1 k2 h1 h2 tid ?%elem_of_map_to_list ?%elem_of_map_to_list. eauto. }
  assert (Heach : for_each_report_host shutdown c = Ret tt c1).
  { unfold for_each_report_host, bind, gets. exact Hloop. }
  exists c1. split_and!; [done| |done| |].
  - unfold control_dispatch, bind at 1. rewrite Heach. reflexivity.
  - intros tid st Hst. destruct (decide (tid ∈ tids (map_to_list (report_hosts_ c)))) as [Hi|Hni].
    + rewrite (Hin tid Hi) in Hst. congruence.
    + rewrite (Hout tid Hni) in Hst. destruct st; [|done].
      destruct (Hown tid Hst) as (k & h & Hk & Ht). destruct Hni.
      unfold tids. apply list_elem_of_omap. exists (k, h).
      split; [by apply elem_of_map_to_list|done].
  - rewrite Hhosts. apply (foldl_insert_map_to_list (set_t_ None)).
Qed.

(** *** Reading a result back through the plumbing *)

Lemma bind_ret_inv {St A B} (m : M St A) (k : A → M St B) s b s' :
  bind m k s = Ret b s' → ∃ a s1, m s = Ret a s1 ∧ k a s1 = Ret b s'.
Proof. unfold bind. destruct (m s); [eauto|done..]. Qed.

Lemma bind_throw_inv {St A B} (m : M St A) (k : A → M St B) s e s' :
  bind m k s = Throw e s' →
  m s = Throw e s' ∨ ∃ a s1, m s = Ret a s1 ∧ k a s1 = Throw e s'.
Proof. unfold bind. destruct (m s); [eauto| |done]. intros [= <- <-]. by left. Qed.

Lemma try_catch_ret_inv {St A} (m : M St A) k s a s' :
  try_catch m k s = Ret a s' →
  m s = Ret a s' ∨ ∃ e s1, m s = Throw e s1 ∧ k e s1 = Ret a s'.
Proof. unfold try_catch. destruct (m s); [by left|eauto|done]. Qed.

Lemma try_catch_throw_inv {St A} (m : M St A) k s e s' :
  try_catch m k s = Throw e s' → ∃ e1 s1, m s = Throw e1 s1 ∧ k e1 s1 = Throw e s'.
Proof. unfold try_catch. destruct (m s); [done|eauto|done]. Qed.

Lemma on_globals_ret_inv {A} (m : M pinba_globals_t A) c a c' :
  on_globals m c = Ret a c' → ∃ g, m (globals_ c) = Ret a g ∧ c' = set_globals_ g c.
Proof. unfold on_globals. destruct (m (globals_ c)); [|done..]. intros [= <- <-]. eauto. Qed.

Lemma on_globals_throw_inv {A} (m : M pinba_globals_t A) c e c' :
  on_globals m c = Throw e c' → ∃ g, m (globals_ c) = Throw e g ∧ c' = set_globals_ g c.
Proof. unfold on_globals. destruct (m (globals_ c)); [done| |done]. intros [= <- <-]. eauto. Qed.

Lemma control_send_ret response c a c' :
  control_send response c = Ret a c' → c' = replied response c.
Proof. by intros [= <-]. Qed.

Lemma on_control_sock_ret_inv req c c' :
  on_control_sock req c = Ret tt c' →
  control_dispatch req c = Ret tt c'
  ∨ ∃ message c1, control_dispatch req c = Throw (StdException message) c1
      ∧ c' = replied (error_response message) c1.
Proof.
  intros Hh. apply try_catch_ret_inv in Hh as [Hd|(e & c1 & Hd & Hsend)]; [by left|].
  destruct e as [message|value]; [|done].
  apply control_send_ret in Hsend as ->. right. eauto.
Qed.

(** Neither the constructor nor the destructor of a host starts or ends a
    thread. *)
Lemma new_report_host_threads conf g :
  threads (final_state (new_report_host conf g)) = threads g.
Proof.
  destruct (new_report_host_cases conf g) as [[e ->]|[-> _]]; done.
Qed.

Lemma delete_report_host_threads h g :
  threads (final_state (delete_report_host h g)) = threads g.
Proof. unfold delete_report_host, nmsg_close. mstep. by destruct (t_ h). Qed.

Lemma delete_report_host_ret h g a g' :
  delete_report_host h g = Ret a g' → t_ h = None ∧ threads g' = threads g.
Proof.
  intros Hd. pose proof (delete_report_host_threads h g) as Ht. rewrite Hd in Ht.
  split; [|done]. revert Hd. unfold delete_report_host, nmsg_close. mstep.
  by destruct (t_ h).
Qed.

Lemma startup_ret report h g h' g' :
  startup report h g = Ret h' g' →
  conf_ h' = conf_ h ∧ t_ h' = Some (length (threads g))
  ∧ threads g' = threads g ++ [Running]
  ∧ is_Some (ticker_chan_ h') ∧ is_Some (report_ h').
Proof.
  unfold startup, duration_div, subscribe, thread_spawn. mstep.
  destruct (report_ h); [done|].
  case_decide; [done|]. simpl.
  destruct (ticker g !! name (conf_ h)); [done|]. simpl.
  destruct (ticks_init _ _); [|done].
  intros [= <- <-]. simpl. eauto 10.
Qed.

#[local] Opaque new_report_host startup delete_report_host shutdown call_with_report.

(** *** [ADD_REPORT], case by case *)

Lemma add_report_throw report c e c1 :
  control_dispatch (coordinator_request___add_report_t report) c = Throw e c1 →
  report_hosts_ c1 = report_hosts_ c
  ∧ threads (globals_ c1) = threads (globals_ c)
  ∧ coordinator_conf_ c1 = coordinator_conf_ c.
Proof.
  unfold control_dispatch. intros Hd.
  apply bind_throw_inv in Hd as [Hd|(hosts & c2 & [= <- <-] & Hd)]; [done|].
  apply bind_throw_inv in Hd as [Hd|(conf & c2 & [= <- <-] & Hd)]; [done|].
  apply bind_throw_inv in Hd as [Hd|(rh & c2 & Hnew & Hd)].
  { apply on_globals_throw_inv in Hd as (g & Hnew & ->). simpl.
    pose proof (new_report_host_threads
                  (rh_conf (nn_report_output_buffer (coordinator_conf_ c))
                     (size (report_hosts_ c)) (report_name report)) (globals_ c)) as Ht.
    by rewrite Hnew in Ht. }
  apply on_globals_ret_inv in Hnew as (g & Hnew & ->).
  pose proof (new_report_host_threads
                (rh_conf (nn_report_output_buffer (coordinator_conf_ c))
                   (size (report_hosts_ c)) (report_name report)) (globals_ c)) as Ht.
  rewrite Hnew in Ht. simpl in Ht.
  apply bind_throw_inv in Hd as [Hd|(rh' & c3 & Hst & Hd)].
  { apply try_catch_throw_inv in Hd as (e1 & c3 & Hst & Hd).
    apply on_globals_throw_inv in Hst as (g2 & Hst & ->).
    apply startup_throw in Hst as [-> _].
    apply bind_throw_inv in Hd as [Hd|([] & c4 & Hdel & [= <- <-])].
    { apply on_globals_throw_inv in Hd as (g3 & Hd & _).
      by apply no_throw_delete_report_host in Hd. }
    apply on_globals_ret_inv in Hdel as (g3 & Hdel & ->).
    apply delete_report_host_ret in Hdel as [_ Hdel]. simpl in *. by rewrite Hdel. }
  apply bind_throw_inv in Hd as [Hd|([] & c4 & _ & Hd)]; [|done].
  destruct (report_hosts_ c !! report_name report); [|done].
  apply on_globals_throw_inv in Hd as (g3 & Hd & _).
  by apply no_throw_delete_report_host in Hd.
Qed.


Lemma add_report_ret report c c' :
  control_dispatch (coordinator_request___add_report_t report) c = Ret tt c' →
  ∃ h', report_hosts_ c !! report_name report = None
    ∧ report_hosts_ c' = <[report_name report := h']> (report_hosts_ c)
    ∧ threads (globals_ c') = threads (globals_ c) ++ [Running]
    ∧ conf_ h' = rh_conf (nn_report_output_buffer (coordinator_conf_ c))
                   (size (report_hosts_ c)) (report_name report)
    ∧ t_ h' = Some (length (threads (globals_ c)))
    ∧ is_Some (ticker_chan_ h') ∧ is_Some (report_ h')
    ∧ coordinator_conf_ c' = coordinator_conf_ c
    ∧ poller_shutdown_flag c' = poller_shutdown_flag c.
Proof.
  unfold control_dispatch. intros Hd.
  apply bind_ret_inv in Hd as (hosts & c2 & [= <- <-] & Hd).
  apply bind_ret_inv in Hd as (conf & c2 & [= <- <-] & Hd).
  apply bind_ret_inv in Hd as (rh & c2 & Hnew & Hd).
  apply on_globals_ret_inv in Hnew as (g & Hnew & ->).
  pose proof (new_report_host_threads
                (rh_conf (nn_report_output_buffer (coordinator_conf_ c))
                   (size (report_hosts_ c)) (report_name report)) (globals_ c)) as Ht.
  rewrite Hnew in Ht. simpl in Ht.
  destruct (new_report_host_cases
              (rh_conf (nn_report_output_buffer (coordinator_conf_ c))
                 (size (report_hosts_ c)) (report_name report)) (globals_ c))
    as [[e Hc]|[Hc _]]; rewrite Hc in Hnew; [done|]. injection Hnew as <- _.
  apply bind_ret_inv in Hd as (rh' & c3 & Hst & Hd).
  apply try_catch_ret_inv in Hst as [Hst|(e & c4 & _ & Hst)]; last first.
  { by apply bind_ret_inv in Hst as (? & ? & _ & ?). }
  apply on_globals_ret_inv in Hst as (g2 & Hst & ->).
  apply startup_ret in Hst as (Hconf & Htid & Hthr & Hchan & Hrep). simpl in *.
  apply bind_ret_inv in Hd as ([] & c4 & Hem & Hd).
  apply control_send_ret in Hd as ->.
  destruct (report_hosts_ c !! report_name report) eqn:Hk.
  { apply on_globals_ret_inv in Hem as (g3 & Hdel & _).
    apply delete_report_host_ret in Hdel as [Hdel _]. congruence. }
  injection Hem as <-. exists rh'. simpl. rewrite Hthr, Ht, Htid, Ht.
  split_and!; done.
Qed.

(** *** The other requests, case by case *)

Lemma delete_report_no_throw k : no_throw (control_dispatch (coordinator_request___delete_report_t k)).
Proof.
  unfold control_dispatch. apply no_throw_bind; [done|intros hosts].
  destruct (hosts !! k) as [h|]; [|by apply no_throw_on_globals].
  apply no_throw_bind; [apply no_throw_on_globals, no_throw_shutdown|intros h'].
  apply no_throw_bind; [done|intros []].
  apply no_throw_bind; [apply no_throw_on_globals, no_throw_delete_report_host|intros []].
  by apply no_throw_on_globals.
Qed.

Lemma get_report_snapshot_no_throw k :
  no_throw (control_dispatch (coordinator_request___get_report_snapshot_t k)).
Proof.
  unfold control_dispatch. apply no_throw_bind; [done|intros hosts].
  destruct (hosts !! k) as [h|]; [|by apply no_throw_on_globals].
  apply no_throw_bind; [apply no_throw_on_globals, no_throw_call_with_report|intros r].
  apply no_throw_bind; [done|intros []]. by apply no_throw_on_globals.
Qed.

Lemma shutdown_request_no_throw : no_throw (control_dispatch coordinator_request___shutdown_t).
Proof.
  unfold control_dispatch, for_each_report_host.
  apply no_throw_bind; [|intros []].
  - apply no_throw_bind; [done|intros hosts].
    apply no_throw_for_hosts, no_throw_shutdown.
  - apply no_throw_bind; [done|intros []]. by apply no_throw_on_globals.
Qed.

Lemma delete_report_ret k c c' :
  control_dispatch (coordinator_request___delete_report_t k) c = Ret tt c' →
  coordinator_conf_ c' = coordinator_conf_ c
  ∧ (report_hosts_ c !! k = None
     ∧ report_hosts_ c' = report_hosts_ c
     ∧ threads (globals_ c') = threads (globals_ c)
     ∨ ∃ h tid, report_hosts_ c !! k = Some h ∧ t_ h = Some tid
         ∧ threads (globals_ c) !! tid = Some Running
         ∧ report_hosts_ c' = delete k (report_hosts_ c)
         ∧ threads (globals_ c') = <[tid := Exited]> (threads (globals_ c))).
Proof.
  unfold control_dispatch. intros Hd.
  apply bind_ret_inv in Hd as (hosts & c2 & [= <- <-] & Hd).
  destruct (report_hosts_ c !! k) as [h|] eqn:Hk.
  - apply bind_ret_inv in Hd as (h' & c2 & Hsh & Hd).
    apply on_globals_ret_inv in Hsh as (g & Hsh & ->).
    apply shutdown_ret in Hsh as (tid & Ht & Hrun & -> & Hthr).
    apply bind_ret_inv in Hd as ([] & c3 & [= <-] & Hd).
    apply bind_ret_inv in Hd as ([] & c4 & Hdel & Hd).
    apply on_globals_ret_inv in Hdel as (g2 & Hdel & ->).
    apply delete_report_host_ret in Hdel as [_ Hdel].
    apply control_send_ret in Hd as ->. simpl in *.
    split; [done|]. right. exists h, tid. by rewrite Hdel, Hthr.
  - apply control_send_ret in Hd as ->. split; [done|]. by left.
Qed.

Lemma same_thread_refl h : same_thread h h.
Proof. by repeat split. Qed.

Lemma call_with_report_ret {A} (func : report_host_call_func_t A) h g r g' :
  call_with_report func h g = Ret r g' → g' = g ∧ same_thread h r.1.
Proof.
  Transparent call_with_report.
  unfold call_with_report, worker_reqrep. mstep.
  destruct (worker_running h g); [|done].
  destruct (report_ h) as [rep|] eqn:Hrep; [|done].
  destruct (func rep) as [[rep' a]|]; [|done].
  intros [= <- <-]. split; [done|]. simpl. repeat split; simpl; eauto.
  Opaque call_with_report.
Qed.

Lemma get_report_snapshot_ret k c c' :
  control_dispatch (coordinator_request___get_report_snapshot_t k) c = Ret tt c' →
  coordinator_conf_ c' = coordinator_conf_ c
  ∧ threads (globals_ c') = threads (globals_ c)
  ∧ (report_hosts_ c' = report_hosts_ c
     ∨ ∃ h h', report_hosts_ c !! k = Some h ∧ same_thread h h'
               ∧ report_hosts_ c' = <[k := h']> (report_hosts_ c)).
Proof.
  unfold control_dispatch. intros Hd.
  apply bind_ret_inv in Hd as (hosts & c2 & [= <- <-] & Hd).
  destruct (report_hosts_ c !! k) as [h|] eqn:Hk.
  - apply bind_ret_inv in Hd as (r & c2 & Hcall & Hd).
    apply on_globals_ret_inv in Hcall as (g & Hcall & ->).
    apply call_with_report_ret in Hcall as [-> Hsame].
    apply bind_ret_inv in Hd as ([] & c3 & [= <-] & Hd).
    apply control_send_ret in Hd as ->. simpl.
    split_and!; [done..|]. right. eauto.
  - apply control_send_ret in Hd as ->. split_and!; [done..|]. by left.
Qed.

Lemma control_dispatch_throw_frame req c e c1 :
  control_dispatch req c = Throw e c1 →
  report_hosts_ c1 = report_hosts_ c
  ∧ threads (globals_ c1) = threads (globals_ c)
  ∧ coordinator_conf_ c1 = coordinator_conf_ c.
Proof.
  destruct req as [func| |report|k|k|type]; intros Hd.
  - unfold control_dispatch in Hd.
    apply bind_throw_inv in Hd as [Hd|(this & c2 & [= <- <-] & Hd)]; [done|].
    destruct (func c); [done|]. by injection Hd as _ <-.
  - by apply shutdown_request_no_throw in Hd.
  - by apply add_report_throw in Hd.
  - by apply delete_report_no_throw in Hd.
  - by apply get_report_snapshot_no_throw in Hd.
  - by injection Hd as _ <-.
Qed.



(** *** The invariant is kept *)

Lemma running_invariant_same_thread c c' :
  running_invariant c →
  coordinator_conf_ c' = coordinator_conf_ c →
  threads (globals_ c') = threads (globals_ c) →
  (∀ k, match report_hosts_ c !! k, report_hosts_ c' !! k with
        | Some h, Some h' => same_thread h h'
        | None, None => True
        | _, _ => False
        end) →
  running_invariant c'.
Proof.
  intros [Hhost Hinj Hown] Hconf Hthr Hsame. split.
  - intros k h' Hk'. specialize (Hsame k). rewrite Hk' in Hsame.
    destruct (report_hosts_ c !! k) as [h|] eqn:Hk; [|done].
    destruct Hsame as (Hc & Ht & Hchan & Hrep).
    destruct (Hhost k h Hk) as (i & tid & ? & ? & ? & ? & ?).
    exists i, tid. rewrite Hconf, Hthr, Hc, Ht. eauto 10.
  - intros k1 k2 h1' h2' tid Hk1 Hk2 Ht1 Ht2.
    pose proof (Hsame k1) as H1. pose proof (Hsame k2) as H2.
    rewrite Hk1 in H1. rewrite Hk2 in H2.
    destruct (report_hosts_ c !! k1) as [h1|] eqn:Hk1'; [|done].
    destruct (report_hosts_ c !! k2) as [h2|] eqn:Hk2'; [|done].
    destruct H1 as (_ & Ht1' & _). destruct H2 as (_ & Ht2' & _).
    eapply (Hinj k1 k2 h1 h2 tid); congruence.
  - intros tid Hrun. rewrite Hthr in Hrun.
    destruct (Hown tid Hrun) as (k & h & Hk & Ht).
    specialize (Hsame k). rewrite Hk in Hsame.
    destruct (report_hosts_ c' !! k) as [h'|] eqn:Hk'; [|done].
    destruct Hsame as (_ & Ht' & _). exists k, h'. split; congruence.
Qed.

Lemma running_invariant_frame c c' :
  running_invariant c →
  coordinator_conf_ c' = coordinator_conf_ c →
  threads (globals_ c') = threads (globals_ c) →
  report_hosts_ c' = report_hosts_ c →
  running_invariant c'.
Proof.
  intros Hinv Hconf Hthr Hhosts.
  apply (running_invariant_same_thread c); [done..|].
  intros k. rewrite Hhosts. destruct (report_hosts_ c !! k); [apply same_thread_refl|done].
Qed.

Lemma running_invariant_insert c c' k h h' :
  running_invariant c →
  coordinator_conf_ c' = coordinator_conf_ c →
  threads (globals_ c') = threads (globals_ c) →
  report_hosts_ c !! k = Some h → same_thread h h' →
  report_hosts_ c' = <[k := h']> (report_hosts_ c) →
  running_invariant c'.
Proof.
  intros Hinv Hconf Hthr Hk Hsame Hhosts.
  apply (running_invariant_same_thread c); [done..|].
  intros k'. rewrite Hhosts. destruct (decide (k = k')) as [<-|Hne].
  - by rewrite lookup_insert_eq, Hk.
  - rewrite lookup_insert_ne by done.
    destruct (report_hosts_ c !! k'); [apply same_thread_refl|done].
Qed.

Lemma running_invariant_fmap c c' (φ : report_host___new_thread_t → report_host___new_thread_t) :
  running_invariant c →
  coordinator_conf_ c' = coordinator_conf_ c →
  threads (globals_ c') = threads (globals_ c) →
  (∀ h, same_thread h (φ h)) →
  report_hosts_ c' = φ <$> report_hosts_ c →
  running_invariant c'.
Proof.
  intros Hinv Hconf Hthr Hsame Hhosts.
  apply (running_invariant_same_thread c); [done..|].
  intros k. rewrite Hhosts, lookup_fmap.
  destruct (report_hosts_ c !! k); simpl; [apply Hsame|done].
Qed.

Lemma running_invariant_add c c' k h' :
  running_invariant c →
  coordinator_conf_ c' = coordinator_conf_ c →
  report_hosts_ c !! k = None →
  report_hosts_ c' = <[k := h']> (report_hosts_ c) →
  threads (globals_ c') = threads (globals_ c) ++ [Running] →
  (∃ i, conf_ h' = rh_conf (nn_report_output_buffer (coordinator_conf_ c)) i k) →
  t_ h' = Some (length (threads (globals_ c))) →
  is_Some (ticker_chan_ h') → is_Some (report_ h') →
  running_invariant c'.
Proof.
  intros [Hhost Hinj Hown] Hconf Hk Hhosts Hthr [i Hc] Ht Hchan Hrep.
  assert (Hold : ∀ k0 h0 tid, report_hosts_ c !! k0 = Some h0 → t_ h0 = Some tid →
                   (tid < length (threads (globals_ c)))%nat).
  { intros k0 h0 tid Hk0 Ht0.
    destruct (Hhost k0 h0 Hk0) as (_ & tid' & _ & Ht' & Hrun & _).
    assert (tid' = tid) as -> by congruence. by eapply lookup_lt_Some. }
  split.
  - intros k0 h0. rewrite Hhosts, Hconf, Hthr.
    destruct (decide (k = k0)) as [<-|Hne].
    + rewrite lookup_insert_eq. intros [= <-].
      exists i, (length (threads (globals_ c))). split_and!; try done.
      by rewrite lookup_app_r, Nat.sub_diag.
    + rewrite lookup_insert_ne by done. intros Hk0.
      destruct (Hhost k0 h0 Hk0) as (i0 & tid & ? & ? & Hrun & ? & ?).
      exists i0, tid. split_and!; try done.
      by apply lookup_app_l_Some.
  - intros k1 k2 h1 h2 tid. rewrite Hhosts.
    destruct (decide (k = k1)) as [<-|Hne1], (decide (k = k2)) as [<-|Hne2];
      rewrite ?lookup_insert_eq, ?lookup_insert_ne by done; try done.
    + intros [= <-] Hk2 Ht1 Ht2. pose proof (Hold k2 h2 tid Hk2 Ht2).
      assert (tid = length (threads (globals_ c))) by congruence. lia.
    + intros Hk1 [= <-] Ht1 Ht2. pose proof (Hold k1 h1 tid Hk1 Ht1).
      assert (tid = length (threads (globals_ c))) by congruence. lia.
    + apply Hinj.
  - intros tid. rewrite Hthr, Hhosts. intros Hrun.
    destruct (decide (tid < length (threads (globals_ c)))%nat) as [Hlt|Hge].
    + rewrite lookup_app_l in Hrun by done.
      destruct (Hown tid Hrun) as (k0 & h0 & Hk0 & Ht0).
      exists k0, h0. split; [|done]. rewrite lookup_insert_ne; [done|]. congruence.
    + exists k, h'. rewrite lookup_insert_eq. split; [done|].
      apply lookup_lt_Some in Hrun. rewrite length_app in Hrun. simpl in Hrun.
      rewrite Ht. f_equal. lia.
Qed.

Lemma running_invariant_delete c c' k h tid :
  running_invariant c →
  coordinator_conf_ c' = coordinator_conf_ c →
  report_hosts_ c !! k = Some h → t_ h = Some tid →
  report_hosts_ c' = delete k (report_hosts_ c) →
  threads (globals_ c') = <[tid := Exited]> (threads (globals_ c)) →
  running_invariant c'.
Proof.
  intros [Hhost Hinj Hown] Hconf Hk Ht Hhosts Hthr. split.
  - intros k0 h0. rewrite Hhosts, Hconf, Hthr.
    intros [Hne Hk0]%lookup_delete_Some.
    destruct (Hhost k0 h0 Hk0) as (i0 & tid0 & ? & Ht0 & Hrun & ? & ?).
    exists i0, tid0. split_and!; try done.
    rewrite list_lookup_insert_ne; [done|]. intros <-.
    destruct Hne. by apply (Hinj k k0 h h0 tid).
  - intros k1 k2 h1 h2 tid0. rewrite Hhosts.
    intros [_ Hk1]%lookup_delete_Some [_ Hk2]%lookup_delete_Some. by apply Hinj.
  - intros tid0. rewrite Hthr, Hhosts. intros Hrun.
    destruct (decide (tid = tid0)) as [<-|Hne].
    { apply list_lookup_insert_Some in Hrun as [(_ & ? & _)|[? _]]; done. }
    rewrite list_lookup_insert_ne in Hrun by done.
    destruct (Hown tid0 Hrun) as (k0 & h0 & Hk0 & Ht0).
    exists k0, h0. split; [|done]. apply lookup_delete_Some. split; [|done].
    intros <-. congruence.
Qed.

Lemma call_request_ret func c c' :
  control_dispatch (coordinator_request___call_t func) c = Ret tt c' → c' = replied ok_response c.
Proof.
  unfold control_dispatch. intros Hd.
  apply bind_ret_inv in Hd as (this & c2 & [= <- <-] & Hd).
  destruct (func c); [|done]. by apply control_send_ret in Hd.
Qed.

Lemma shutdown_request_ret c c' :
  control_dispatch coordinator_request___shutdown_t c = Ret tt c' →
  poller_shutdown_flag c' = true.
Proof.
  unfold control_dispatch. intros Hd.
  apply bind_ret_inv in Hd as ([] & c1 & _ & Hd).
  apply bind_ret_inv in Hd as ([] & c2 & [= <-] & Hd).
  by apply control_send_ret in Hd as ->.
Qed.

Lemma same_thread_send_message batch h : same_thread h (send_message_dontwait batch h).1.
Proof. unfold send_message_dontwait. case_decide; by repeat split. Qed.

Lemma on_control_sock_invariant req c c' :
  running_invariant c →
  on_control_sock req c = Ret tt c' →
  poller_shutdown_flag c' = false →
  running_invariant c'.
Proof.
  intros Hinv Hh Hflag.
  apply on_control_sock_ret_inv in Hh as [Hd|(message & c1 & Hd & ->)].
  - destruct req as [func| |report|k|k|type].
    + apply call_request_ret in Hd as ->. by apply (running_invariant_frame c).
    + apply shutdown_request_ret in Hd. congruence.
    + apply add_report_ret in Hd as (h' & ? & ? & ? & ? & ? & ? & ? & ? & ?).
      eapply (running_invariant_add c); eauto.
    + apply delete_report_ret in Hd as [? [(? & ? & ?)|(h & tid & ? & ? & ? & ? & ?)]].
      * by apply (running_invariant_frame c).
      * by eapply (running_invariant_delete c).
    + apply get_report_snapshot_ret in Hd as (? & ? & [?|(h & h' & ? & ? & ?)]).
      * by apply (running_invariant_frame c).
      * by eapply (running_invariant_insert c).
    + done.
  - apply control_dispatch_throw_frame in Hd as (? & ? & ?).
    by apply (running_invariant_frame c).
Qed.

Lemma on_in_sock_invariant batch c c' :
  running_invariant c → on_in_sock batch c = Ret tt c' → running_invariant c'.
Proof.
  intros Hinv. unfold on_in_sock, for_each_report_host, bind, gets.
  rewrite for_hosts_process_batch. intros [= <-].
  apply (running_invariant_fmap c _ (λ h, (send_message_dontwait batch h).1));
    [done..|apply same_thread_send_message|].
  apply (foldl_insert_map_to_list (λ h, (send_message_dontwait batch h).1)).
Qed.

Lemma on_in_sock_flag batch c c' :
  on_in_sock batch c = Ret tt c' → poller_shutdown_flag c' = poller_shutdown_flag c.
Proof.
  unfold on_in_sock, for_each_report_host, bind, gets.
  rewrite for_hosts_process_batch. by intros [= <-].
Qed.

Lemma poller_handle_invariant ev c c' :
  running_invariant c →
  poller_handle ev c = Ret tt c' →
  poller_shutdown_flag c' = false →
  running_invariant c'.
Proof.
  intros Hinv Hh Hflag. apply (running_invariant_at_time (poller_now ev)) in Hinv.
  destruct ev as [now|now batch|now req].
  - injection Hh as <-. done.
  - by apply (on_in_sock_invariant batch (at_time now c)).
  - by apply (on_control_sock_invariant req (at_time now c)).
Qed.

Lemma worker_tick_ret now h g h' g' :
  worker_tick now h g = Ret h' g' → g' = g ∧ same_thread h h'.
Proof.
  unfold worker_tick. destruct (report_ h) as [r|] eqn:Hr; [|done].
  destruct (tick_now now r); [|done]. intros [= <- <-].
  split; [done|]. repeat split; simpl; eauto.
Qed.

Lemma worker_packets_ret now h g h' g' :
  worker_packets now h g = Ret h' g' → g' = g ∧ same_thread h h'.
Proof.
  unfold worker_packets. destruct (packets_sock_ h) as [|batch q].
  { intros [= <- <-]. split; [done|apply same_thread_refl]. }
  mstep. destruct (batches g !! batch) as [b|]; [|done].
  destruct (report_ h) as [r|] eqn:Hr; [|done].
  destruct (add_multi _ _ _); [|done]. intros [= <- <-].
  split; [done|]. repeat split; simpl; eauto.
Qed.

Lemma host_poll_ret k ev c c' :
  host_poll k ev c = Ret tt c' →
  coordinator_conf_ c' = coordinator_conf_ c
  ∧ poller_shutdown_flag c' = poller_shutdown_flag c
  ∧ globals_ c' = globals_ c
  ∧ (report_hosts_ c' = report_hosts_ c
     ∨ ∃ h h', report_hosts_ c !! k = Some h ∧ same_thread h h'
               ∧ report_hosts_ c' = <[k := h']> (report_hosts_ c)).
Proof.
  unfold host_poll. intros Hd.
  apply bind_ret_inv in Hd as (hosts & c2 & [= <- <-] & Hd).
  apply bind_ret_inv in Hd as (g & c2 & [= <- <-] & Hd).
  destruct (report_hosts_ c !! k) as [h|] eqn:Hk; [|injection Hd as <-; eauto 10].
  destruct (worker_running h (globals_ c)); [|injection Hd as <-; eauto 10].
  apply bind_ret_inv in Hd as (h' & c2 & Hw & [= <-]).
  apply on_globals_ret_inv in Hw as (g & Hw & ->).
  assert (g = globals_ c ∧ same_thread h h') as [-> Hsame].
  { destruct ev; [by eapply worker_tick_ret|by eapply worker_packets_ret]. }
  simpl. split_and!; [done..|]. right. eauto.
Qed.

Lemma host_poll_invariant k ev c c' :
  running_invariant c → host_poll k ev c = Ret tt c' → running_invariant c'.
Proof.
  intros Hinv (? & ? & Hg & [?|(h & h' & ? & ? & ?)])%host_poll_ret.
  - apply (running_invariant_frame c); [done..|by rewrite Hg|done].
  - eapply (running_invariant_insert c); [done|done|by rewrite Hg|done|done|done].
Qed.

Lemma process_run_flag evs c c' :
  process_run evs c = Ret tt c' →
  poller_shutdown_flag c = true → poller_shutdown_flag c' = true.
Proof.
  revert c. induction evs as [|[ev|k ev] evs IH]; intros c Hrun Hflag; simpl in Hrun.
  - by injection Hrun as <-.
  - unfold bind at 1, gets in Hrun. rewrite Hflag in Hrun. by apply (IH c).
  - apply bind_ret_inv in Hrun as ([] & c1 & Hp & Hrun).
    apply (IH c1); [done|]. apply host_poll_ret in Hp as (_ & -> & _). done.
Qed.

(** The invariant holds as long as no [SHUTDOWN] has been handled. *)
Lemma process_run_invariant evs c c' :
  running_invariant c →
  process_run evs c = Ret tt c' →
  poller_shutdown_flag c' = false →
  running_invariant c'.
Proof.
  revert c. induction evs as [|[ev|k ev] evs IH]; intros c Hinv Hrun Hflag; simpl in Hrun.
  - by injection Hrun as <-.
  - unfold bind at 1, gets in Hrun.
    destruct (poller_shutdown_flag c) eqn:Hc.
    { apply process_run_flag in Hrun; [congruence|done]. }
    apply bind_ret_inv in Hrun as ([] & c1 & Hh & Hrun).
    apply (IH c1); [|done..].
    apply (poller_handle_invariant ev c); [done..|].
    destruct (poller_shutdown_flag c1) eqn:Hc1; [|done].
    apply process_run_flag in Hrun; [congruence|done].
  - apply bind_ret_inv in Hrun as ([] & c1 & Hp & Hrun).
    apply (IH c1); [|done..]. by apply (host_poll_invariant k ev c).
Qed.

(** The constructor builds such a coordinator when no host thread exists. *)
Lemma create_coordinator_fresh conf g c g' :
  threads g = [] → create_coordinator conf g = Ret c g' → fresh_coordinator c.
Proof.
  intros Hthr. unfold create_coordinator, nmsg_bind, nmsg_close. mstep.
  case_decide; [done|]. simpl. case_decide; [done|]. simpl.
  intros [= <- _]. by repeat split.
Qed.

Lemma fresh_coordinator_invariant c : fresh_coordinator c → running_invariant c.
Proof.
  intros (Hhosts & _ & Hthr). split.
  - intros k h. by rewrite Hhosts, lookup_empty.
  - intros k1 k2 h1 h2 tid. by rewrite Hhosts, lookup_empty.
  - intros tid. by rewrite Hthr.
Qed.

(** [C4] In any state the process reaches while the coordinator's loop runs,
    the [SHUTDOWN] handler calls [shutdown()] on every host of the registry:
    each call makes the host's thread leave its loop, unsubscribe and end, and
    returns from [t_.join()]; only after the last of them is the OK reply
    sent.  Then every thread that was ever started for a host has ended (the
    hosts deleted earlier were joined when they were deleted), no host of the
    registry has a joinable thread, the loop ends without handling another
    event, and [worker_thread] unsubscribes its own tick channel. *)
Theorem shutdown_joins_every_host c0 evs c now rest tick_chan :
  fresh_coordinator c0 →
  process_run evs c0 = Ret tt c →
  poller_shutdown_flag c = false →
  ∃ c' c'',
    on_control_sock coordinator_request___shutdown_t (at_time now c) = Ret tt c'
    ∧ trace (globals_ c')
      = trace (globals_ c)
        ++ ((map_to_list (report_hosts_ c)).*2 ≫= shutdown_events)
        ++ [EvControlSend ok_response]
    ∧ (∀ k h, report_hosts_ c !! k = Some h →
         ∃ tid chan, threads (globals_ c) !! tid = Some Running
           ∧ shutdown_events h
             = [EvHostShutdown (name (conf_ h)); EvUnsubscribe (chan_name chan);
                EvThreadJoin (name (conf_ h)) tid])
    ∧ (∀ tid st, threads (globals_ c') !! tid = Some st → st = Exited)
    ∧ report_hosts_ c' = set_t_ None <$> report_hosts_ c
    ∧ poller_shutdown_flag c' = true
    ∧ worker_thread_rest tick_chan
        (control_sock_readable now coordinator_request___shutdown_t :: rest) c
      = Ret tt c''
    ∧ trace (globals_ c'') = trace (globals_ c') ++ [EvUnsubscribe (chan_name tick_chan)]
    ∧ threads (globals_ c'') = threads (globals_ c')
    ∧ report_hosts_ c'' = report_hosts_ c'.
Proof.
  intros Hfresh Hrun Hflag.
  assert (Hinv : running_invariant c).
  { eapply process_run_invariant; [by apply fresh_coordinator_invariant|done..]. }
  destruct (shutdown_request_joins_every_host (at_time now c))
    as (c1 & _ & Hd & Htr & Hthr & Hhosts); [by apply running_invariant_at_time|].
  set (c' := replied ok_response (set_shutdown_flag c1)) in *.
  assert (Hh : on_control_sock coordinator_request___shutdown_t (at_time now c) = Ret tt c').
  { unfold on_control_sock, try_catch. by rewrite Hd. }
  exists c', (final_state (on_globals (unsubscribe tick_chan) c')).
  split_and!; [done| | |done|done|done| |done..].
  - simpl. rewrite Htr. by rewrite <-app_assoc.
  - intros k h Hk. destruct Hinv as [Hhost _ _].
    destruct (Hhost k h Hk) as (i & tid & _ & Ht & Hrunning & [chan Hchan] & _).
    exists tid, chan. split; [done|]. unfold shutdown_events. by rewrite Ht, Hchan.
  - unfold worker_thread_rest, bind at 1. simpl. unfold bind at 1.
    change (poller_handle _ c)
      with (on_control_sock coordinator_request___shutdown_t (at_time now c)).
    rewrite Hh. reflexivity.
Qed.

(** *** The name scheme is injective *)

Lemma string_app_cons a s t : String a s +:+ t = String a (s +:+ t).
Proof. reflexivity. Qed.

Lemma pretty_N_char_no_slash x : pretty_N_char x ≠ "/"%char.
Proof. unfold pretty_N_char. by repeat case_match. Qed.

Lemma pretty_N_go_no_slash x s : no_slash s → no_slash (pretty_N_go x s).
Proof.
  revert s. induction (N.lt_wf_0 x) as [x _ IH]; intros s Hs.
  destruct (decide (x = 0)%N) as [->|Hx]; [by rewrite pretty_N_go_0|].
  rewrite pretty_N_go_step by lia. apply IH.
  - apply N.div_lt; lia.
  - split; [apply pretty_N_char_no_slash|done].
Qed.

Lemma pretty_nat_no_slash (n : nat) : no_slash (pretty n).
Proof.
  unfold pretty, pretty_nat, pretty, pretty_N.
  case_decide; [by split|]. by apply pretty_N_go_no_slash.
Qed.

Lemma no_slash_split s1 s2 a b :
  no_slash s1 → no_slash s2 →
  s1 +:+ String "/" a = s2 +:+ String "/" b → s1 = s2 ∧ a = b.
Proof.
  revert s2. induction s1 as [|x s1 IH]; intros [|y s2] H1 H2 Heq.
  - by injection Heq as ->.
  - rewrite string_app_cons in Heq. destruct H2 as [H2 _]. by injection Heq as <- _.
  - rewrite string_app_cons in Heq. destruct H1 as [H1 _]. by injection Heq as -> _.
  - rewrite !string_app_cons in Heq. injection Heq as -> Heq.
    destruct H1 as [_ H1], H2 as [_ H2].
    destruct (IH s2 H1 H2 Heq) as [-> ->]. done.
Qed.

Lemma rh_name_inj (i j : nat) k1 k2 :
  "rh/" +:+ pretty i +:+ "/" +:+ k1 = "rh/" +:+ pretty j +:+ "/" +:+ k2 →
  i = j ∧ k1 = k2.
Proof.
  intros Heq%(inj (String.app "rh/")).
  apply (no_slash_split (pretty i) (pretty j) k1 k2) in Heq as [Hij ->];
    [|apply pretty_nat_no_slash..].
  split; [|done]. by apply (inj pretty).
Qed.

#[local] Abbreviation chars := Stdlib.Strings.String.list_ascii_of_string.

Lemma chars_app a b :
  chars (a +:+ b) = chars a ++ chars b.
Proof.
  induction a as [|x a IH]; [done|].
  rewrite string_app_cons. simpl. by rewrite IH.
Qed.

Lemma chars_inj a b : chars a = chars b → a = b.
Proof.
  intros Heq. rewrite <-(Stdlib.Strings.String.string_of_list_ascii_of_string a), Heq.
  apply Stdlib.Strings.String.string_of_list_ascii_of_string.
Qed.

Lemma string_app_inv_tail a b s : a +:+ s = b +:+ s → a = b.
Proof.
  intros Heq. apply chars_inj. apply (app_inv_tail (chars s)).
  by rewrite <-!chars_app, Heq.
Qed.

Lemma string_app_last a b s t :
  a +:+ s = b +:+ t →
  is_Some (last (chars s)) →
  is_Some (last (chars t)) →
  last (chars s) = last (chars t).
Proof.
  intros Heq [x Hx] [y Hy].
  assert (Hl : last (chars (a +:+ s)) = last (chars (b +:+ t)))
    by (by rewrite Heq).
  rewrite !chars_app, !last_app, Hx, Hy in Hl. by rewrite Hx, Hy.
Qed.

(** Hosts with different names bind different addresses. *)
Lemma endpoints_disjoint buffer i j k1 k2 e :
  k1 ≠ k2 →
  e ∈ [nn_packets (rh_conf buffer i k1); nn_reqrep (rh_conf buffer i k1);
       nn_shutdown (rh_conf buffer i k1)] →
  e ∈ [nn_packets (rh_conf buffer j k2); nn_reqrep (rh_conf buffer j k2);
       nn_shutdown (rh_conf buffer j k2)] →
  False.
Proof.
  intros Hne H1 H2. unfold rh_conf in *. simpl in *.
  set (n1 := "rh/" +:+ pretty i +:+ "/" +:+ k1) in *.
  set (n2 := "rh/" +:+ pretty j +:+ "/" +:+ k2) in *.
  assert (Hn : n1 ≠ n2) by (by intros [_ ?]%rh_name_inj).
  clearbody n1 n2.
  repeat (apply elem_of_cons in H1 as [->|H1]); [| | |by apply elem_of_nil in H1];
    repeat (apply elem_of_cons in H2 as [H2|H2]); try (by apply elem_of_nil in H2);
    apply (inj (String.app "inproc://")) in H2;
    first [ by apply string_app_inv_tail in H2
          | apply string_app_last in H2; [discriminate H2|by eexists..] ].
Qed.

(** [C8] (amended) The index in a host's name is the number of hosts in the
    registry when [ADD_REPORT] is handled: the new host is named
    "rh/<size>/<report-name>" and its thread "rh/<size>".  The addresses of a
    host are its name between "inproc://" and "/control", "/shutdown" or
    "/packets".  In every state the process reaches while the coordinator's
    loop runs, two hosts of the registry differ in their names and share no
    address. *)
Theorem host_names_follow_registry_size c0 evs c :
  fresh_coordinator c0 →
  process_run evs c0 = Ret tt c →
  poller_shutdown_flag c = false →
  (∀ report c',
     control_dispatch (coordinator_request___add_report_t report) c = Ret tt c' →
     ∃ h', report_hosts_ c' = <[report_name report := h']> (report_hosts_ c)
       ∧ name (conf_ h')
         = "rh/" +:+ pretty (size (report_hosts_ c)) +:+ "/" +:+ report_name report
       ∧ thread_name (conf_ h') = "rh/" +:+ pretty (size (report_hosts_ c)))
  ∧ (∀ k h, report_hosts_ c !! k = Some h →
       (∃ i : nat, name (conf_ h) = "rh/" +:+ pretty i +:+ "/" +:+ k)
       ∧ nn_reqrep (conf_ h) = "inproc://" +:+ name (conf_ h) +:+ "/control"
       ∧ nn_shutdown (conf_ h) = "inproc://" +:+ name (conf_ h) +:+ "/shutdown"
       ∧ nn_packets (conf_ h) = "inproc://" +:+ name (conf_ h) +:+ "/packets")
  ∧ (∀ k1 k2 h1 h2,
       report_hosts_ c !! k1 = Some h1 → report_hosts_ c !! k2 = Some h2 → k1 ≠ k2 →
       name (conf_ h1) ≠ name (conf_ h2)
       ∧ ∀ e, e ∈ endpoints h1 → e ∉ endpoints h2).
Proof.
  intros Hfresh Hrun Hflag.
  assert (Hinv : running_invariant c).
  { eapply process_run_invariant; [by apply fresh_coordinator_invariant|done..]. }
  destruct Hinv as [Hhost _ _]. split_and!.
  - intros report c' (h' & _ & Hhosts & _ & Hconf & _)%add_report_ret.
    exists h'. by rewrite Hconf.
  - intros k h Hk. destruct (Hhost k h Hk) as (i & tid & -> & _).
    split_and!; [by exists i|done..].
  - intros k1 k2 h1 h2 Hk1 Hk2 Hne.
    destruct (Hhost k1 h1 Hk1) as (i & ? & Hc1 & _).
    destruct (Hhost k2 h2 Hk2) as (j & ? & Hc2 & _).
    unfold endpoints. rewrite Hc1, Hc2. split.
    + by intros [_ ?]%rh_name_inj.
    + intros e H1 H2. by eapply endpoints_disjoint.
Qed.

(** [C5] What [process_batch] does, whatever the state of the queue: it
    returns (it neither throws nor waits), and the packet counter of the host
    is as before.  With room in the queue the pointer is appended; with the
    queue full the batch is dropped and the host is left exactly as it was, so
    nothing records the drop. *)
Theorem process_batch_drops_without_counting batch h g :
  ∃ h', process_batch batch h g
        = Ret h' (set_trace (λ t, t ++ [EvProcessBatch (name (conf_ h)) batch]) g)
    ∧ packets_received h' = packets_received h
    ∧ ((length (packets_sock_ h) < nn_packets_buffer (conf_ h))%nat →
       h' = set_packets_sock_ (packets_sock_ h ++ [batch]) h)
    ∧ ((nn_packets_buffer (conf_ h) ≤ length (packets_sock_ h))%nat → h' = h).
Proof.
  rewrite process_batch_eq. eexists. split; [done|].
  unfold send_message_dontwait. case_decide; simpl; split_and!; try done; lia.
Qed.

(** [C6] A [GET_REPORT_SNAPSHOT] for a host whose report raises in
    [get_snapshot]: the exception leaves the host's thread, which ends the
    process; the coordinator has sent no response. *)
Theorem snapshot_exception_ends_the_process c k h r e :
  report_hosts_ c !! k = Some h →
  worker_running h (globals_ c) = true →
  report_ h = Some r →
  get_snapshot r = Raise e →
  on_control_sock (coordinator_request___get_report_snapshot_t k) c = Fatal StdTerminate c.
Proof.
  Transparent call_with_report.
  intros Hk Hrun Hr Hsnap.
  unfold on_control_sock, control_dispatch, call_with_report, worker_reqrep, get_snapshot_func.
  mstep. rewrite Hk. simpl. rewrite Hrun, Hr, Hsnap. by destruct c.
  Opaque call_with_report.
Qed.

Lemma startup_ret_responses report h g h' g' :
  startup report h g = Ret h' g' → responses (trace g') = responses (trace g).
Proof.
  Transparent startup.
  unfold startup, duration_div, subscribe, thread_spawn. mstep.
  destruct (report_ h); [done|].
  case_decide; [done|]. simpl.
  destruct (ticker g !! name (conf_ h)); [done|]. simpl.
  destruct (ticks_init _ _); [|done].
  intros [= <- <-]. simpl. by rewrite !responses_app, !app_nil_r.
  Opaque startup.
Qed.

Lemma delete_report_host_joinable h g tid :
  t_ h = Some tid →
  ∃ g', delete_report_host h g = Fatal StdTerminate g' ∧ trace g' = trace g.
Proof.
  Transparent delete_report_host.
  intros Ht. unfold delete_report_host, nmsg_close. mstep. rewrite Ht. eauto.
  Opaque delete_report_host.
Qed.

(** [C2] An [ADD_REPORT] whose report name is already a key, when the new
    host can be constructed and started (its name differs from those in use):
    [emplace] inserts nothing, the host just started is destroyed with its
    thread joinable, and the process ends in [std::terminate]; no response has
    been sent and the registry is as before. *)
Theorem duplicate_add_report_terminates c report h rh g1 rh' g2 :
  report_hosts_ c !! report_name report = Some h →
  new_report_host
    (rh_conf (nn_report_output_buffer (coordinator_conf_ c))
       (size (report_hosts_ c)) (report_name report)) (globals_ c) = Ret rh g1 →
  startup report rh g1 = Ret rh' g2 →
  ∃ c', on_control_sock (coordinator_request___add_report_t report) c
        = Fatal StdTerminate c'
    ∧ report_hosts_ c' = report_hosts_ c
    ∧ responses (trace (globals_ c')) = responses (trace (globals_ c)).
Proof.
  intros Hk Hnew Hst.
  destruct (startup_ret _ _ _ _ _ Hst) as (_ & Ht & _).
  destruct (delete_report_host_joinable rh' g2 _ Ht) as (g3 & Hdel & Htr).
  unfold on_control_sock, control_dispatch. mstep.
  rewrite Hnew. simpl. rewrite Hst. simpl. rewrite Hk. simpl. rewrite Hdel.
  eexists. split; [done|]. simpl. split; [done|].
  rewrite Htr, (startup_ret_responses _ _ _ _ _ Hst).
  destruct (new_report_host_cases
              (rh_conf (nn_report_output_buffer (coordinator_conf_ c))
                 (size (report_hosts_ c)) (report_name report)) (globals_ c))
    as [[e Hc]|[Hc _]]; rewrite Hc in Hnew; [done|].
  injection Hnew as _ <-. simpl. by rewrite responses_app, app_nil_r.
Qed.

End Properties.

(** * Further properties of the code *)

Section MoreProperties.
Context `{Reports}.

Implicit Types (c : coordinator_impl_t) (g : pinba_globals_t).
Implicit Types (h : report_host___new_thread_t) (req : coordinator_request_t).

#[local] Transparent new_report_host startup delete_report_host shutdown call_with_report.

Ltac mstep :=
  repeat (progress
    (unfold unwinding, control_send_generic, control_send, emit, on_globals,
       bind, ret, throw, stop, gets, modify, try_catch; simpl)).

(** *** One response per request *)

Lemma silent_ret {St A} tr (a : A) : silent (St:=St) tr (ret a).
Proof. by intros s. Qed.

Lemma silent_throw {St A} tr e : silent (St:=St) (A:=A) tr (throw e).
Proof. by intros s. Qed.

Lemma silent_stop {St A} tr f : silent (St:=St) (A:=A) tr (stop f).
Proof. by intros s. Qed.

Lemma silent_gets {St A} tr (f : St → A) : silent tr (gets f).
Proof. by intros s. Qed.

Lemma silent_bind {St A B} tr (m : M St A) (k : A → M St B) :
  silent tr m → (∀ a, silent tr (k a)) → silent tr (bind m k).
Proof.
  intros Hm Hk s. unfold bind. specialize (Hm s).
  destruct (m s) as [a s1|e s1|f s1]; simpl in *; [|done..].
  by rewrite Hk.
Qed.

Lemma silent_try_catch {St A} tr (m : M St A) k :
  silent tr m → (∀ e, silent tr (k e)) → silent tr (try_catch m k).
Proof.
  intros Hm Hk s. unfold try_catch. specialize (Hm s).
  destruct (m s) as [a s1|e s1|f s1]; simpl in *; [done| |done].
  by rewrite Hk.
Qed.

Lemma silent_modify_globals (f : pinba_globals_t → pinba_globals_t) :
  (∀ g, trace (f g) = trace g) → silent trace (modify f).
Proof. intros Hf g. simpl. by rewrite Hf. Qed.

Lemma silent_emit e :
  (∀ r, e ≠ EvControlSend r) → silent trace (emit e).
Proof.
  intros He g. simpl. rewrite responses_app. destruct e; simpl; try by rewrite app_nil_r.
  by destruct (He response).
Qed.

Lemma silent_on_globals {A} (m : M pinba_globals_t A) :
  silent trace m → silent (λ c, trace (globals_ c)) (on_globals m).
Proof.
  intros Hm c. unfold on_globals. specialize (Hm (globals_ c)).
  by destruct (m (globals_ c)).
Qed.

Lemma silent_modify_coordinator (f : coordinator_impl_t → coordinator_impl_t) :
  (∀ c, globals_ (f c) = globals_ c) → silent (λ c, trace (globals_ c)) (modify f).
Proof. intros Hf c. simpl. by rewrite Hf. Qed.

Create HintDb silent.
#[local] Hint Resolve silent_ret silent_throw silent_stop silent_gets silent_on_globals : silent.

(** Breaks a statement into its parts; what is left are the primitive
    steps. *)
Ltac silent :=
  repeat first
    [ progress auto with silent
    | apply silent_bind; [|intros ?]
    | apply silent_try_catch; [|intros ?]
    | apply silent_modify_globals; by intros []
    | apply silent_modify_coordinator; by intros []
    | apply silent_emit; by intros ?
    | progress unfold unwinding, nmsg_bind, nmsg_close, subscribe, unsubscribe,
        thread_spawn, duration_div
    | match goal with |- silent _ (match ?x with _ => _ end) => destruct x end
    | match goal with |- silent _ (if ?x then _ else _) => destruct x end ].

Lemma silent_new_report_host conf : silent trace (new_report_host conf).
Proof. unfold new_report_host. silent. Qed.

Lemma silent_delete_report_host h : silent trace (delete_report_host h).
Proof. unfold delete_report_host. silent. Qed.

Lemma silent_startup report h : silent trace (startup report h).
Proof. unfold startup. silent. Qed.

Lemma silent_shutdown h : silent trace (shutdown h).
Proof. unfold shutdown, worker_shutdown. silent. Qed.

Lemma silent_call_with_report {A} (func : report_host_call_func_t A) h :
  silent trace (call_with_report func h).
Proof.
  unfold call_with_report, worker_reqrep. silent.
Qed.

Lemma silent_process_batch batch h : silent trace (process_batch batch h).
Proof.
  unfold process_batch. silent.
Qed.

Lemma silent_for_hosts f l :
  (∀ h, silent trace (f h)) → silent (λ c, trace (globals_ c)) (for_hosts f l).
Proof.
  intros Hf. induction l as [|[k h] l IH]; simpl; silent.
Qed.

#[local] Hint Resolve silent_new_report_host silent_delete_report_host silent_startup
  silent_shutdown silent_call_with_report silent_process_batch : silent.

Lemma one_reply_control_send response : one_reply (control_send response).
Proof. intros c. simpl. rewrite responses_app. eauto. Qed.

Lemma one_reply_throw {A} e : one_reply (throw (A:=A) e).
Proof. by intros c. Qed.

Lemma one_reply_bind {A B} (m : M coordinator_impl_t A) (k : A → M coordinator_impl_t B) :
  silent (λ c, trace (globals_ c)) m → (∀ a, one_reply (k a)) → one_reply (bind m k).
Proof.
  intros Hm Hk c. unfold bind. specialize (Hm c).
  destruct (m c) as [a c1|e c1|f c1]; simpl in *; [|done..].
  specialize (Hk a c1). rewrite <-Hm. exact Hk.
Qed.

Lemma one_reply_control_dispatch req : one_reply (control_dispatch req).
Proof.
  destruct req as [func| |report|k|k|type]; unfold control_dispatch.
  - apply one_reply_bind; [silent|intros this].
    destruct (func this); [apply one_reply_control_send|apply one_reply_throw].
  - apply one_reply_bind; [|intros []].
    { unfold for_each_report_host. silent. apply silent_for_hosts. auto with silent. }
    apply one_reply_bind; [silent|intros []]. apply one_reply_control_send.
  - apply one_reply_bind; [silent|intros hosts].
    apply one_reply_bind; [silent|intros conf].
    apply one_reply_bind; [silent|intros rh].
    apply one_reply_bind; [silent|intros rh'].
    apply one_reply_bind; [silent|intros []]. apply one_reply_control_send.
  - apply one_reply_bind; [silent|intros hosts].
    destruct (hosts !! k); [|apply one_reply_control_send].
    apply one_reply_bind; [silent|intros h'].
    apply one_reply_bind; [silent|intros []].
    apply one_reply_bind; [silent|intros []]. apply one_reply_control_send.
  - apply one_reply_bind; [silent|intros hosts].
    destruct (hosts !! k); [|apply one_reply_control_send].
    apply one_reply_bind; [silent|intros res].
    apply one_reply_bind; [silent|intros []]. apply one_reply_control_send.
  - apply one_reply_throw.
Qed.

Lemma one_reply_on_control_sock req c :
  match on_control_sock req c with
  | Ret _ c' =>
      ∃ r, responses (trace (globals_ c')) = responses (trace (globals_ c)) ++ [r]
  | Throw _ _ => False
  | Fatal _ c' => responses (trace (globals_ c')) = responses (trace (globals_ c))
  end.
Proof.
  unfold on_control_sock, try_catch.
  pose proof (one_reply_control_dispatch req c) as Hd.
  destruct (control_dispatch req c) as [[] c1|e c1|f c1]; [done| |done].
  destruct e as [message|value]; [|done].
  simpl. rewrite responses_app, Hd. eauto.
Qed.

(** [X1] Every request the control handler finishes is answered exactly
    once: when the handler returns, one response has been added to those sent
    before.  That is also so when the [switch] threw a [std::exception]: up
    to the throw nothing was sent, and the [catch] block sends the one error
    response.  A thrown value of another type is not caught: the process
    ends in [std::terminate] and no response has been sent. *)
Theorem control_handler_replies_once req c :
  match on_control_sock req c with
  | Ret _ c' =>
      ∃ r, responses (trace (globals_ c')) = responses (trace (globals_ c)) ++ [r]
  | Throw _ _ | Fatal _ _ => True
  end
  ∧ ∀ e c1, control_dispatch req c = Throw e c1 →
      responses (trace (globals_ c1)) = responses (trace (globals_ c))
      ∧ match e with
        | StdException message =>
            on_control_sock req c = Ret tt (replied (error_response message) c1)
        | OtherException _ => on_control_sock req c = Fatal StdTerminate c1
        end.
Proof.
  split.
  - pose proof (one_reply_on_control_sock req c) as Hh.
    by destruct (on_control_sock req c).
  - intros e c1 Hd. split.
    + pose proof (one_reply_control_dispatch req c) as H1. by rewrite Hd in H1.
    + unfold on_control_sock, try_catch. rewrite Hd. by destruct e.
Qed.

Lemma request_running now req c :
  poller_shutdown_flag c = false →
  request now req c
  = match on_control_sock req (at_time now c) with
    | Ret _ c' =>
        match responses (trace (globals_ c')) !! length (responses (trace (globals_ c))) with
        | Some r => Ret r c'
        | None => Fatal BlockedForever c'
        end
    | Throw e c' => Throw e c'
    | Fatal f c' => Fatal f c'
    end.
Proof.
  intros Hflag. unfold request, bind, gets. rewrite Hflag.
  change (poller_handle (control_sock_readable now req) c)
    with (on_control_sock req (at_time now c)).
  destruct (on_control_sock req (at_time now c)) as [[] c'|e c'|f c']; [|done..].
  cbv beta. by destruct (_ !! _).
Qed.


(** *** The host's methods, outcome by outcome *)

Lemma startup_ret_fields report h g h' g' :
  startup report h g = Ret h' g' →
  let interval := time_window (info report) `quot` tick_count (info report) in
  report_ h = None
  ∧ tick_count (info report) ≠ 0
  ∧ ticker g !! name (conf_ h) = None
  ∧ (∃ r, ticks_init (clock_monotonic_now g) report = Done r
          ∧ h' = set_t_ (Some (length (threads g)))
                   (set_ticker_chan_
                      (Some {| chan_name := name (conf_ h); chan_interval := interval |})
                      (set_report_ (Some r) h)))
  ∧ ticker g' = <[name (conf_ h) := interval]> (ticker g)
  ∧ nn_bound g' = nn_bound g
  ∧ threads g' = threads g ++ [Running]
  ∧ batches g' = batches g
  ∧ clock_monotonic_now g' = clock_monotonic_now g
  ∧ trace g' = trace g ++ [EvSubscribe (name (conf_ h)) interval;
                           EvThreadSpawn (name (conf_ h)) (length (threads g))].
Proof.
  unfold startup, duration_div, subscribe, thread_spawn. mstep.
  destruct (report_ h); [done|].
  case_decide; [done|]. simpl.
  destruct (ticker g !! name (conf_ h)); [done|]. simpl.
  destruct (ticks_init _ _) as [r|]; [|done].
  intros [= <- <-]. simpl. split_and!; try done; [by exists r|].
  by rewrite <-app_assoc.
Qed.

Lemma shutdown_ret_fields h g h' g' :
  shutdown h g = Ret h' g' →
  ∃ tid chan, t_ h = Some tid ∧ threads g !! tid = Some Running
    ∧ ticker_chan_ h = Some chan
    ∧ h' = set_t_ None h
    ∧ ticker g' = delete (chan_name chan) (ticker g)
    ∧ nn_bound g' = nn_bound g
    ∧ threads g' = <[tid := Exited]> (threads g)
    ∧ batches g' = batches g
    ∧ clock_monotonic_now g' = clock_monotonic_now g
    ∧ trace g' = trace g ++ shutdown_events h.
Proof.
  unfold shutdown, worker_running, worker_shutdown, unsubscribe, shutdown_events. mstep.
  destruct (t_ h) as [tid|]; [|done]. simpl.
  destruct (threads g !! tid) as [[]|] eqn:Hrun; simpl; [|done..].
  destruct (ticker_chan_ h) as [chan|]; simpl; [|done].
  intros [= <- <-]. exists tid, chan. simpl. split_and!; try done.
  by rewrite <-!app_assoc.
Qed.

Lemma delete_report_host_fields h g :
  t_ h = None →
  ∃ g', delete_report_host h g = Ret tt g'
    ∧ ticker g' = ticker g
    ∧ nn_bound g' = nn_bound g ∖ {[nn_shutdown (conf_ h)]} ∖ {[nn_reqrep (conf_ h)]}
                      ∖ {[nn_packets (conf_ h)]}
    ∧ threads g' = threads g
    ∧ batches g' = batches g
    ∧ clock_monotonic_now g' = clock_monotonic_now g
    ∧ trace g' = trace g.
Proof.
  intros Ht. unfold delete_report_host, nmsg_close. mstep. rewrite Ht.
  eexists. split; [done|]. simpl. done.
Qed.

(** [X3] The constructor of a host binds its three addresses or none.  It
    returns exactly when the three are different from one another and none is
    bound yet; then all three are bound and nothing else has changed but the
    trace.  Otherwise it throws and the bound addresses are as before. *)
Theorem host_constructor_binds_all_or_nothing conf g :
  let free := NoDup [nn_packets conf; nn_reqrep conf; nn_shutdown conf]
              ∧ ∀ a, a ∈ [nn_packets conf; nn_reqrep conf; nn_shutdown conf] → a ∉ nn_bound g in
  match new_report_host conf g with
  | Ret h g' =>
      free ∧ h = fresh_host conf
      ∧ nn_bound g' = {[nn_packets conf; nn_reqrep conf; nn_shutdown conf]} ∪ nn_bound g
      ∧ ticker g' = ticker g ∧ threads g' = threads g
  | Throw e g' =>
      ¬ free ∧ g' = g
      ∧ ∃ a, a ∈ [nn_packets conf; nn_reqrep conf; nn_shutdown conf] ∧ e = nn_address_in_use a
  | Fatal _ _ => False
  end.
Proof.
  unfold new_report_host, nmsg_bind, nmsg_close. mstep.
  destruct (decide (nn_packets conf ∈ nn_bound g)) as [Hp|Hp]; simpl.
  { split_and!; [|done|exists (nn_packets conf); set_solver].
    intros [_ Hfree]. apply (Hfree (nn_packets conf)); set_solver. }
  case_decide as Hr; simpl.
  { split_and!.
    - intros [Hnd Hfree]. apply elem_of_union in Hr as [Hr|Hr].
      + apply NoDup_cons in Hnd as [Hnd _]. set_solver.
      + apply (Hfree (nn_reqrep conf)); set_solver.
    - destruct g; unfold set_nn_bound; simpl. f_equal. set_solver.
    - exists (nn_reqrep conf). set_solver. }
  case_decide as Hs; simpl.
  { split_and!.
    - intros [Hnd Hfree].
      apply elem_of_union in Hs as [Hs|Hs]; [|apply elem_of_union in Hs as [Hs|Hs]].
      + apply NoDup_cons in Hnd as [_ Hnd]. apply NoDup_cons in Hnd as [Hnd _]. set_solver.
      + apply NoDup_cons in Hnd as [Hnd _]. set_solver.
      + apply (Hfree (nn_shutdown conf)); set_solver.
    - destruct g; unfold set_nn_bound; simpl. f_equal. set_solver.
    - exists (nn_shutdown conf). set_solver. }
  split_and!; try done.
  - repeat (apply NoDup_cons; split); [set_solver..|apply NoDup_nil_2].
  - set_solver.
  - set_solver.
Qed.

(** [X4] The constructor of the coordinator binds the control address and
    the report output address, or neither.  It returns exactly when the two
    differ and are free, with an empty registry and the flag unset; otherwise
    it throws and the bound addresses are as before. *)
Theorem coordinator_constructor_binds_both_or_nothing conf g :
  let free := nn_control conf ≠ nn_report_output conf
              ∧ (nn_control conf ∉ nn_bound g) ∧ (nn_report_output conf ∉ nn_bound g) in
  match create_coordinator conf g with
  | Ret c g' =>
      free ∧ globals_ c = g' ∧ coordinator_conf_ c = conf
      ∧ report_hosts_ c = ∅ ∧ poller_shutdown_flag c = false
      ∧ nn_bound g' = {[nn_control conf; nn_report_output conf]} ∪ nn_bound g
      ∧ ticker g' = ticker g ∧ threads g' = threads g ∧ trace g' = trace g
  | Throw e g' =>
      ¬ free ∧ g' = g
      ∧ (e = nn_address_in_use (nn_control conf)
         ∨ e = nn_address_in_use (nn_report_output conf))
  | Fatal _ _ => False
  end.
Proof.
  unfold create_coordinator, nmsg_bind, nmsg_close. mstep.
  destruct (decide (nn_control conf ∈ nn_bound g)) as [Hc|Hc]; simpl.
  { split_and!; [|done|by left]. by intros (_ & ? & _). }
  case_decide as Hr; simpl.
  { split_and!.
    - intros (Hne & _ & Hfree). set_solver.
    - destruct g; unfold set_nn_bound; simpl. f_equal. set_solver.
    - by right. }
  split_and!; try done; set_solver.
Qed.

(** [X5] [startup] works once.  On a host that a [startup] has returned
    from, a second [startup] throws "report handler <name> is already started"
    and changes nothing: no subscription, no thread. *)
Theorem startup_only_once report h g h' g' :
  startup report h g = Ret h' g' →
  ∀ report2 g2,
    startup report2 h' g2
    = Throw (StdException ("report handler " +:+ name (conf_ h) +:+ " is already started")) g2.
Proof.
  intros (_ & _ & _ & (r & _ & ->) & _)%startup_ret_fields report2 g2.
  reflexivity.
Qed.

(** [X6] A host that [shutdown] has returned from answers nothing any more:
    its thread has ended, so a second [shutdown] and any [call_with_report]
    wait for a reply that never comes. *)
Theorem host_is_deaf_after_shutdown h g h' g' :
  shutdown h g = Ret h' g' →
  (∃ tid, t_ h = Some tid ∧ threads g' !! tid = Some Exited)
  ∧ ∀ g2,
      (∃ g3, shutdown h' g2 = Fatal BlockedForever g3)
      ∧ ∀ A (func : report_host_call_func_t A),
          call_with_report func h' g2 = Fatal BlockedForever g2.
Proof.
  intros (tid & chan & Ht & Hrun & _ & -> & _ & _ & Hthr & _)%shutdown_ret_fields.
  split.
  { exists tid. split; [done|]. rewrite Hthr.
    apply list_lookup_insert_eq. by eapply lookup_lt_Some. }
  intros g2. split; [|done]. unfold shutdown. mstep. eauto.
Qed.

(** [X7] A [GET_REPORT_SNAPSHOT] that succeeds touches nothing but the
    report it asks.  For a registered host whose thread is running and whose
    report, asked for its snapshot, gives [s] and is left as [r'] (the call
    is not [const]), the response carries [s]; the host keeps its
    configuration, thread, queue, counter and ticker channel and holds [r'];
    the other hosts, the registry's keys and everything global but the
    response sent are as before. *)
Theorem get_report_snapshot_changes_the_report_only c k h r r' s :
  report_hosts_ c !! k = Some h →
  worker_running h (globals_ c) = true →
  report_ h = Some r →
  get_snapshot r = Done (r', s) →
  on_control_sock (coordinator_request___get_report_snapshot_t k) c
  = Ret tt (replied (coordinator_response___report_snapshot_t s)
              (set_report_hosts_ (insert k (set_report_ (Some r') h)) c)).
Proof.
  intros Hk Hrun Hr Hsnap.
  unfold on_control_sock, control_dispatch, call_with_report, worker_reqrep, get_snapshot_func.
  mstep. rewrite Hk. simpl. by rewrite Hrun, Hr, Hsnap.
Qed.

(** *** [ADD_REPORT] and [DELETE_REPORT], field by field *)

Lemma bind_eq_ret {St A B} (m : M St A) (k : A → M St B) s a s' :
  m s = Ret a s' → bind m k s = k a s'.
Proof. unfold bind. by intros ->. Qed.

Lemma on_globals_eq_ret {A} (m : M pinba_globals_t A) c a g :
  m (globals_ c) = Ret a g → on_globals m c = Ret a (set_globals_ g c).
Proof. unfold on_globals. by intros ->. Qed.

Lemma shutdown_running_fields h g tid chan :
  t_ h = Some tid → threads g !! tid = Some Running → ticker_chan_ h = Some chan →
  ∃ g', shutdown h g = Ret (set_t_ None h) g'
    ∧ ticker g' = delete (chan_name chan) (ticker g)
    ∧ nn_bound g' = nn_bound g
    ∧ threads g' = <[tid := Exited]> (threads g)
    ∧ batches g' = batches g
    ∧ clock_monotonic_now g' = clock_monotonic_now g
    ∧ trace g' = trace g ++ shutdown_events h.
Proof.
  intros Ht Hrun Hchan.
  destruct (shutdown_running h g tid Ht Hrun) as (g' & Hsh & _); [by eexists|].
  exists g'. split; [done|].
  apply shutdown_ret_fields in Hsh as (tid' & chan' & ? & ? & ? & _ & ?).
  assert (chan' = chan) as -> by congruence. assert (tid' = tid) as -> by congruence.
  done.
Qed.

Lemma delete_report_found c k h tid chan :
  report_hosts_ c !! k = Some h →
  t_ h = Some tid → threads (globals_ c) !! tid = Some Running →
  ticker_chan_ h = Some chan →
  ∃ c', control_dispatch (coordinator_request___delete_report_t k) c = Ret tt c'
    ∧ report_hosts_ c' = delete k (report_hosts_ c)
    ∧ coordinator_conf_ c' = coordinator_conf_ c
    ∧ poller_shutdown_flag c' = poller_shutdown_flag c
    ∧ threads (globals_ c') = <[tid := Exited]> (threads (globals_ c))
    ∧ ticker (globals_ c') = delete (chan_name chan) (ticker (globals_ c))
    ∧ nn_bound (globals_ c')
      = nn_bound (globals_ c) ∖ {[nn_shutdown (conf_ h)]} ∖ {[nn_reqrep (conf_ h)]}
          ∖ {[nn_packets (conf_ h)]}
    ∧ batches (globals_ c') = batches (globals_ c)
    ∧ clock_monotonic_now (globals_ c') = clock_monotonic_now (globals_ c)
    ∧ trace (globals_ c')
      = trace (globals_ c) ++ shutdown_events h ++ [EvControlSend ok_response].
Proof.
  intros Hk Ht Hrun Hchan.
  destruct (shutdown_running_fields h (globals_ c) tid chan Ht Hrun Hchan)
    as (g1 & Hsh & Htick & Hb & Hthr & Hbat & Hclk & Htr).
  destruct (delete_report_host_fields (set_t_ None h) g1 eq_refl)
    as (g2 & Hdel & Htick2 & Hb2 & Hthr2 & Hbat2 & Hclk2 & Htr2).
  unfold control_dispatch.
  rewrite (bind_eq_ret _ _ c (report_hosts_ c) c) by done. rewrite Hk.
  rewrite (bind_eq_ret _ _ _ _ _ (on_globals_eq_ret _ _ _ _ Hsh)).
  erewrite bind_eq_ret by reflexivity.
  erewrite bind_eq_ret by (apply on_globals_eq_ret; exact Hdel).
  eexists. split; [done|]. simpl.
  rewrite Hthr2, Htick2, Hb2, Hbat2, Hclk2, Htr2, Hthr, Htick, Hb, Hbat, Hclk, Htr.
  split_and!; try done. by rewrite <-app_assoc.
Qed.

(** [X8] [DELETE_REPORT] of a registered report whose host is running shuts
    the host down before anything else: its thread is joined, its ticker
    subscription and its three addresses are released, then the entry is erased
    and OK is sent.  The name is unknown afterwards, the other entries are as
    they were, and only this host's thread changed state. *)
Theorem delete_report_releases_the_host c k h tid chan :
  report_hosts_ c !! k = Some h →
  t_ h = Some tid → threads (globals_ c) !! tid = Some Running →
  ticker_chan_ h = Some chan →
  ∃ c', on_control_sock (coordinator_request___delete_report_t k) c = Ret tt c'
    ∧ report_hosts_ c' = delete k (report_hosts_ c)
    ∧ report_hosts_ c' !! k = None
    ∧ threads (globals_ c') = <[tid := Exited]> (threads (globals_ c))
    ∧ ticker (globals_ c') = delete (chan_name chan) (ticker (globals_ c))
    ∧ (∀ a, a ∈ nn_bound (globals_ c') ↔ a ∈ nn_bound (globals_ c) ∧ a ∉ endpoints h)
    ∧ trace (globals_ c')
      = trace (globals_ c)
        ++ [EvHostShutdown (name (conf_ h)); EvUnsubscribe (chan_name chan);
            EvThreadJoin (name (conf_ h)) tid; EvControlSend ok_response].
Proof.
  intros Hk Ht Hrun Hchan.
  destruct (delete_report_found c k h tid chan Hk Ht Hrun Hchan)
    as (c' & Hd & Hhosts & _ & _ & Hthr & Htick & Hb & _ & _ & Htr).
  exists c'. split_and!; try done.
  - unfold on_control_sock, try_catch. by rewrite Hd.
  - rewrite Hhosts. apply lookup_delete_eq.
  - intros a. rewrite Hb. unfold endpoints. set_solver.
  - rewrite Htr. unfold shutdown_events. by rewrite Ht, Hchan.
Qed.

Lemma add_report_ret_fields report c c' :
  control_dispatch (coordinator_request___add_report_t report) c = Ret tt c' →
  let conf := rh_conf (nn_report_output_buffer (coordinator_conf_ c))
                (size (report_hosts_ c)) (report_name report) in
  let interval := time_window (info report) `quot` tick_count (info report) in
  ∃ r,
    report_hosts_ c !! report_name report = None
    ∧ tick_count (info report) ≠ 0
    ∧ ticks_init (clock_monotonic_now (globals_ c)) report = Done r
    ∧ ticker (globals_ c) !! name conf = None
    ∧ (nn_packets conf ∉ nn_bound (globals_ c))
    ∧ (nn_reqrep conf ∉ nn_bound (globals_ c))
    ∧ (nn_shutdown conf ∉ nn_bound (globals_ c))
    ∧ report_hosts_ c'
      = <[report_name report :=
            set_t_ (Some (length (threads (globals_ c))))
              (set_ticker_chan_ (Some {| chan_name := name conf; chan_interval := interval |})
                 (set_report_ (Some r) (fresh_host conf)))]> (report_hosts_ c)
    ∧ coordinator_conf_ c' = coordinator_conf_ c
    ∧ poller_shutdown_flag c' = poller_shutdown_flag c
    ∧ threads (globals_ c') = threads (globals_ c) ++ [Running]
    ∧ ticker (globals_ c') = <[name conf := interval]> (ticker (globals_ c))
    ∧ nn_bound (globals_ c')
      = {[nn_shutdown conf]} ∪ ({[nn_reqrep conf]} ∪ ({[nn_packets conf]} ∪ nn_bound (globals_ c)))
    ∧ batches (globals_ c') = batches (globals_ c)
    ∧ clock_monotonic_now (globals_ c') = clock_monotonic_now (globals_ c)
    ∧ trace (globals_ c')
      = trace (globals_ c)
        ++ [EvHostCreated (name conf) (thread_name conf); EvSubscribe (name conf) interval;
            EvThreadSpawn (name conf) (length (threads (globals_ c)));
            EvControlSend ok_response].
Proof.
  intros Hd conf interval. unfold control_dispatch in Hd.
  apply bind_ret_inv in Hd as (hosts & c2 & [= <- <-] & Hd).
  apply bind_ret_inv in Hd as (cconf & c2 & [= <- <-] & Hd).
  apply bind_ret_inv in Hd as (rh & c2 & Hnew & Hd).
  apply on_globals_ret_inv in Hnew as (g1 & Hnew & ->).
  change (new_report_host conf (globals_ c) = Ret rh g1) in Hnew.
  clearbody conf.
  destruct (new_report_host_cases conf (globals_ c)) as [[e Hc]|(Hc & Hp & Hr & Hs)];
    rewrite Hc in Hnew; [done|]. injection Hnew as <- <-.
  apply bind_ret_inv in Hd as (rh' & c3 & Hst & Hd).
  apply try_catch_ret_inv in Hst as [Hst|(e & c4 & _ & Hst)]; last first.
  { by apply bind_ret_inv in Hst as (? & ? & _ & ?). }
  apply on_globals_ret_inv in Hst as (g2 & Hst & ->).
  apply startup_ret_fields in Hst
    as (_ & Htc & Hfree & (r & Hinit & ->) & Htick & Hb & Hthr & Hbat & Hclk & Htr).
  apply bind_ret_inv in Hd as ([] & c4 & Hem & Hd).
  apply control_send_ret in Hd as ->.
  destruct (report_hosts_ c !! report_name report) eqn:Hk.
  { apply on_globals_ret_inv in Hem as (g3 & Hdel & _).
    by apply delete_report_host_ret in Hdel as [Hdel _]. }
  injection Hem as <-. exists r. simpl in *.
  rewrite Hthr, Htick, Hb, Hbat, Hclk, Htr. split_and!; try done.
  by rewrite <-!app_assoc.
Qed.

Lemma new_report_host_free conf g :
  NoDup [nn_packets conf; nn_reqrep conf; nn_shutdown conf] →
  (nn_packets conf ∉ nn_bound g) → (nn_reqrep conf ∉ nn_bound g) →
  (nn_shutdown conf ∉ nn_bound g) →
  new_report_host conf g
  = Ret (fresh_host conf)
      (set_trace (λ t, t ++ [EvHostCreated (name conf) (thread_name conf)])
         (set_nn_bound
            (λ b, {[nn_shutdown conf]} ∪ ({[nn_reqrep conf]} ∪ ({[nn_packets conf]} ∪ b))) g)).
Proof.
  intros Hnd Hp Hr Hs.
  destruct (new_report_host_cases conf g) as [[e Hc]|[Hc _]]; [|done].
  exfalso. revert Hc. unfold new_report_host, nmsg_bind, nmsg_close. mstep.
  apply NoDup_cons in Hnd as [Hpr Hnd]. apply NoDup_cons in Hnd as [Hrs _].
  rewrite decide_False by done. simpl.
  rewrite decide_False by set_solver. simpl.
  rewrite decide_False by set_solver. done.
Qed.

Lemma startup_sufficient report h g r :
  report_ h = None → tick_count (info report) ≠ 0 →
  ticker g !! name (conf_ h) = None →
  ticks_init (clock_monotonic_now g) report = Done r →
  ∃ h' g', startup report h g = Ret h' g'.
Proof.
  intros Hr Htc Hfree Hinit. unfold startup, duration_div, subscribe, thread_spawn. mstep.
  rewrite Hr. rewrite decide_False by done. simpl. rewrite Hfree. simpl.
  rewrite Hinit. eauto.
Qed.

#[local] Abbreviation chars := Stdlib.Strings.String.list_ascii_of_string.

Lemma rh_conf_endpoints_NoDup buffer i k :
  NoDup [nn_packets (rh_conf buffer i k); nn_reqrep (rh_conf buffer i k);
         nn_shutdown (rh_conf buffer i k)].
Proof.
  unfold rh_conf. simpl. set (n := "rh/" +:+ pretty i +:+ "/" +:+ k). clearbody n.
  assert (Hne : ∀ s t, last (chars s) ≠ last (chars t) →
                  is_Some (last (chars s)) → is_Some (last (chars t)) →
                  "inproc://" +:+ n +:+ s ≠ "inproc://" +:+ n +:+ t).
  { intros s t Hl Hs Ht Heq%(inj (String.app "inproc://")).
    by apply string_app_last in Heq. }
  repeat (apply NoDup_cons; split); [| |set_solver|apply NoDup_nil_2].
  - intros Hin. repeat (apply elem_of_cons in Hin as [Heq|Hin]);
      [| |by apply elem_of_nil in Hin];
      (revert Heq; apply Hne; simpl; [done|by eexists|by eexists]).
  - intros Hin. repeat (apply elem_of_cons in Hin as [Heq|Hin]);
      [|by apply elem_of_nil in Hin];
      (revert Heq; apply Hne; simpl; [done|by eexists|by eexists]).
Qed.

Lemma add_report_sufficient report c r :
  let conf := rh_conf (nn_report_output_buffer (coordinator_conf_ c))
                (size (report_hosts_ c)) (report_name report) in
  report_hosts_ c !! report_name report = None →
  tick_count (info report) ≠ 0 →
  ticks_init (clock_monotonic_now (globals_ c)) report = Done r →
  ticker (globals_ c) !! name conf = None →
  (nn_packets conf ∉ nn_bound (globals_ c)) →
  (nn_reqrep conf ∉ nn_bound (globals_ c)) →
  (nn_shutdown conf ∉ nn_bound (globals_ c)) →
  ∃ c', control_dispatch (coordinator_request___add_report_t report) c = Ret tt c'.
Proof.
  intros conf Hk Htc Hinit Hfree Hp Hr Hs.
  pose proof (new_report_host_free conf (globals_ c)
                (rh_conf_endpoints_NoDup _ _ _) Hp Hr Hs) as Hnew.
  destruct (startup_sufficient report (fresh_host conf)
              (set_trace (λ t, t ++ [EvHostCreated (name conf) (thread_name conf)])
                 (set_nn_bound
                    (λ b, {[nn_shutdown conf]} ∪ ({[nn_reqrep conf]} ∪ ({[nn_packets conf]} ∪ b)))
                    (globals_ c))) r)
    as (h' & g' & Hst); [done..|].
  unfold control_dispatch.
  erewrite bind_eq_ret by reflexivity. erewrite bind_eq_ret by reflexivity.
  erewrite bind_eq_ret by (apply on_globals_eq_ret; exact Hnew).
  erewrite bind_eq_ret; last first.
  { unfold unwinding, try_catch. erewrite on_globals_eq_ret by exact Hst. reflexivity. }
  rewrite Hk. erewrite bind_eq_ret by reflexivity. eauto.
Qed.

(** [X9] For a report whose [ticks_init] does not throw, an OK reply to
    [ADD_REPORT] means a live host.  ([ticks_init] is the first statement of
    the new thread and the handler does not wait for it: when it throws, the
    process ends whatever was replied, and nothing is claimed.)  When the
    handler answers OK, the name was not registered before and is now, under
    the configuration derived from the registry's size; the host's thread is
    running, its report is the incoming one as [ticks_init] left it, its
    queue is empty and its packet counter 0; it is subscribed to the ticker
    under its own name at [time_window / tick_count], and its three addresses
    are bound. *)
Theorem add_report_ok_means_live_host report c c' r :
  ticks_init (clock_monotonic_now (globals_ c)) report = Done r →
  on_control_sock (coordinator_request___add_report_t report) c = Ret tt c' →
  responses (trace (globals_ c')) = responses (trace (globals_ c)) ++ [ok_response] →
  ∃ h,
    report_hosts_ c !! report_name report = None
    ∧ report_hosts_ c' = <[report_name report := h]> (report_hosts_ c)
    ∧ conf_ h = rh_conf (nn_report_output_buffer (coordinator_conf_ c))
                  (size (report_hosts_ c)) (report_name report)
    ∧ worker_running h (globals_ c') = true
    ∧ report_ h = Some r
    ∧ packets_sock_ h = [] ∧ packets_received h = 0
    ∧ ticker_chan_ h
      = Some {| chan_name := name (conf_ h);
                chan_interval := time_window (info report) `quot` tick_count (info report) |}
    ∧ ticker (globals_ c') !! name (conf_ h)
      = Some (time_window (info report) `quot` tick_count (info report))
    ∧ ∀ a, a ∈ endpoints h → a ∈ nn_bound (globals_ c').
Proof.
  intros Hticks Hh Hok.
  apply on_control_sock_ret_inv in Hh as [Hd|(message & c1 & Hd & ->)]; last first.
  { pose proof (one_reply_control_dispatch (coordinator_request___add_report_t report) c) as H1.
    rewrite Hd in H1. simpl in Hok. rewrite responses_app, H1 in Hok.
    by apply app_inv_head in Hok. }
  apply add_report_ret_fields in Hd
    as (r0 & Hk & _ & Hinit & _ & _ & _ & _ & Hhosts & _ & _ & Hthr & Htick & Hb & _).
  assert (r0 = r) as -> by congruence.
  eexists. split_and!; try done.
  - unfold worker_running. simpl. by rewrite Hthr, lookup_app_r, Nat.sub_diag.
  - simpl. rewrite Htick. apply lookup_insert_eq.
  - intros a. rewrite Hb. unfold endpoints. simpl. set_solver.
Qed.

(** [X10] For a report whose [ticks_init] does not throw, [DELETE_REPORT]
    undoes [ADD_REPORT], and the report can be added again.  After an
    [ADD_REPORT] answered OK, deleting that report is answered OK and gives
    back the registry, the ticker's subscriptions and the bound addresses of
    before the add; the thread started for the host has ended.  The same
    [ADD_REPORT] then succeeds once more: the host's name and addresses are
    free again. *)
Theorem add_then_delete_restores report c c1 r :
  ticks_init (clock_monotonic_now (globals_ c)) report = Done r →
  on_control_sock (coordinator_request___add_report_t report) c = Ret tt c1 →
  responses (trace (globals_ c1)) = responses (trace (globals_ c)) ++ [ok_response] →
  ∃ c2,
    on_control_sock (coordinator_request___delete_report_t (report_name report)) c1
    = Ret tt c2
    ∧ responses (trace (globals_ c2)) = responses (trace (globals_ c)) ++ [ok_response; ok_response]
    ∧ report_hosts_ c2 = report_hosts_ c
    ∧ ticker (globals_ c2) = ticker (globals_ c)
    ∧ nn_bound (globals_ c2) = nn_bound (globals_ c)
    ∧ threads (globals_ c2) = threads (globals_ c) ++ [Exited]
    ∧ ∃ c3, on_control_sock (coordinator_request___add_report_t report) c2 = Ret tt c3
        ∧ is_Some (report_hosts_ c3 !! report_name report).
Proof.
  intros Hticks Hh Hok.
  apply on_control_sock_ret_inv in Hh as [Hd|(message & c' & Hd & ->)]; last first.
  { pose proof (one_reply_control_dispatch (coordinator_request___add_report_t report) c) as H1.
    rewrite Hd in H1. simpl in Hok. rewrite responses_app, H1 in Hok.
    by apply app_inv_head in Hok. }
  apply add_report_ret_fields in Hd
    as (r0 & Hk & Htc & Hinit & Hfree & Hp & Hr & Hs & Hhosts & Hconf & Hflag & Hthr & Htick
        & Hb & Hbat & Hclk & Htr).
  assert (r0 = r) as -> by congruence. clear Hinit.
  set (conf := rh_conf (nn_report_output_buffer (coordinator_conf_ c))
                 (size (report_hosts_ c)) (report_name report)) in *.
  set (interval := time_window (info report) `quot` tick_count (info report)) in *.
  set (h := set_t_ (Some (length (threads (globals_ c))))
              (set_ticker_chan_ (Some {| chan_name := name conf; chan_interval := interval |})
                 (set_report_ (Some r) (fresh_host conf)))) in *.
  destruct (delete_report_found c1 (report_name report) h (length (threads (globals_ c)))
              {| chan_name := name conf; chan_interval := interval |})
    as (c2 & Hdel & Hhosts2 & Hconf2 & _ & Hthr2 & Htick2 & Hb2 & _ & Hclk2 & Htr2).
  { rewrite Hhosts. apply lookup_insert_eq. }
  { done. }
  { by rewrite Hthr, lookup_app_r, Nat.sub_diag. }
  { done. }
  assert (Hhosts' : report_hosts_ c2 = report_hosts_ c).
  { rewrite Hhosts2, Hhosts. by apply delete_insert_id. }
  assert (Htick' : ticker (globals_ c2) = ticker (globals_ c)).
  { rewrite Htick2, Htick. simpl. by apply delete_insert_id. }
  assert (Hb' : nn_bound (globals_ c2) = nn_bound (globals_ c)).
  { rewrite Hb2, Hb. simpl. set_solver. }
  exists c2. split_and!; try done.
  - unfold on_control_sock, try_catch. by rewrite Hdel.
  - rewrite Htr2, Htr, !responses_app. simpl. by rewrite <-app_assoc.
  - rewrite Hthr2, Hthr.
    replace (length (threads (globals_ c))) with (length (threads (globals_ c)) + 0)%nat at 1 by lia.
    by rewrite insert_app_r.
  - destruct (add_report_sufficient report c2 r) as (c3 & Hadd).
    + by rewrite Hhosts'.
    + done.
    + by rewrite Hclk2, Hclk.
    + by rewrite Hhosts', Hconf2, Hconf, Htick'.
    + by rewrite Hhosts', Hconf2, Hconf, Hb'.
    + by rewrite Hhosts', Hconf2, Hconf, Hb'.
    + by rewrite Hhosts', Hconf2, Hconf, Hb'.
    + exists c3. split; [unfold on_control_sock, try_catch; by rewrite Hadd|].
      apply add_report_ret_fields in Hadd as (r' & _ & _ & _ & _ & _ & _ & _ & -> & _).
      rewrite lookup_insert_eq. by eexists.
Qed.

(** *** Which reports are registered *)

Lemma for_hosts_ret_lookup f l c c' :
  for_hosts f l c = Ret tt c' →
  ∀ k h', report_hosts_ c' !! k = Some h' →
    report_hosts_ c !! k = Some h' ∨ ∃ h g g', (k, h) ∈ l ∧ f h g = Ret h' g'.
Proof.
  revert c. induction l as [|[k0 h0] l IH]; intros c Hrun k h' Hk'; simpl in Hrun.
  { injection Hrun as <-. by left. }
  apply bind_ret_inv in Hrun as (h0' & c1 & Hf & Hrun).
  apply on_globals_ret_inv in Hf as (g1 & Hf & ->).
  apply bind_ret_inv in Hrun as ([] & c2 & [= <-] & Hrun).
  destruct (IH _ Hrun k h' Hk') as [Hk|(h & g & g' & Hin & Hfh)].
  - simpl in Hk. destruct (decide (k0 = k)) as [->|Hne].
    + rewrite lookup_insert_eq in Hk. injection Hk as ->.
      right. exists h0, (globals_ c), g1. split; [left|done].
    + rewrite lookup_insert_ne in Hk by done. by left.
  - right. exists h, g, g'. split; [by right|done].
Qed.

Lemma for_hosts_ret_dom f l c c' :
  for_hosts f l c = Ret tt c' →
  dom (report_hosts_ c') = list_to_set l.*1 ∪ dom (report_hosts_ c).
Proof.
  revert c. induction l as [|[k0 h0] l IH]; intros c Hrun; simpl in Hrun.
  { injection Hrun as <-. set_solver. }
  apply bind_ret_inv in Hrun as (h0' & c1 & Hf & Hrun).
  apply on_globals_ret_inv in Hf as (g1 & Hf & ->).
  apply bind_ret_inv in Hrun as ([] & c2 & [= <-] & Hrun).
  rewrite (IH _ Hrun). simpl. rewrite dom_insert_L. set_solver.
Qed.

Lemma for_each_report_host_ret_dom f c c' :
  for_each_report_host f c = Ret tt c' → dom (report_hosts_ c') = dom (report_hosts_ c).
Proof.
  unfold for_each_report_host. intros Hrun.
  apply bind_ret_inv in Hrun as (hosts & c1 & [= <- <-] & Hrun).
  rewrite (for_hosts_ret_dom _ _ _ _ Hrun).
  assert (list_to_set (map_to_list (report_hosts_ c)).*1 =@{gset string} dom (report_hosts_ c))
    as ->; [|set_solver].
  apply set_eq. intros k. rewrite elem_of_list_to_set, elem_of_dom, list_elem_of_fmap.
  split.
  - intros ([k' h] & -> & Hin%elem_of_map_to_list). by eexists.
  - intros [h Hk]. exists (k, h). split; [done|]. by apply elem_of_map_to_list.
Qed.

(** [X11] Only [ADD_REPORT] and [DELETE_REPORT] change which reports are
    registered.  Whatever the poller hands the coordinator, when the handler
    returns the set of registered names is: for [ADD_REPORT], the old set or
    the old set with the report's name, which was not in it; for
    [DELETE_REPORT(k)], the old set without [k]; for everything else, [SHUTDOWN]
    included, the old set.  An iteration of a host's own thread never changes
    it either. *)
Theorem registry_keys_change_by_add_and_delete ev c c' k hev c'' :
  (poller_handle ev c = Ret tt c' →
   match ev with
   | control_sock_readable _ (coordinator_request___add_report_t report) =>
       dom (report_hosts_ c') = dom (report_hosts_ c)
       ∨ ((report_name report ∉ dom (report_hosts_ c))
          ∧ dom (report_hosts_ c') = {[report_name report]} ∪ dom (report_hosts_ c))
   | control_sock_readable _ (coordinator_request___delete_report_t k) =>
       dom (report_hosts_ c') = dom (report_hosts_ c) ∖ {[k]}
   | _ => dom (report_hosts_ c') = dom (report_hosts_ c)
   end)
  ∧ (host_poll k hev c = Ret tt c'' → dom (report_hosts_ c'') = dom (report_hosts_ c)).
Proof.
  split.
  - destruct ev as [now|now batch|now req]; intros Hh.
    + by injection Hh as <-.
    + apply (for_each_report_host_ret_dom _ (at_time now c) c' Hh).
    + change (on_control_sock req (at_time now c) = Ret tt c') in Hh.
      apply on_control_sock_ret_inv in Hh as [Hd|(message & c1 & Hd & ->)]; last first.
      { pose proof (control_dispatch_throw_frame _ _ _ _ Hd) as (Hhosts & _). simpl in *.
        destruct req as [| |report|k0|k0|]; rewrite Hhosts; try done.
        - by left.
        - by apply delete_report_no_throw in Hd. }
      destruct req as [func| |report|k0|k0|type].
      * by apply call_request_ret in Hd as ->.
      * unfold control_dispatch in Hd.
        apply bind_ret_inv in Hd as ([] & c1 & Hloop & Hd).
        apply bind_ret_inv in Hd as ([] & c2 & [= <-] & Hd).
        apply control_send_ret in Hd as ->. simpl.
        apply (for_each_report_host_ret_dom _ _ _ Hloop).
      * apply add_report_ret in Hd as (h' & Hk & -> & _). right.
        split; [by apply not_elem_of_dom|]. by rewrite dom_insert_L.
      * apply delete_report_ret in Hd as [_ [(Hk & -> & _)|(h & tid & _ & _ & _ & -> & _)]].
        -- apply not_elem_of_dom in Hk. simpl in *. set_solver.
        -- by rewrite dom_delete_L.
      * apply get_report_snapshot_ret in Hd as (_ & _ & [->|(h & h' & Hk & _ & ->)]); [done|].
        rewrite dom_insert_L. apply elem_of_dom_2 in Hk. simpl in *. set_solver.
      * done.
  - intros (_ & _ & _ & [->|(h & h' & Hk & _ & ->)])%host_poll_ret; [done|].
    rewrite dom_insert_L. apply elem_of_dom_2 in Hk. set_solver.
Qed.

(** *** Every host of the registry was started and then only stepped *)

Lemma on_in_sock_fields batch c :
  ∃ c', on_in_sock batch c = Ret tt c'
    ∧ report_hosts_ c' = (λ h, (send_message_dontwait batch h).1) <$> report_hosts_ c
    ∧ coordinator_conf_ c' = coordinator_conf_ c
    ∧ poller_shutdown_flag c' = poller_shutdown_flag c
    ∧ ticker (globals_ c') = ticker (globals_ c)
    ∧ nn_bound (globals_ c') = nn_bound (globals_ c)
    ∧ threads (globals_ c') = threads (globals_ c).
Proof.
  unfold on_in_sock, for_each_report_host, bind, gets.
  rewrite for_hosts_process_batch. eexists. split; [done|].
  split_and!; try done.
  apply (foldl_insert_map_to_list (λ h, (send_message_dontwait batch h).1)).
Qed.

Lemma poller_handle_hosts ev c c' :
  poller_handle ev c = Ret tt c' →
  ∀ k h', report_hosts_ c' !! k = Some h' →
    host_born h' ∨ ∃ h, report_hosts_ c !! k = Some h ∧ (h' = h ∨ host_step h h').
Proof.
  intros Hh k h' Hk'. destruct ev as [now|now batch|now req].
  - injection Hh as <-. right. eauto.
  - change (on_in_sock batch (at_time now c) = Ret tt c') in Hh.
    destruct (on_in_sock_fields batch (at_time now c)) as (c1 & Hrun & Hhosts & _).
    rewrite Hrun in Hh. injection Hh as <-.
    rewrite Hhosts, lookup_fmap in Hk'. simpl in Hk'.
    destruct (report_hosts_ c !! k) as [h|] eqn:Hk; [|done].
    injection Hk' as <-. right. exists h. split; [done|]. right. constructor.
  - change (on_control_sock req (at_time now c) = Ret tt c') in Hh.
    apply on_control_sock_ret_inv in Hh as [Hd|(message & c1 & Hd & ->)]; last first.
    { apply control_dispatch_throw_frame in Hd as (Hhosts & _). simpl in *.
      rewrite Hhosts in Hk'. right. eauto. }
    destruct req as [func| |report|k0|k0|type].
    + apply call_request_ret in Hd as ->. right. eauto.
    + unfold control_dispatch, for_each_report_host in Hd.
      apply bind_ret_inv in Hd as ([] & c1 & Hloop & Hd).
      apply bind_ret_inv in Hloop as (hosts & c0 & [= <- <-] & Hloop).
      apply bind_ret_inv in Hd as ([] & c2 & [= <-] & Hd).
      apply control_send_ret in Hd as ->. simpl in Hk'.
      destruct (for_hosts_ret_lookup _ _ _ _ Hloop k h' Hk')
        as [Hk|(h & g & g' & Hin%elem_of_map_to_list & Hsh)].
      * right. eauto.
      * right. exists h. split; [done|]. right. by econstructor.
    + unfold control_dispatch in Hd.
      apply bind_ret_inv in Hd as (hosts & c2 & [= <- <-] & Hd).
      apply bind_ret_inv in Hd as (cconf & c2 & [= <- <-] & Hd).
      apply bind_ret_inv in Hd as (rh & c2 & Hnew & Hd).
      apply on_globals_ret_inv in Hnew as (g1 & Hnew & ->).
      match type of Hnew with
      | new_report_host ?cf ?g = _ =>
          destruct (new_report_host_cases cf g) as [[e Hc]|[Hc _]]; rewrite Hc in Hnew; [done|]
      end.
      injection Hnew as <- <-.
      apply bind_ret_inv in Hd as (rh' & c3 & Hst & Hd).
      apply try_catch_ret_inv in Hst as [Hst|(e & c4 & _ & Hst)]; last first.
      { by apply bind_ret_inv in Hst as (? & ? & _ & ?). }
      apply on_globals_ret_inv in Hst as (g2 & Hst & ->).
      apply bind_ret_inv in Hd as ([] & c4 & Hem & Hd).
      apply control_send_ret in Hd as ->.
      match type of Hem with
      | context [?m !! ?key] => destruct (m !! key) eqn:Hk0
      end.
      { apply on_globals_ret_inv in Hem as (g3 & Hdel & _).
        apply delete_report_host_ret in Hdel as [Hdel _].
        apply startup_ret in Hst as (_ & Ht & _). congruence. }
      injection Hem as <-. simpl in Hk'.
      destruct (decide (report_name report = k)) as [<-|Hne].
      * rewrite lookup_insert_eq in Hk'. injection Hk' as <-.
        left. by eexists _, _, _, _.
      * rewrite lookup_insert_ne in Hk' by done. right. eauto.
    + apply delete_report_ret in Hd as [_ [(_ & Hhosts & _)|(h & tid & _ & _ & _ & Hhosts & _)]];
        rewrite Hhosts in Hk'.
      * right. eauto.
      * apply lookup_delete_Some in Hk' as [_ Hk']. right. eauto.
    + unfold control_dispatch in Hd.
      apply bind_ret_inv in Hd as (hosts & c2 & [= <- <-] & Hd).
      match type of Hd with
      | context [?m !! ?key] => destruct (m !! key) as [h|] eqn:Hk0
      end.
      * apply bind_ret_inv in Hd as (r & c2 & Hcall & Hd).
        apply on_globals_ret_inv in Hcall as (g & Hcall & ->).
        apply bind_ret_inv in Hd as ([] & c3 & [= <-] & Hd).
        apply control_send_ret in Hd as ->. simpl in Hk'.
        destruct (decide (k0 = k)) as [<-|Hne].
        -- rewrite lookup_insert_eq in Hk'. injection Hk' as <-.
           right. exists h. split; [done|]. right. by econstructor.
        -- rewrite lookup_insert_ne in Hk' by done. right. eauto.
      * apply control_send_ret in Hd as ->. right. eauto.
    + done.
Qed.

Lemma host_poll_hosts k0 ev c c' :
  host_poll k0 ev c = Ret tt c' →
  ∀ k h', report_hosts_ c' !! k = Some h' →
    ∃ h, report_hosts_ c !! k = Some h ∧ (h' = h ∨ host_step h h').
Proof.
  unfold host_poll. intros Hd k h' Hk'.
  apply bind_ret_inv in Hd as (hosts & c2 & [= <- <-] & Hd).
  apply bind_ret_inv in Hd as (g & c2 & [= <- <-] & Hd).
  destruct (report_hosts_ c !! k0) as [h|] eqn:Hk0; [|injection Hd as <-; eauto].
  destruct (worker_running h (globals_ c)); [|injection Hd as <-; eauto].
  apply bind_ret_inv in Hd as (h1 & c2 & Hw & [= <-]).
  apply on_globals_ret_inv in Hw as (g & Hw & ->). simpl in Hk'.
  destruct (decide (k0 = k)) as [<-|Hne].
  - rewrite lookup_insert_eq in Hk'. injection Hk' as <-.
    exists h. split; [done|]. right. destruct ev; by econstructor.
  - rewrite lookup_insert_ne in Hk' by done. eauto.
Qed.

(** A property that every started host has and that no step of a host
    destroys holds of every host of the registry, in every run. *)
Lemma process_run_hosts_invariant (Q : report_host___new_thread_t → Prop) evs c c' :
  (∀ h, host_born h → Q h) →
  (∀ h h', host_step h h' → Q h → Q h') →
  (∀ k h, report_hosts_ c !! k = Some h → Q h) →
  process_run evs c = Ret tt c' →
  ∀ k h, report_hosts_ c' !! k = Some h → Q h.
Proof.
  intros Hborn Hstep. revert c.
  induction evs as [|[ev|k0 ev] evs IH]; intros c Hc Hrun; simpl in Hrun.
  - by injection Hrun as <-.
  - unfold bind at 1, gets in Hrun.
    destruct (poller_shutdown_flag c); [by apply (IH c)|].
    apply bind_ret_inv in Hrun as ([] & c1 & Hh & Hrun).
    apply (IH c1); [|done]. intros k h' Hk'.
    destruct (poller_handle_hosts ev c c1 Hh k h' Hk') as [?|(h & Hk & [->|?])]; eauto.
  - apply bind_ret_inv in Hrun as ([] & c1 & Hh & Hrun).
    apply (IH c1); [|done]. intros k h' Hk'.
    destruct (host_poll_hosts k0 ev c c1 Hh k h' Hk') as (h & Hk & [->|?]); eauto.
Qed.

Lemma uint64_add_range a b : 0 ≤ uint64_add a b < 2 ^ 64.
Proof. unfold uint64_add. apply Z.mod_pos_bound. lia. Qed.

(** [X12] The queue of a host never holds more than [nn_packets_buffer]
    batch pointers, and [packets_received] stays a 64-bit number: in every run
    of the process that starts without hosts, for every host of the
    registry. *)
Theorem host_queue_stays_bounded c0 evs c :
  fresh_coordinator c0 →
  process_run evs c0 = Ret tt c →
  ∀ k h, report_hosts_ c !! k = Some h →
    (length (packets_sock_ h) ≤ nn_packets_buffer (conf_ h))%nat
    ∧ 0 ≤ packets_received h < 2 ^ 64.
Proof.
  intros (Hempty & _) Hrun.
  apply (process_run_hosts_invariant
           (λ h, (length (packets_sock_ h) ≤ nn_packets_buffer (conf_ h))%nat
                 ∧ 0 ≤ packets_received h < 2 ^ 64) evs c0 c); [| | |done].
  - intros h (report & conf & g & g' & Hst).
    apply startup_ret_fields in Hst as (_ & _ & _ & (r & _ & ->) & _). simpl. lia.
  - intros h h' Hstep [Hq Hr]. destruct Hstep as [batch h| | | |].
    + unfold send_message_dontwait. case_decide; simpl; [|done].
      rewrite length_app. simpl. split; [lia|done].
    + match goal with Hw : worker_tick _ _ _ = _ |- _ => revert Hw end.
      unfold worker_tick. destruct (report_ h); [|done].
      destruct (tick_now _ _); [|done]. by intros [= <- _].
    + match goal with Hw : worker_packets _ _ _ = _ |- _ => revert Hw end.
      unfold worker_packets. destruct (packets_sock_ h) as [|b q] eqn:Hqueue.
      { intros [= <- _]. by rewrite Hqueue. }
      mstep. destruct (batches g !! b); [|done]. destruct (report_ h); [|done].
      destruct (add_multi _ _ _); [|done]. intros [= <- _]. simpl.
      split; [simpl in Hq; lia|apply uint64_add_range].
    + match goal with Hw : call_with_report _ _ _ = _ |- _ => revert Hw end.
      unfold call_with_report, worker_reqrep. mstep.
      destruct (worker_running h g); [|done]. destruct (report_ h); [|done].
      destruct (get_snapshot_func _) as [[]|]; [|done]. by intros [= <- _].
    + match goal with Hw : shutdown _ _ = _ |- _ =>
        apply shutdown_ret_fields in Hw as (? & ? & _ & _ & _ & -> & _) end.
      done.
  - intros k h. by rewrite Hempty, lookup_empty.
Qed.

(** *** A host draining its queue *)

Lemma set_globals_same c : set_globals_ (globals_ c) c = c.
Proof. by destruct c. Qed.

Lemma host_poll_packets_step c k h now p q b r r1 :
  report_hosts_ c !! k = Some h →
  worker_running h (globals_ c) = true →
  packets_sock_ h = p :: q →
  batches (globals_ c) !! p = Some b →
  report_ h = Some r →
  add_multi (packets b) (packet_count b) r = Done r1 →
  host_poll k (host_packets_readable now) c
  = Ret tt (set_report_hosts_
              (insert k (set_report_ (Some r1)
                           (set_packets_received
                              (uint64_add (packets_received h) (packet_count b))
                              (set_packets_sock_ q h)))) c).
Proof.
  intros Hk Hrun Hq Hb Hr Hadd. unfold host_poll, worker_packets. mstep.
  rewrite Hk. simpl. rewrite Hrun, Hq. simpl. rewrite Hb, Hr. simpl. rewrite Hadd. simpl.
  by rewrite set_globals_same.
Qed.

Lemma host_drains_queue bs : ∀ c k h r r' nows,
  report_hosts_ c !! k = Some h →
  worker_running h (globals_ c) = true →
  report_ h = Some r →
  0 ≤ packets_received h < 2 ^ 64 →
  length nows = length bs →
  Forall2 (λ p b, batches (globals_ c) !! p = Some b) (packets_sock_ h) bs →
  feed_batches bs r = Done r' →
  ∃ c' h',
    process_run ((λ now, host_thread k (host_packets_readable now)) <$> nows) c = Ret tt c'
    ∧ report_hosts_ c' = <[k := h']> (report_hosts_ c)
    ∧ globals_ c' = globals_ c
    ∧ poller_shutdown_flag c' = poller_shutdown_flag c
    ∧ packets_sock_ h' = []
    ∧ report_ h' = Some r'
    ∧ packets_received h'
      = (packets_received h + foldr Z.add 0 (packet_count <$> bs)) `mod` 2 ^ 64
    ∧ conf_ h' = conf_ h ∧ t_ h' = t_ h ∧ ticker_chan_ h' = ticker_chan_ h.
Proof.
  induction bs as [|b bs IH]; intros c k h r r' nows Hk Hrun Hr Hrange Hlen Hheap Hfeed.
  - destruct nows; [|done]. apply Forall2_nil_inv_r in Hheap.
    injection Hfeed as <-. exists c, h. simpl.
    rewrite Z.add_0_r, Z.mod_small by done. split_and!; try done.
    by rewrite insert_id.
  - destruct nows as [|now nows]; [done|]. injection Hlen as Hlen.
    apply Forall2_cons_inv_r in Hheap as (p & q & Hp & Hheap & Hq).
    simpl in Hfeed.
    destruct (add_multi (packets b) (packet_count b) r) as [r1|] eqn:Hadd; [|done].
    set (h1 := set_report_ (Some r1)
                 (set_packets_received (uint64_add (packets_received h) (packet_count b))
                    (set_packets_sock_ q h))).
    pose proof (host_poll_packets_step c k h now p q b r r1 Hk Hrun Hq Hp Hr Hadd) as Hstep.
    fold h1 in Hstep.
    destruct (IH (set_report_hosts_ (insert k h1) c) k h1 r1 r' nows)
      as (c' & h' & Hrest & Hhosts & Hg & Hflag & Hq' & Hr' & Hcount & Hconf & Ht & Hchan);
      [by apply lookup_insert_eq|done|done|apply uint64_add_range|done|done|done|].
    exists c', h'. split_and!; try done.
    + rewrite fmap_cons. simpl. erewrite bind_eq_ret by exact Hstep. exact Hrest.
    + rewrite Hhosts. simpl. by rewrite insert_insert_eq.
    + rewrite Hcount. simpl. unfold uint64_add.
      rewrite Zplus_mod_idemp_l. by rewrite <-Z.add_assoc.
Qed.

(** [X13] A host works its queue off in arrival order and counts what it
    takes.  When the thread of a registered, running host handles its packets
    socket once per queued pointer, the batches are fed to the report oldest
    first; if the report accepts them all, the queue ends empty, the report
    is the result of feeding them in that order, [packets_received] has grown
    by the sum of their [packet_count]s modulo 2^64, and nothing else in the
    process has changed. *)
Theorem host_drains_queue_in_order c k h r r' bs nows :
  report_hosts_ c !! k = Some h →
  worker_running h (globals_ c) = true →
  report_ h = Some r →
  0 ≤ packets_received h < 2 ^ 64 →
  length nows = length bs →
  Forall2 (λ p b, batches (globals_ c) !! p = Some b) (packets_sock_ h) bs →
  feed_batches bs r = Done r' →
  ∃ c' h',
    process_run ((λ now, host_thread k (host_packets_readable now)) <$> nows) c = Ret tt c'
    ∧ report_hosts_ c' = <[k := h']> (report_hosts_ c)
    ∧ globals_ c' = globals_ c
    ∧ poller_shutdown_flag c' = poller_shutdown_flag c
    ∧ packets_sock_ h' = []
    ∧ report_ h' = Some r'
    ∧ packets_received h'
      = (packets_received h + foldr Z.add 0 (packet_count <$> bs)) `mod` 2 ^ 64
    ∧ conf_ h' = conf_ h ∧ t_ h' = t_ h ∧ ticker_chan_ h' = ticker_chan_ h.
Proof. apply host_drains_queue. Qed.

(** *** The loop *)

Lemma poller_loop_cons ev evs c :
  poller_loop (ev :: evs) c
  = match poller_handle ev c with
    | Ret _ c1 => if poller_shutdown_flag c1 then Ret tt c1 else poller_loop evs c1
    | Throw e s => Throw e s
    | Fatal f s => Fatal f s
    end.
Proof.
  simpl. unfold bind at 1. destruct (poller_handle ev c) as [[] c1|e c1|f c1]; [|done..].
  unfold bind, gets, ret. by destruct (poller_shutdown_flag c1).
Qed.

Lemma process_run_cons_coordinator ev evs c :
  poller_shutdown_flag c = false →
  process_run (coordinator_thread ev :: evs) c
  = match poller_handle ev c with
    | Ret _ c1 => process_run evs c1
    | Throw e s => Throw e s
    | Fatal f s => Fatal f s
    end.
Proof.
  intros Hflag. simpl. unfold bind at 1, gets. rewrite Hflag. unfold bind.
  by destruct (poller_handle ev c).
Qed.

(** [X15] [shutdown()] of the coordinator stops everything.  Called in any
    state the process reaches while the loop runs, it returns; the client was
    answered OK, every thread ever started for a host has ended, the
    coordinator's tick subscription is gone, and from then on every [request]
    waits for ever. *)
Theorem coordinator_shutdown_stops_everything c0 evs c now tick_chan :
  fresh_coordinator c0 →
  process_run evs c0 = Ret tt c →
  poller_shutdown_flag c = false →
  ∃ c', coordinator_shutdown now tick_chan c = Ret tt c'
    ∧ responses (trace (globals_ c')) = responses (trace (globals_ c)) ++ [ok_response]
    ∧ (∀ tid st, threads (globals_ c') !! tid = Some st → st = Exited)
    ∧ ticker (globals_ c') !! chan_name tick_chan = None
    ∧ ∀ now' req, request now' req c' = Fatal BlockedForever c'.
Proof.
  intros Hfresh Hrun Hflag.
  assert (Hinv : running_invariant (at_time now c)).
  { apply running_invariant_at_time.
    eapply process_run_invariant; [by apply fresh_coordinator_invariant|done..]. }
  destruct (shutdown_request_joins_every_host (at_time now c) Hinv)
    as (c1 & Hloop & Hd & _ & Hthr & _).
  assert (Hsilent : responses (trace (globals_ c1)) = responses (trace (globals_ c))).
  { assert (Hs : silent (λ c, trace (globals_ c)) (for_each_report_host shutdown)).
    { unfold for_each_report_host. silent. apply silent_for_hosts. auto with silent. }
    specialize (Hs (at_time now c)). by rewrite Hloop in Hs. }
  set (c2 := replied ok_response (set_shutdown_flag c1)) in *.
  assert (Hreq : request now coordinator_request___shutdown_t c = Ret ok_response c2).
  { rewrite (request_running _ _ _ Hflag). unfold on_control_sock, try_catch. rewrite Hd.
    simpl. by rewrite responses_app, Hsilent, lookup_app_r, Nat.sub_diag. }
  exists (final_state (on_globals (unsubscribe tick_chan) c2)).
  split_and!.
  - unfold coordinator_shutdown. erewrite bind_eq_ret by exact Hreq. reflexivity.
  - simpl. rewrite !responses_app. simpl. by rewrite Hsilent, !app_nil_r.
  - exact Hthr.
  - simpl. apply lookup_delete_eq.
  - intros now' req. unfold request, bind, gets, stop. reflexivity.
Qed.

(** *** Names and addresses in use belong to registered hosts *)

Lemma same_identity_refl h : same_identity h h.
Proof. by repeat split. Qed.

Lemma worker_tick_ret_identity now h g h' g' :
  worker_tick now h g = Ret h' g' → g' = g ∧ same_identity h h'.
Proof.
  unfold worker_tick. destruct (report_ h); [|done].
  destruct (tick_now now _); [|done]. by intros [= <- <-].
Qed.

Lemma worker_packets_ret_identity now h g h' g' :
  worker_packets now h g = Ret h' g' → g' = g ∧ same_identity h h'.
Proof.
  unfold worker_packets. destruct (packets_sock_ h) as [|batch q].
  { by intros [= <- <-]. }
  mstep. destruct (batches g !! batch); [|done].
  destruct (report_ h); [|done].
  destruct (add_multi _ _ _); [|done]. by intros [= <- <-].
Qed.

Lemma call_with_report_ret_identity {A} (func : report_host_call_func_t A) h g r g' :
  call_with_report func h g = Ret r g' → g' = g ∧ same_identity h r.1.
Proof.
  unfold call_with_report, worker_reqrep. mstep.
  destruct (worker_running h g); [|done].
  destruct (report_ h) as [rep|]; [|done].
  destruct (func rep) as [[rep' a]|]; [|done]. by intros [= <- <-].
Qed.

Lemma same_identity_send_message batch h : same_identity h (send_message_dontwait batch h).1.
Proof. unfold send_message_dontwait. case_decide; by repeat split. Qed.

Lemma get_report_snapshot_ret_identity k c c' :
  control_dispatch (coordinator_request___get_report_snapshot_t k) c = Ret tt c' →
  ticker (globals_ c') = ticker (globals_ c)
  ∧ nn_bound (globals_ c') = nn_bound (globals_ c)
  ∧ (report_hosts_ c' = report_hosts_ c
     ∨ ∃ h h', report_hosts_ c !! k = Some h ∧ same_identity h h'
               ∧ report_hosts_ c' = <[k := h']> (report_hosts_ c)).
Proof.
  unfold control_dispatch. intros Hd.
  apply bind_ret_inv in Hd as (hosts & c2 & [= <- <-] & Hd).
  destruct (report_hosts_ c !! k) as [h|] eqn:Hk.
  - apply bind_ret_inv in Hd as (r & c2 & Hcall & Hd).
    apply on_globals_ret_inv in Hcall as (g & Hcall & ->).
    apply call_with_report_ret_identity in Hcall as [-> Hsame].
    apply bind_ret_inv in Hd as ([] & c3 & [= <-] & Hd).
    apply control_send_ret in Hd as ->. simpl.
    split_and!; [done..|]. right. eauto.
  - apply control_send_ret in Hd as ->. split_and!; [done..|]. by left.
Qed.

Lemma host_poll_ret_identity k ev c c' :
  host_poll k ev c = Ret tt c' →
  globals_ c' = globals_ c
  ∧ (report_hosts_ c' = report_hosts_ c
     ∨ ∃ h h', report_hosts_ c !! k = Some h ∧ same_identity h h'
               ∧ report_hosts_ c' = <[k := h']> (report_hosts_ c)).
Proof.
  unfold host_poll. intros Hd.
  apply bind_ret_inv in Hd as (hosts & c2 & [= <- <-] & Hd).
  apply bind_ret_inv in Hd as (g & c2 & [= <- <-] & Hd).
  destruct (report_hosts_ c !! k) as [h|] eqn:Hk; [|injection Hd as <-; eauto].
  destruct (worker_running h (globals_ c)); [|injection Hd as <-; eauto].
  apply bind_ret_inv in Hd as (h' & c2 & Hw & [= <-]).
  apply on_globals_ret_inv in Hw as (g & Hw & ->).
  assert (g = globals_ c ∧ same_identity h h') as [-> Hsame].
  { destruct ev; [by eapply worker_tick_ret_identity|by eapply worker_packets_ret_identity]. }
  simpl. split; [done|]. right. eauto.
Qed.

Lemma delete_report_ret_fields k c c' :
  control_dispatch (coordinator_request___delete_report_t k) c = Ret tt c' →
  (report_hosts_ c !! k = None
   ∧ report_hosts_ c' = report_hosts_ c
   ∧ ticker (globals_ c') = ticker (globals_ c)
   ∧ nn_bound (globals_ c') = nn_bound (globals_ c))
  ∨ ∃ h chan, report_hosts_ c !! k = Some h
      ∧ ticker_chan_ h = Some chan
      ∧ report_hosts_ c' = delete k (report_hosts_ c)
      ∧ ticker (globals_ c') = delete (chan_name chan) (ticker (globals_ c))
      ∧ nn_bound (globals_ c')
        = nn_bound (globals_ c) ∖ {[nn_shutdown (conf_ h)]} ∖ {[nn_reqrep (conf_ h)]}
            ∖ {[nn_packets (conf_ h)]}.
Proof.
  intros Hd. destruct (report_hosts_ c !! k) as [h|] eqn:Hk.
  - right. pose proof Hd as Hd'. unfold control_dispatch in Hd'.
    apply bind_ret_inv in Hd' as (hosts & c2 & [= <- <-] & Hd'). rewrite Hk in Hd'.
    apply bind_ret_inv in Hd' as (h' & c2 & Hsh & _).
    apply on_globals_ret_inv in Hsh as (g & Hsh & _).
    apply shutdown_ret_fields in Hsh as (tid & chan & Ht & Hrun & Hchan & _).
    destruct (delete_report_found c k h tid chan Hk Ht Hrun Hchan)
      as (c4 & Hd2 & ? & _ & _ & _ & ? & ? & _).
    rewrite Hd in Hd2. injection Hd2 as <-. exists h, chan. done.
  - left. unfold control_dispatch in Hd.
    apply bind_ret_inv in Hd as (hosts & c2 & [= <- <-] & Hd). rewrite Hk in Hd.
    by apply control_send_ret in Hd as ->.
Qed.

Lemma add_report_throw_resources report c e c1 :
  control_dispatch (coordinator_request___add_report_t report) c = Throw e c1 →
  ticker (globals_ c1) = ticker (globals_ c) ∧ nn_bound (globals_ c1) = nn_bound (globals_ c).
Proof.
  unfold control_dispatch. intros Hd.
  apply bind_throw_inv in Hd as [Hd|(hosts & c2 & [= <- <-] & Hd)]; [done|].
  apply bind_throw_inv in Hd as [Hd|(conf & c2 & [= <- <-] & Hd)]; [done|].
  apply bind_throw_inv in Hd as [Hd|(rh & c2 & Hnew & Hd)].
  { apply on_globals_throw_inv in Hd as (g & Hnew & ->). simpl.
    match type of Hnew with
    | new_report_host ?cf ?g0 = _ =>
        destruct (new_report_host_cases cf g0) as [[e' Hc]|[Hc _]]; rewrite Hc in Hnew; [|done]
    end.
    by injection Hnew as _ <-. }
  apply on_globals_ret_inv in Hnew as (g & Hnew & ->).
  match type of Hnew with
  | new_report_host ?cf ?g0 = _ =>
      destruct (new_report_host_cases cf g0) as [[e' Hc]|(Hc & Hp & Hr & Hs)];
        rewrite Hc in Hnew; [done|]
  end.
  injection Hnew as <- <-.
  apply bind_throw_inv in Hd as [Hd|(rh' & c3 & Hst & Hd)].
  { apply try_catch_throw_inv in Hd as (e1 & c3 & Hst & Hd).
    apply on_globals_throw_inv in Hst as (g2 & Hst & ->).
    apply startup_throw in Hst as [-> _].
    apply bind_throw_inv in Hd as [Hd|([] & c4 & Hdel & [= <- <-])].
    { apply on_globals_throw_inv in Hd as (g3 & Hd & _).
      by apply no_throw_delete_report_host in Hd. }
    apply on_globals_ret_inv in Hdel as (g3 & Hdel & ->).
    match type of Hdel with
    | delete_report_host ?hh ?gg = _ =>
        destruct (delete_report_host_fields hh gg eq_refl) as (g4 & Hdel' & Htick & Hb & _)
    end.
    rewrite Hdel' in Hdel. injection Hdel as <-. simpl.
    rewrite Htick, Hb. simpl. split; [done|]. set_solver. }
  apply bind_throw_inv in Hd as [Hd|([] & c4 & _ & Hd)]; [|done].
  match type of Hd with
  | context [?m !! ?key] => destruct (m !! key)
  end; [|done].
  apply on_globals_throw_inv in Hd as (g3 & Hd & _).
  by apply no_throw_delete_report_host in Hd.
Qed.

Lemma control_dispatch_throw_resources req c e c1 :
  control_dispatch req c = Throw e c1 →
  ticker (globals_ c1) = ticker (globals_ c) ∧ nn_bound (globals_ c1) = nn_bound (globals_ c).
Proof.
  destruct req as [func| |report|k|k|type]; intros Hd.
  - unfold control_dispatch in Hd.
    apply bind_throw_inv in Hd as [Hd|(this & c2 & [= <- <-] & Hd)]; [done|].
    destruct (func c); [done|]. by injection Hd as _ <-.
  - by apply shutdown_request_no_throw in Hd.
  - by apply add_report_throw_resources in Hd.
  - by apply delete_report_no_throw in Hd.
  - by apply get_report_snapshot_no_throw in Hd.
  - by injection Hd as _ <-.
Qed.

Lemma resources_invariant_same c c' :
  resources_invariant c →
  ticker (globals_ c') = ticker (globals_ c) →
  nn_bound (globals_ c') = nn_bound (globals_ c) →
  (∀ k, match report_hosts_ c !! k, report_hosts_ c' !! k with
        | Some h, Some h' => same_identity h h'
        | None, None => True
        | _, _ => False
        end) →
  resources_invariant c'.
Proof.
  intros [Hchan Htick Hbound] Ht Hb Hsame. split.
  - intros k h' Hk'. specialize (Hsame k). rewrite Hk' in Hsame.
    destruct (report_hosts_ c !! k) as [h|] eqn:Hk; [|done].
    destruct Hsame as (Hc & _ & Hch). rewrite Hc, Hch. eauto.
  - intros n. rewrite Ht. intros Hn Hlike.
    destruct (Htick n Hn Hlike) as (k & h & Hk & Hname).
    specialize (Hsame k). rewrite Hk in Hsame.
    destruct (report_hosts_ c' !! k) as [h'|] eqn:Hk'; [|done].
    destruct Hsame as (Hc & _). exists k, h'. by rewrite Hc.
  - intros a. rewrite Hb. intros Ha Hlike.
    destruct (Hbound a Ha Hlike) as (k & h & Hk & Hin).
    specialize (Hsame k). rewrite Hk in Hsame.
    destruct (report_hosts_ c' !! k) as [h'|] eqn:Hk'; [|done].
    destruct Hsame as (Hc & _). exists k, h'. unfold endpoints in *. by rewrite Hc.
Qed.

Lemma resources_invariant_frame c c' :
  resources_invariant c →
  ticker (globals_ c') = ticker (globals_ c) →
  nn_bound (globals_ c') = nn_bound (globals_ c) →
  report_hosts_ c' = report_hosts_ c →
  resources_invariant c'.
Proof.
  intros Hinv Ht Hb Hhosts. apply (resources_invariant_same c); [done..|].
  intros k. rewrite Hhosts. destruct (report_hosts_ c !! k); [apply same_identity_refl|done].
Qed.

Lemma resources_invariant_insert c c' k h h' :
  resources_invariant c →
  ticker (globals_ c') = ticker (globals_ c) →
  nn_bound (globals_ c') = nn_bound (globals_ c) →
  report_hosts_ c !! k = Some h → same_identity h h' →
  report_hosts_ c' = <[k := h']> (report_hosts_ c) →
  resources_invariant c'.
Proof.
  intros Hinv Ht Hb Hk Hsame Hhosts. apply (resources_invariant_same c); [done..|].
  intros k'. rewrite Hhosts. destruct (decide (k = k')) as [<-|Hne].
  - by rewrite lookup_insert_eq, Hk.
  - rewrite lookup_insert_ne by done.
    destruct (report_hosts_ c !! k'); [apply same_identity_refl|done].
Qed.

Lemma resources_invariant_add c c' k h' interval :
  resources_invariant c →
  report_hosts_ c !! k = None →
  report_hosts_ c' = <[k := h']> (report_hosts_ c) →
  ticker_chan_ h' = Some {| chan_name := name (conf_ h'); chan_interval := interval |} →
  ticker (globals_ c') = <[name (conf_ h') := interval]> (ticker (globals_ c)) →
  nn_bound (globals_ c')
  = {[nn_shutdown (conf_ h')]} ∪ ({[nn_reqrep (conf_ h')]}
      ∪ ({[nn_packets (conf_ h')]} ∪ nn_bound (globals_ c))) →
  resources_invariant c'.
Proof.
  intros [Hchan Htick Hbound] Hk Hhosts Hch Ht Hb.
  assert (Hold : ∀ k0 h0, report_hosts_ c !! k0 = Some h0 → report_hosts_ c' !! k0 = Some h0).
  { intros k0 h0 Hk0. rewrite Hhosts, lookup_insert_ne; [done|]. congruence. }
  split.
  - intros k0 h0. rewrite Hhosts. destruct (decide (k = k0)) as [<-|Hne].
    + rewrite lookup_insert_eq. intros [= <-]. eauto.
    + rewrite lookup_insert_ne by done. apply Hchan.
  - intros n. rewrite Ht. destruct (decide (name (conf_ h') = n)) as [<-|Hne].
    + intros _ _. exists k, h'. by rewrite Hhosts, lookup_insert_eq.
    + rewrite lookup_insert_ne by done. intros Hn Hlike.
      destruct (Htick n Hn Hlike) as (k0 & h0 & Hk0 & Hname). eauto.
  - intros a. rewrite Hb. intros Ha Hlike.
    destruct (decide (a ∈ endpoints h')) as [Hin|Hnin].
    + exists k, h'. by rewrite Hhosts, lookup_insert_eq.
    + assert (a ∈ nn_bound (globals_ c)) as Ha' by (unfold endpoints in Hnin; set_solver).
      destruct (Hbound a Ha' Hlike) as (k0 & h0 & Hk0 & Hin). eauto.
Qed.

Lemma resources_invariant_delete c c' k h chan :
  resources_invariant c →
  report_hosts_ c !! k = Some h → ticker_chan_ h = Some chan →
  report_hosts_ c' = delete k (report_hosts_ c) →
  ticker (globals_ c') = delete (chan_name chan) (ticker (globals_ c)) →
  nn_bound (globals_ c')
  = nn_bound (globals_ c) ∖ {[nn_shutdown (conf_ h)]} ∖ {[nn_reqrep (conf_ h)]}
      ∖ {[nn_packets (conf_ h)]} →
  resources_invariant c'.
Proof.
  intros [Hchan Htick Hbound] Hk Hch Hhosts Ht Hb.
  destruct (Hchan k h Hk) as (chan' & Hch' & Hname).
  assert (chan' = chan) as -> by congruence.
  split.
  - intros k0 h0. rewrite Hhosts. intros [_ Hk0]%lookup_delete_Some. by apply (Hchan k0).
  - intros n. rewrite Ht. intros Hn Hlike.
    destruct (decide (chan_name chan = n)) as [<-|Hne].
    { rewrite lookup_delete_eq in Hn. by destruct Hn. }
    rewrite lookup_delete_ne in Hn by done.
    destruct (Htick n Hn Hlike) as (k0 & h0 & Hk0 & Hname0).
    exists k0, h0. split; [|done]. rewrite Hhosts. apply lookup_delete_Some.
    split; [|done]. intros <-. congruence.
  - intros a. rewrite Hb. intros Ha Hlike.
    assert (a ∈ nn_bound (globals_ c) ∧ a ∉ endpoints h) as [Ha' Hnin]
      by (unfold endpoints; set_solver).
    destruct (Hbound a Ha' Hlike) as (k0 & h0 & Hk0 & Hin).
    exists k0, h0. split; [|done]. rewrite Hhosts. apply lookup_delete_Some.
    split; [|done]. intros <-. congruence.
Qed.

Lemma on_control_sock_resources req c c' :
  resources_invariant c →
  on_control_sock req c = Ret tt c' →
  poller_shutdown_flag c' = false →
  resources_invariant c'.
Proof.
  intros Hinv Hh Hflag.
  apply on_control_sock_ret_inv in Hh as [Hd|(message & c1 & Hd & ->)]; last first.
  { pose proof (control_dispatch_throw_frame _ _ _ _ Hd) as (? & _).
    apply control_dispatch_throw_resources in Hd as [? ?].
    by apply (resources_invariant_frame c). }
  destruct req as [func| |report|k|k|type].
  - apply call_request_ret in Hd as ->. by apply (resources_invariant_frame c).
  - apply shutdown_request_ret in Hd. congruence.
  - apply add_report_ret_fields in Hd
      as (r & Hk & _ & _ & _ & _ & _ & _ & Hhosts & _ & _ & _ & Htick & Hb & _).
    eapply (resources_invariant_add c); [done|exact Hk|exact Hhosts|..]; simpl; done.
  - apply delete_report_ret_fields in Hd as [(? & ? & ? & ?)|(h & chan & ? & ? & ? & ? & ?)].
    + by apply (resources_invariant_frame c).
    + by eapply (resources_invariant_delete c).
  - apply get_report_snapshot_ret_identity in Hd as (? & ? & [?|(h & h' & ? & ? & ?)]).
    + by apply (resources_invariant_frame c).
    + by eapply (resources_invariant_insert c).
  - done.
Qed.

Lemma poller_handle_resources ev c c' :
  resources_invariant c →
  poller_handle ev c = Ret tt c' →
  poller_shutdown_flag c' = false →
  resources_invariant c'.
Proof.
  intros Hinv Hh Hflag.
  assert (Hinv' : resources_invariant (at_time (poller_now ev) c)) by (by destruct Hinv).
  destruct ev as [now|now batch|now req].
  - by injection Hh as <-.
  - change (on_in_sock batch (at_time now c) = Ret tt c') in Hh.
    destruct (on_in_sock_fields batch (at_time now c))
      as (c1 & Hrun & Hhosts & _ & _ & Ht & Hb & _).
    rewrite Hrun in Hh. injection Hh as <-.
    apply (resources_invariant_same (at_time now c)); [done..|].
    intros k. rewrite Hhosts, lookup_fmap.
    destruct (report_hosts_ (at_time now c) !! k); simpl;
      [apply same_identity_send_message|done].
  - by apply (on_control_sock_resources req (at_time now c)).
Qed.

Lemma host_poll_resources k ev c c' :
  resources_invariant c → host_poll k ev c = Ret tt c' → resources_invariant c'.
Proof.
  intros Hinv (Hg & [?|(h & h' & ? & ? & ?)])%host_poll_ret_identity.
  - apply (resources_invariant_frame c); [done|by rewrite Hg..|done].
  - eapply (resources_invariant_insert c); [done|by rewrite Hg|by rewrite Hg|done..].
Qed.

Lemma process_run_resources evs c c' :
  resources_invariant c →
  process_run evs c = Ret tt c' →
  poller_shutdown_flag c' = false →
  resources_invariant c'.
Proof.
  revert c. induction evs as [|[ev|k ev] evs IH]; intros c Hinv Hrun Hflag; simpl in Hrun.
  - by injection Hrun as <-.
  - unfold bind at 1, gets in Hrun.
    destruct (poller_shutdown_flag c) eqn:Hc.
    { apply process_run_flag in Hrun; [congruence|done]. }
    apply bind_ret_inv in Hrun as ([] & c1 & Hh & Hrun).
    apply (IH c1); [|done..].
    apply (poller_handle_resources ev c); [done..|].
    destruct (poller_shutdown_flag c1) eqn:Hc1; [|done].
    apply process_run_flag in Hrun; [congruence|done].
  - apply bind_ret_inv in Hrun as ([] & c1 & Hp & Hrun).
    apply (IH c1); [|done..]. by apply (host_poll_resources k ev c).
Qed.

Lemma clean_start_resources c : clean_start c → resources_invariant c.
Proof.
  intros ((Hhosts & _) & Hticker & Hbound). split.
  - intros k h. by rewrite Hhosts, lookup_empty.
  - intros n Hn Hlike. by destruct (Hticker n Hn).
  - intros a Ha Hlike. by destruct (Hbound a Ha).
Qed.

Lemma rh_name_like (i : nat) k : host_name_like ("rh/" +:+ pretty i +:+ "/" +:+ k).
Proof. by eexists. Qed.

Lemma rh_endpoint_like buffer i k a :
  a ∈ [nn_packets (rh_conf buffer i k); nn_reqrep (rh_conf buffer i k);
       nn_shutdown (rh_conf buffer i k)] →
  host_address_like a.
Proof.
  intros Hin. repeat (apply elem_of_cons in Hin as [->|Hin]);
    [by eexists..|by apply elem_of_nil in Hin].
Qed.

(** [X16] From a clean start, an [ADD_REPORT] for a name that is not
    registered always works.  In every state the process reaches while the
    coordinator's loop runs (whatever was added and deleted before), if the
    report's name is not in the registry, its [tick_count] is not 0 and
    [ticks_init] accepts it, the handler answers OK and the report is
    registered: the name and the addresses derived for the new host are never
    held by another host. *)
Theorem add_report_of_new_name_succeeds c0 evs c report r :
  clean_start c0 →
  process_run evs c0 = Ret tt c →
  poller_shutdown_flag c = false →
  report_hosts_ c !! report_name report = None →
  tick_count (info report) ≠ 0 →
  ticks_init (clock_monotonic_now (globals_ c)) report = Done r →
  ∃ c', on_control_sock (coordinator_request___add_report_t report) c = Ret tt c'
    ∧ responses (trace (globals_ c')) = responses (trace (globals_ c)) ++ [ok_response]
    ∧ is_Some (report_hosts_ c' !! report_name report)
    ∧ dom (report_hosts_ c') = {[report_name report]} ∪ dom (report_hosts_ c).
Proof.
  intros Hclean Hrun Hflag Hk Htc Hinit.
  assert (Hinv : running_invariant c).
  { eapply process_run_invariant;
      [apply fresh_coordinator_invariant; by destruct Hclean|done..]. }
  assert (Hres : resources_invariant c).
  { eapply process_run_resources; [by apply clean_start_resources|done..]. }
  destruct Hinv as [Hhost _ _]. destruct Hres as [_ Htick Hbound].
  set (conf := rh_conf (nn_report_output_buffer (coordinator_conf_ c))
                 (size (report_hosts_ c)) (report_name report)).
  assert (Hfree : ∀ a, a ∈ [nn_packets conf; nn_reqrep conf; nn_shutdown conf] →
                    a ∉ nn_bound (globals_ c)).
  { intros a Hin Ha.
    destruct (Hbound a Ha (rh_endpoint_like _ _ _ _ Hin)) as (k0 & h0 & Hk0 & Hin0).
    destruct (Hhost k0 h0 Hk0) as (i & tid & Hc0 & _).
    unfold endpoints in Hin0. rewrite Hc0 in Hin0.
    eapply (endpoints_disjoint _ _ _ (report_name report) k0 a); [|done..].
    intros <-. congruence. }
  destruct (add_report_sufficient report c r) as (c' & Hadd); try done.
  - destruct (ticker (globals_ c) !! name conf) eqn:Hn; [|done].
    destruct (Htick (name conf)) as (k0 & h0 & Hk0 & Hname);
      [by eexists|apply rh_name_like|].
    destruct (Hhost k0 h0 Hk0) as (i & tid & Hc0 & _). rewrite Hc0 in Hname.
    apply rh_name_inj in Hname as [_ Heq]. rewrite Heq in Hk0. congruence.
  - apply Hfree. set_solver.
  - apply Hfree. set_solver.
  - apply Hfree. set_solver.
  - exists c'. pose proof (add_report_ret_fields _ _ _ Hadd)
      as (r' & _ & _ & _ & _ & _ & _ & _ & Hhosts & _ & _ & _ & _ & _ & _ & _ & Htr).
    split_and!.
    + unfold on_control_sock, try_catch. by rewrite Hadd.
    + rewrite Htr, responses_app. simpl. done.
    + rewrite Hhosts, lookup_insert_eq. by eexists.
    + by rewrite Hhosts, dom_insert_L.
Qed.

Lemma for_hosts_shutdown_resources l c c' :
  for_hosts shutdown l c = Ret tt c' →
  nn_bound (globals_ c') = nn_bound (globals_ c)
  ∧ (∀ n, is_Some (ticker (globals_ c') !! n) → is_Some (ticker (globals_ c) !! n))
  ∧ (∀ k h chan, (k, h) ∈ l → ticker_chan_ h = Some chan →
       ticker (globals_ c') !! chan_name chan = None)
  ∧ (∀ n, (∀ k h chan, (k, h) ∈ l → ticker_chan_ h = Some chan → chan_name chan ≠ n) →
       ticker (globals_ c') !! n = ticker (globals_ c) !! n).
Proof.
  revert c. induction l as [|[k0 h0] l IH]; intros c Hrun; simpl in Hrun.
  { injection Hrun as <-. split_and!; [done..| |done].
    intros k h chan Hin. by apply elem_of_nil in Hin. }
  apply bind_ret_inv in Hrun as (h0' & c1 & Hf & Hrun).
  apply on_globals_ret_inv in Hf as (g1 & Hf & ->).
  apply bind_ret_inv in Hrun as ([] & c2 & [= <-] & Hrun).
  apply shutdown_ret_fields in Hf as (tid & chan0 & _ & _ & Hch0 & _ & Htick & Hb & _).
  destruct (IH _ Hrun) as (Hb' & Hsub & Hgone & Hkept). simpl in Hb', Hsub, Hkept.
  assert (Hsub' : ∀ n, is_Some (ticker (globals_ c') !! n) → is_Some (ticker g1 !! n))
    by exact Hsub.
  split_and!.
  - by rewrite Hb', Hb.
  - intros n Hn%Hsub'. rewrite Htick in Hn.
    destruct (decide (chan_name chan0 = n)) as [<-|Hne].
    + rewrite lookup_delete_eq in Hn. by destruct Hn.
    + by rewrite lookup_delete_ne in Hn.
  - intros k h chan [[= -> ->]|Hin]%elem_of_cons Hch; [|by eapply Hgone].
    assert (chan = chan0) as -> by congruence.
    destruct (ticker (globals_ c') !! chan_name chan0) eqn:Hn; [|done].
    assert (is_Some (ticker g1 !! chan_name chan0)) as Hs by (apply Hsub'; by eexists).
    rewrite Htick, lookup_delete_eq in Hs. by destruct Hs.
  - intros n Hn. rewrite Hkept.
    + rewrite Htick. apply lookup_delete_ne. apply (Hn k0 h0); [left|done].
    + intros k h chan Hin. apply (Hn k h). by right.
Qed.

(** [X17] What [shutdown()] of the coordinator leaves behind.  From a clean
    start, in every state reached while the loop runs, [shutdown()] returns
    and afterwards the ticker holds no subscription under a host's name (each
    host's thread has removed its own) nor the coordinator's; every report is
    still in the registry, and the hosts' sockets are still bound: they are
    closed by the hosts' destructors only, which [shutdown()] does not run. *)
Theorem shutdown_leaves_no_subscription c0 evs c now tick_chan :
  clean_start c0 →
  process_run evs c0 = Ret tt c →
  poller_shutdown_flag c = false →
  ∃ c', coordinator_shutdown now tick_chan c = Ret tt c'
    ∧ (∀ n, is_Some (ticker (globals_ c') !! n) →
         ¬ host_name_like n ∧ n ≠ chan_name tick_chan)
    ∧ nn_bound (globals_ c') = nn_bound (globals_ c)
    ∧ dom (report_hosts_ c') = dom (report_hosts_ c).
Proof.
  intros Hclean Hrun Hflag.
  assert (Hinv : running_invariant (at_time now c)).
  { apply running_invariant_at_time.
    eapply process_run_invariant;
      [apply fresh_coordinator_invariant; by destruct Hclean|done..]. }
  assert (Hres : resources_invariant c).
  { eapply process_run_resources; [by apply clean_start_resources|done..]. }
  destruct (shutdown_request_joins_every_host (at_time now c) Hinv)
    as (c1 & Hloop & Hd & _ & _ & Hhosts).
  assert (Hsilent : responses (trace (globals_ c1)) = responses (trace (globals_ c))).
  { assert (Hs : silent (λ c, trace (globals_ c)) (for_each_report_host shutdown)).
    { unfold for_each_report_host. silent. apply silent_for_hosts. auto with silent. }
    specialize (Hs (at_time now c)). by rewrite Hloop in Hs. }
  set (c2 := replied ok_response (set_shutdown_flag c1)) in *.
  assert (Hreq : request now coordinator_request___shutdown_t c = Ret ok_response c2).
  { rewrite (request_running _ _ _ Hflag). unfold on_control_sock, try_catch. rewrite Hd.
    simpl. by rewrite responses_app, Hsilent, lookup_app_r, Nat.sub_diag. }
  pose proof Hloop as Hloop'. unfold for_each_report_host in Hloop'.
  apply bind_ret_inv in Hloop' as (hosts & c3 & [= <- <-] & Hloop').
  apply for_hosts_shutdown_resources in Hloop' as (Hb & Hsub & Hgone & _).
  exists (final_state (on_globals (unsubscribe tick_chan) c2)).
  split_and!.
  - unfold coordinator_shutdown. erewrite bind_eq_ret by exact Hreq. reflexivity.
  - simpl. intros n Hn.
    destruct (decide (chan_name tick_chan = n)) as [<-|Hne].
    { rewrite lookup_delete_eq in Hn. by destruct Hn. }
    rewrite lookup_delete_ne in Hn by done. split; [|done].
    intros Hlike. destruct Hres as [Hchan Htick _].
    destruct (Htick n (Hsub n Hn) Hlike) as (k & h & Hk & Hname).
    destruct (Hchan k h Hk) as (chan & Hch & Hcn).
    assert (ticker (globals_ c1) !! chan_name chan = None) as Hnone.
    { eapply (Hgone k h); [|done]. by apply elem_of_map_to_list. }
    rewrite Hcn, Hname in Hnone. rewrite Hnone in Hn. by destruct Hn.
  - simpl. exact Hb.
  - simpl. rewrite Hhosts. by rewrite dom_fmap_L.
Qed.

(** *** From the input socket to a snapshot *)

Lemma process_run_app evs1 evs2 c c1 :
  process_run evs1 c = Ret tt c1 →
  process_run (evs1 ++ evs2) c = process_run evs2 c1.
Proof.
  revert c. induction evs1 as [|[ev|k ev] evs1 IH]; intros c Hrun; simpl in *.
  - by injection Hrun as <-.
  - unfold bind at 1, gets in Hrun. unfold bind at 1, gets.
    destruct (poller_shutdown_flag c); [by apply IH|].
    apply bind_ret_inv in Hrun as ([] & c2 & Hh & Hrun).
    erewrite bind_eq_ret by exact Hh. by apply IH.
  - apply bind_ret_inv in Hrun as ([] & c2 & Hh & Hrun).
    erewrite bind_eq_ret by exact Hh. by apply IH.
Qed.

Lemma poller_handle_in_sock now batch c :
  ∃ c', poller_handle (in_sock_readable now batch) c = Ret tt c'
    ∧ report_hosts_ c' = (λ h, (send_message_dontwait batch h).1) <$> report_hosts_ c
    ∧ poller_shutdown_flag c' = poller_shutdown_flag c
    ∧ threads (globals_ c') = threads (globals_ c)
    ∧ batches (globals_ c') = batches (globals_ c)
    ∧ responses (trace (globals_ c')) = responses (trace (globals_ c)).
Proof.
  change (poller_handle (in_sock_readable now batch) c) with (on_in_sock batch (at_time now c)).
  unfold on_in_sock, for_each_report_host, bind, gets.
  rewrite for_hosts_process_batch. eexists. split; [done|].
  split_and!; try done.
  - apply (foldl_insert_map_to_list (λ h, (send_message_dontwait batch h).1)).
  - simpl. rewrite responses_app.
    assert (∀ l : list (string * report_host___new_thread_t),
              responses (map (λ kh, EvProcessBatch (name (conf_ kh.2)) batch) l) = []) as ->.
    { induction l; [done|]. done. }
    by rewrite app_nil_r.
Qed.

Lemma pushes_fill_the_queue arrivals : ∀ c k h,
  poller_shutdown_flag c = false →
  report_hosts_ c !! k = Some h →
  (length (packets_sock_ h) + length arrivals ≤ nn_packets_buffer (conf_ h))%nat →
  ∃ c1,
    process_run ((λ a : timeval_t * packet_batch_ptr,
                    coordinator_thread (in_sock_readable a.1 a.2)) <$> arrivals) c
    = Ret tt c1
    ∧ report_hosts_ c1 !! k = Some (set_packets_sock_ (packets_sock_ h ++ arrivals.*2) h)
    ∧ poller_shutdown_flag c1 = false
    ∧ threads (globals_ c1) = threads (globals_ c)
    ∧ batches (globals_ c1) = batches (globals_ c)
    ∧ responses (trace (globals_ c1)) = responses (trace (globals_ c)).
Proof.
  induction arrivals as [|[now p] arrivals IH]; intros c k h Hflag Hk Hroom.
  { exists c. simpl. rewrite app_nil_r. split_and!; try done.
    rewrite Hk. f_equal. by destruct h. }
  simpl in Hroom.
  destruct (poller_handle_in_sock now p c) as (c0 & Hh & Hhosts & Hflag0 & Hthr & Hb & Hresp).
  set (h0 := set_packets_sock_ (packets_sock_ h ++ [p]) h).
  assert (Hk0 : report_hosts_ c0 !! k = Some h0).
  { rewrite Hhosts, lookup_fmap, Hk. simpl. unfold send_message_dontwait.
    rewrite decide_True by lia. done. }
  destruct (IH c0 k h0) as (c1 & Hrun & Hk1 & Hflag1 & Hthr1 & Hb1 & Hresp1);
    [congruence|done|simpl; rewrite length_app; simpl; lia|].
  exists c1. split_and!; try congruence.
  - rewrite fmap_cons, (process_run_cons_coordinator _ _ _ Hflag). simpl. by rewrite Hh.
  - rewrite Hk1. simpl. by rewrite <-app_assoc.
Qed.

(** [X18] From the input socket to the snapshot.  Let [k] be a registered
    host whose thread runs, with an empty queue and a report [r].  When the
    coordinator reads batch pointers from its input socket, no more of them
    than the host's queue takes, then the host's thread handles its packets
    socket once for each, and then a client asks for the snapshot of [k]: if
    the report accepts the batches, the response carries the snapshot of [r]
    fed with them in their order of arrival (and the host holds that report
    as taking the snapshot left it).  Other hosts of the registry do not
    matter. *)
Theorem batches_reach_the_snapshot c k h r r' r'' s arrivals bs nows now :
  poller_shutdown_flag c = false →
  report_hosts_ c !! k = Some h →
  worker_running h (globals_ c) = true →
  report_ h = Some r →
  packets_sock_ h = [] →
  0 ≤ packets_received h < 2 ^ 64 →
  (length arrivals ≤ nn_packets_buffer (conf_ h))%nat →
  Forall2 (λ p b, batches (globals_ c) !! p = Some b) arrivals.*2 bs →
  length nows = length bs →
  feed_batches bs r = Done r' →
  get_snapshot r' = Done (r'', s) →
  ∃ c',
    process_run
      (((λ a : timeval_t * packet_batch_ptr,
           coordinator_thread (in_sock_readable a.1 a.2)) <$> arrivals)
       ++ ((λ now, host_thread k (host_packets_readable now)) <$> nows)
       ++ [coordinator_thread
             (control_sock_readable now (coordinator_request___get_report_snapshot_t k))]) c
    = Ret tt c'
    ∧ responses (trace (globals_ c'))
      = responses (trace (globals_ c)) ++ [coordinator_response___report_snapshot_t s]
    ∧ ∃ h', report_hosts_ c' !! k = Some h'
        ∧ report_ h' = Some r'' ∧ packets_sock_ h' = []
        ∧ packets_received h'
          = (packets_received h + foldr Z.add 0 (packet_count <$> bs)) `mod` 2 ^ 64.
Proof.
  intros Hflag Hk Hrun Hr Hq Hrange Hroom Hheap Hlen Hfeed Hsnap.
  destruct (pushes_fill_the_queue arrivals c k h Hflag Hk)
    as (c1 & Hrun1 & Hk1 & Hflag1 & Hthr1 & Hb1 & Hresp1); [rewrite Hq; simpl; lia|].
  rewrite Hq in Hk1. simpl in Hk1.
  set (h1 := set_packets_sock_ arrivals.*2 h) in *.
  destruct (host_drains_queue bs c1 k h1 r r' nows)
    as (c2 & h2 & Hrun2 & Hhosts2 & Hg2 & Hflag2 & Hq2 & Hr2 & Hcount2 & Hconf2 & Ht2 & _);
    [done| |done|done|done| |done|].
  { unfold worker_running in *. simpl. by rewrite Hthr1. }
  { simpl. by rewrite Hb1. }
  assert (Hk2 : report_hosts_ c2 !! k = Some h2) by (by rewrite Hhosts2, lookup_insert_eq).
  assert (Hrun2' : worker_running h2 (globals_ (at_time now c2)) = true).
  { unfold worker_running in *. simpl. by rewrite Ht2, Hg2, Hthr1. }
  exists (replied (coordinator_response___report_snapshot_t s)
            (set_report_hosts_ (insert k (set_report_ (Some r'') h2)) (at_time now c2))).
  split_and!.
  - rewrite (process_run_app _ _ _ _ Hrun1), (process_run_app _ _ _ _ Hrun2).
    rewrite process_run_cons_coordinator by congruence.
    rewrite poller_handle_control.
    assert (on_control_sock (coordinator_request___get_report_snapshot_t k) (at_time now c2)
            = Ret tt (replied (coordinator_response___report_snapshot_t s)
                        (set_report_hosts_ (insert k (set_report_ (Some r'') h2))
                           (at_time now c2))))
      as ->; [|done].
    unfold on_control_sock, control_dispatch, call_with_report, worker_reqrep,
      get_snapshot_func.
    mstep. rewrite Hk2. simpl. simpl in Hrun2'. by rewrite Hrun2', Hr2, Hsnap.
  - simpl. rewrite responses_app. simpl. by rewrite Hg2, Hresp1.
  - exists (set_report_ (Some r'') h2). simpl. by rewrite lookup_insert_eq.
Qed.

(** *** The whole life of the coordinator's thread *)

Lemma not_host_name_like_coordinator : ¬ host_name_like coordinator_tick_name.
Proof. intros [t Ht]. vm_compute in Ht. discriminate. Qed.

Lemma host_chan_name_like c k h chan :
  running_invariant c → resources_invariant c →
  report_hosts_ c !! k = Some h → ticker_chan_ h = Some chan →
  host_name_like (chan_name chan).
Proof.
  intros [Hhost _ _] [Hchan _ _] Hk Hch.
  destruct (Hchan k h Hk) as (chan' & Hch' & Hname).
  assert (chan' = chan) as -> by congruence.
  destruct (Hhost k h Hk) as (i & tid & Hconf & _).
  rewrite Hname, Hconf. apply rh_name_like.
Qed.

Lemma shutdown_request_foreign c c' n :
  running_invariant c → resources_invariant c →
  control_dispatch coordinator_request___shutdown_t c = Ret tt c' →
  ¬ host_name_like n →
  ticker (globals_ c') !! n = ticker (globals_ c) !! n.
Proof.
  intros Hinv Hres Hd Hn. unfold control_dispatch in Hd.
  apply bind_ret_inv in Hd as ([] & c1 & Hloop & Hd).
  apply bind_ret_inv in Hd as ([] & c2 & [= <-] & Hd).
  apply control_send_ret in Hd as ->. simpl.
  unfold for_each_report_host in Hloop.
  apply bind_ret_inv in Hloop as (hosts & c3 & [= <- <-] & Hloop).
  apply for_hosts_shutdown_resources in Hloop as (_ & _ & _ & Hkept).
  apply Hkept. intros k h chan Hin%elem_of_map_to_list Hch <-.
  apply Hn. by eapply host_chan_name_like.
Qed.

Lemma poller_handle_foreign ev c c' n :
  running_invariant c → resources_invariant c →
  poller_handle ev c = Ret tt c' →
  ¬ host_name_like n →
  ticker (globals_ c') !! n = ticker (globals_ c) !! n.
Proof.
  intros Hinv Hres Hh Hn.
  assert (Hinv' : running_invariant (at_time (poller_now ev) c))
    by (by apply running_invariant_at_time).
  assert (Hres' : resources_invariant (at_time (poller_now ev) c)) by (by destruct Hres).
  destruct ev as [now|now batch|now req].
  - by injection Hh as <-.
  - change (on_in_sock batch (at_time now c) = Ret tt c') in Hh.
    destruct (on_in_sock_fields batch (at_time now c)) as (c1 & Hrun & _ & _ & _ & Ht & _).
    rewrite Hrun in Hh. injection Hh as <-. by rewrite Ht.
  - change (on_control_sock req (at_time now c) = Ret tt c') in Hh.
    change (ticker (globals_ c)) with (ticker (globals_ (at_time now c))).
    simpl in Hinv', Hres'. revert Hinv' Hres' Hh. generalize (at_time now c). clear c Hinv Hres.
    intros c Hinv Hres Hh.
    apply on_control_sock_ret_inv in Hh as [Hd|(message & c1 & Hd & ->)]; last first.
    { apply control_dispatch_throw_resources in Hd as [Ht _]. simpl. by rewrite Ht. }
    destruct req as [func| |report|k|k|type].
    + by apply call_request_ret in Hd as ->.
    + by apply shutdown_request_foreign.
    + apply add_report_ret_fields in Hd
        as (r & _ & _ & _ & _ & _ & _ & _ & _ & _ & _ & _ & Htick & _).
      rewrite Htick. apply lookup_insert_ne. intros <-. apply Hn, rh_name_like.
    + apply delete_report_ret_fields in Hd
        as [(_ & _ & Ht & _)|(h & chan & Hk & Hch & _ & Ht & _)]; [by rewrite Ht|].
      rewrite Ht. apply lookup_delete_ne. intros <-.
      apply Hn. by eapply host_chan_name_like.
    + apply get_report_snapshot_ret_identity in Hd as (Ht & _). by rewrite Ht.
    + done.
Qed.

Lemma process_run_foreign evs c c' n :
  running_invariant c → resources_invariant c →
  process_run evs c = Ret tt c' →
  poller_shutdown_flag c' = false →
  ¬ host_name_like n →
  ticker (globals_ c') !! n = ticker (globals_ c) !! n.
Proof.
  revert c. induction evs as [|[ev|k ev] evs IH]; intros c Hinv Hres Hrun Hflag Hn;
    simpl in Hrun.
  - by injection Hrun as <-.
  - unfold bind at 1, gets in Hrun.
    destruct (poller_shutdown_flag c) eqn:Hc.
    { apply process_run_flag in Hrun; [congruence|done]. }
    apply bind_ret_inv in Hrun as ([] & c1 & Hh & Hrun).
    assert (poller_shutdown_flag c1 = false) as Hc1.
    { destruct (poller_shutdown_flag c1) eqn:Hc1; [|done].
      apply process_run_flag in Hrun; [congruence|done]. }
    rewrite (IH c1); [by eapply poller_handle_foreign| | |done..].
    + by eapply poller_handle_invariant.
    + by eapply poller_handle_resources.
  - apply bind_ret_inv in Hrun as ([] & c1 & Hp & Hrun).
    rewrite (IH c1); [| | |done..].
    + apply host_poll_ret_identity in Hp as [Hg _]. by rewrite Hg.
    + by eapply host_poll_invariant.
    + by eapply host_poll_resources.
Qed.

(** The loop returns with the flag set only from a handler that set it. *)
Lemma poller_loop_ends_in_a_handler evs : ∀ c0 c1,
  poller_loop evs c0 = Ret tt c1 →
  poller_shutdown_flag c0 = false →
  poller_shutdown_flag c1 = true →
  ∃ evs1 ev evs2 c,
    evs = evs1 ++ ev :: evs2
    ∧ process_run (coordinator_thread <$> evs1) c0 = Ret tt c
    ∧ poller_shutdown_flag c = false
    ∧ poller_handle ev c = Ret tt c1.
Proof.
  induction evs as [|ev evs IH]; intros c0 c1 Hloop Hflag0 Hflag1.
  { injection Hloop as <-. congruence. }
  rewrite poller_loop_cons in Hloop.
  destruct (poller_handle ev c0) as [[] c'|e c'|f c'] eqn:Hh; [|done..].
  destruct (poller_shutdown_flag c') eqn:Hc'.
  - injection Hloop as <-. by exists [], ev, evs, c0.
  - destruct (IH c' c1 Hloop Hc' Hflag1) as (evs1 & ev' & evs2 & c & -> & Hrun & Hc & Hh').
    exists (ev :: evs1), ev', evs2, c. split_and!; [done| |done..].
    rewrite fmap_cons, (process_run_cons_coordinator _ _ _ Hflag0). by rewrite Hh.
Qed.

Lemma keeps_flag_stop {A} f : keeps_flag (stop (A:=A) f).
Proof. by intros c. Qed.

Ltac flag_kept :=
  repeat first
    [ apply keeps_flag_ret | apply keeps_flag_throw | apply keeps_flag_gets
    | apply keeps_flag_stop
    | apply keeps_flag_on_globals | apply keeps_flag_set_report_hosts_
    | apply keeps_flag_for_hosts
    | apply keeps_flag_bind; [|intros ?]
    | apply keeps_flag_try_catch; [|intros ?]
    | progress unfold unwinding, control_send_generic, control_send, for_each_report_host
    | match goal with |- keeps_flag (match ?x with _ => _ end) => destruct x end ].

(** Only [SHUTDOWN] sets the flag. *)
Lemma poller_handle_sets_flag ev c c' :
  poller_handle ev c = Ret tt c' →
  poller_shutdown_flag c = false →
  poller_shutdown_flag c' = true →
  ∃ now, ev = control_sock_readable now coordinator_request___shutdown_t.
Proof.
  intros Hh Hc Hc'. destruct ev as [now|now batch|now req].
  - injection Hh as <-. simpl in Hc'. congruence.
  - change (on_in_sock batch (at_time now c) = Ret tt c') in Hh.
    apply on_in_sock_flag in Hh. simpl in Hh. congruence.
  - change (on_control_sock req (at_time now c) = Ret tt c') in Hh.
    destruct req as [func| |report|k|k|type]; [|by eexists|..]; exfalso.
    all: match type of Hh with on_control_sock ?req _ = _ =>
           assert (Hk : keeps_flag (on_control_sock req))
             by (unfold on_control_sock, control_dispatch; flag_kept)
         end.
    all: specialize (Hk (at_time now c)); rewrite Hh in Hk; simpl in Hk; congruence.
Qed.

Lemma subscribe_ret interval n g chan g' :
  subscribe interval n g = Ret chan g' →
  ticker g !! n = None
  ∧ chan = {| chan_name := n; chan_interval := interval |}
  ∧ ticker g' = <[n := interval]> (ticker g)
  ∧ nn_bound g' = nn_bound g
  ∧ threads g' = threads g.
Proof.
  unfold subscribe. mstep. destruct (ticker g !! n); [done|].
  simpl. by intros [= <- <-].
Qed.

(** [X19] The coordinator's thread over its whole life.  [worker_thread]
    started on a coordinator without hosts returns with the loop's flag set
    only if one of the events it handled was a [SHUTDOWN] request, the last
    one handled.  Then every thread started for a host has ended, and
    the ticker holds exactly the subscriptions it held before the thread
    started: the coordinator's own and those of all hosts ever added are
    gone, and no other was touched. *)
Theorem worker_thread_leaves_the_ticker_as_found c0 evs c1 :
  clean_start c0 →
  worker_thread evs c0 = Ret tt c1 →
  poller_shutdown_flag c1 = true →
  (∃ evs1 now evs2,
     evs = evs1 ++ control_sock_readable now coordinator_request___shutdown_t :: evs2)
  ∧ ticker (globals_ c1) = ticker (globals_ c0)
  ∧ (∀ tid st, threads (globals_ c1) !! tid = Some st → st = Exited).
Proof.
  intros (Hfresh & Hclean_t & Hclean_b) Hrun Hflag1. unfold worker_thread in Hrun.
  apply bind_ret_inv in Hrun as (tick_chan & c0' & Hsub & Hrest).
  apply on_globals_ret_inv in Hsub as (g0' & Hsub & ->).
  apply subscribe_ret in Hsub as (Hfree & -> & Ht0 & Hb0 & Hthr0).
  unfold worker_thread_rest in Hrest.
  apply bind_ret_inv in Hrest as ([] & c2 & Hloop & Hunsub).
  unfold bind, gets in Hunsub. destruct (poller_shutdown_flag c2); [|done].
  apply on_globals_ret_inv in Hunsub as (g1 & Hunsub & ->).
  unfold unsubscribe in Hunsub. mstep. injection Hunsub as <-. simpl in *.
  set (c0' := set_globals_ g0' c0) in *.
  assert (Hclean' : clean_start c0').
  { destruct Hfresh as (? & ? & ?). unfold clean_start, fresh_coordinator.
    split_and!; simpl; try done.
    - congruence.
    - intros n. rewrite Ht0. destruct (decide (coordinator_tick_name = n)) as [<-|Hne].
      + intros _. apply not_host_name_like_coordinator.
      + rewrite lookup_insert_ne by done. apply Hclean_t.
    - intros a. rewrite Hb0. apply Hclean_b. }
  destruct (poller_loop_ends_in_a_handler evs c0' c2 Hloop)
    as (evs1 & ev & evs2 & c & -> & Hrun & Hc & Hh); [by destruct Hfresh as (_ & ? & _)|done|].
  destruct (poller_handle_sets_flag ev c c2 Hh Hc Hflag1) as [now ->].
  assert (Hinv : running_invariant c).
  { eapply process_run_invariant;
      [apply fresh_coordinator_invariant; by destruct Hclean'|done..]. }
  assert (Hres : resources_invariant c).
  { eapply process_run_resources; [by apply clean_start_resources|done..]. }
  assert (Hinv' : running_invariant (at_time now c)) by (by apply running_invariant_at_time).
  destruct (shutdown_request_joins_every_host (at_time now c) Hinv')
    as (c3 & Hloop3 & Hd & _ & Hthr & _).
  rewrite poller_handle_control in Hh. unfold on_control_sock, try_catch in Hh.
  rewrite Hd in Hh. injection Hh as <-.
  unfold for_each_report_host in Hloop3.
  apply bind_ret_inv in Hloop3 as (hosts & c4 & [= <- <-] & Hloop3).
  apply for_hosts_shutdown_resources in Hloop3 as (_ & Hsub & Hgone & Hkept).
  simpl in Hsub, Hkept.
  assert (Hforeign : ∀ n, ¬ host_name_like n →
            ticker (globals_ c3) !! n = <[coordinator_tick_name := 1000 * d_millisecond]>
                                          (ticker (globals_ c0)) !! n).
  { intros n Hn. rewrite Hkept.
    - rewrite (process_run_foreign (coordinator_thread <$> evs1) c0' c n);
        [unfold c0'; simpl; by rewrite Ht0| | |done..].
      + apply fresh_coordinator_invariant. by destruct Hclean'.
      + by apply clean_start_resources.
    - intros k h chan Hin%elem_of_map_to_list Hch <-.
      apply Hn. by eapply (host_chan_name_like c). }
  assert (Hnone : ∀ n, is_Some (ticker (globals_ c3) !! n) → ¬ host_name_like n).
  { intros n Hn Hlike. destruct Hres as [Hchan Htick _].
    destruct (Htick n (Hsub n Hn) Hlike) as (k & h & Hk & Hname).
    destruct (Hchan k h Hk) as (chan & Hch & Hcn).
    assert (ticker (globals_ c3) !! chan_name chan = None) as Hnone.
    { eapply (Hgone k h); [|done]. by apply elem_of_map_to_list. }
    rewrite Hcn, Hname in Hnone. rewrite Hnone in Hn. by destruct Hn. }
  split_and!.
  - by eexists _, _, _.
  - simpl. apply map_eq. intros n.
    destruct (decide (coordinator_tick_name = n)) as [<-|Hne].
    { by rewrite lookup_delete_eq, Hfree. }
    rewrite lookup_delete_ne by done.
    destruct (ticker (globals_ c3) !! n) as [x|] eqn:Hn.
    + rewrite <-Hn, Hforeign, lookup_insert_ne; [done..|]. apply Hnone. by eexists.
    + destruct (ticker (globals_ c0) !! n) as [x|] eqn:Hn0; [|done].
      rewrite <-Hn, Hforeign, lookup_insert_ne, Hn0; [done..|].
      apply Hclean_t. by eexists.
  - simpl. exact Hthr.
Qed.

(** *** Who writes what of a host *)

Lemma get_snapshot_call_ret h g res g' :
  call_with_report get_snapshot_func h g = Ret res g' →
  g' = g
  ∧ ∃ r r', report_ h = Some r ∧ get_snapshot r = Done (r', res.2)
      ∧ res.1 = set_report_ (Some r') h.
Proof.
  unfold call_with_report, worker_reqrep, get_snapshot_func. mstep.
  destruct (worker_running h g); [|done].
  destruct (report_ h) as [r|] eqn:Hr; [|done].
  destruct (get_snapshot r) as [[r' s]|] eqn:Hs; [|done]. simpl. intros [= <- <-].
  split; [done|]. by exists r, r'.
Qed.

(** [X20] The coordinator's thread only appends to the hosts' queues, and
    only a snapshot request reaches a report.  Whatever event its loop
    handles, a host that is registered before and after has the same packet
    counter, the same configuration and the same ticker channel.  Its queue
    is as before, or, when the event was a batch on the input socket, as
    before with that batch at its end.  Its report is as before, or, when the
    event was a [GET_REPORT_SNAPSHOT] for this host, as the report's own
    [get_snapshot] left it. *)
Theorem coordinator_thread_only_appends_to_queues ev c c' k h h' :
  poller_handle ev c = Ret tt c' →
  report_hosts_ c !! k = Some h →
  report_hosts_ c' !! k = Some h' →
  conf_ h' = conf_ h ∧ ticker_chan_ h' = ticker_chan_ h
  ∧ packets_received h' = packets_received h
  ∧ (packets_sock_ h' = packets_sock_ h
     ∨ ∃ now batch, ev = in_sock_readable now batch
         ∧ packets_sock_ h' = packets_sock_ h ++ [batch])
  ∧ (report_ h' = report_ h
     ∨ ∃ now r r' s,
         ev = control_sock_readable now (coordinator_request___get_report_snapshot_t k)
         ∧ report_ h = Some r ∧ get_snapshot r = Done (r', s) ∧ report_ h' = Some r').
Proof.
  intros Hh Hk Hk'.
  assert (Hsame : h' = h →
            conf_ h' = conf_ h ∧ ticker_chan_ h' = ticker_chan_ h
            ∧ packets_received h' = packets_received h
            ∧ (packets_sock_ h' = packets_sock_ h
               ∨ ∃ now batch, ev = in_sock_readable now batch
                   ∧ packets_sock_ h' = packets_sock_ h ++ [batch])
            ∧ (report_ h' = report_ h
               ∨ ∃ now r r' s,
                   ev = control_sock_readable now
                          (coordinator_request___get_report_snapshot_t k)
                   ∧ report_ h = Some r ∧ get_snapshot r = Done (r', s)
                   ∧ report_ h' = Some r')).
  { intros ->. split_and!; try done; by left. }
  destruct ev as [now|now batch|now req].
  - injection Hh as <-. apply Hsame. simpl in Hk'. congruence.
  - clear Hsame. change (on_in_sock batch (at_time now c) = Ret tt c') in Hh.
    destruct (on_in_sock_fields batch (at_time now c)) as (c1 & Hrun & Hhosts & _).
    rewrite Hrun in Hh. injection Hh as <-.
    rewrite Hhosts, lookup_fmap in Hk'. simpl in Hk'. rewrite Hk in Hk'.
    injection Hk' as <-. unfold send_message_dontwait. case_decide; simpl.
    + split_and!; try done; [|by left]. right. by eexists _, _.
    + split_and!; try done; by left.
  - change (on_control_sock req (at_time now c) = Ret tt c') in Hh.
    change (report_hosts_ c) with (report_hosts_ (at_time now c)) in Hk.
    revert Hh Hk. generalize (at_time now c). clear c. intros c Hh Hk.
    apply on_control_sock_ret_inv in Hh as [Hd|(message & c1 & Hd & ->)]; last first.
    { apply control_dispatch_throw_frame in Hd as (Hhosts & _). simpl in *.
      apply Hsame. congruence. }
    destruct req as [func| |report|k0|k0|type].
    + apply call_request_ret in Hd as ->. apply Hsame. simpl in Hk'. congruence.
    + unfold control_dispatch, for_each_report_host in Hd.
      apply bind_ret_inv in Hd as ([] & c1 & Hloop & Hd).
      apply bind_ret_inv in Hloop as (hosts & c0 & [= <- <-] & Hloop).
      apply bind_ret_inv in Hd as ([] & c2 & [= <-] & Hd).
      apply control_send_ret in Hd as ->. simpl in Hk'.
      destruct (for_hosts_ret_lookup _ _ _ _ Hloop k h' Hk')
        as [Hk0|(h0 & g & g' & Hin%elem_of_map_to_list & Hsh)].
      * apply Hsame. congruence.
      * assert (h0 = h) as -> by congruence.
        apply shutdown_ret_fields in Hsh as (tid & chan & _ & _ & _ & -> & _).
        split_and!; try done; by left.
    + apply add_report_ret_fields in Hd
        as (r & Hnone & _ & _ & _ & _ & _ & _ & Hhosts & _).
      rewrite Hhosts, lookup_insert_ne in Hk' by congruence.
      apply Hsame. congruence.
    + apply delete_report_ret_fields in Hd
        as [(_ & Hhosts & _)|(h0 & chan & _ & _ & Hhosts & _)]; rewrite Hhosts in Hk'.
      * apply Hsame. congruence.
      * apply lookup_delete_Some in Hk' as [_ Hk']. apply Hsame. congruence.
    + unfold control_dispatch in Hd.
      apply bind_ret_inv in Hd as (hosts & c2 & [= <- <-] & Hd).
      match type of Hd with
      | context [?m !! ?key] => destruct (m !! key) as [h0|] eqn:Hk0
      end.
      * apply bind_ret_inv in Hd as (res & c2 & Hcall & Hd).
        apply on_globals_ret_inv in Hcall as (g & Hcall & ->).
        apply bind_ret_inv in Hd as ([] & c3 & [= <-] & Hd).
        apply control_send_ret in Hd as ->. simpl in Hk'.
        apply get_snapshot_call_ret in Hcall as (_ & r & r' & Hr & Hs & Hres).
        destruct (decide (k0 = k)) as [->|Hne].
        -- rewrite lookup_insert_eq in Hk'. assert (h0 = h) as -> by congruence.
           rewrite Hres in Hk'. injection Hk' as <-. simpl.
           split_and!; try done; [by left|]. right. by eexists now, r, r', _.
        -- rewrite lookup_insert_ne in Hk' by done. apply Hsame. congruence.
      * apply control_send_ret in Hd as ->. apply Hsame. simpl in Hk'. congruence.
    + done.
Qed.

(** [X21] A host's thread touches its own host only.  One iteration of the
    loop of the thread of [k0], on its tick channel or its packets socket,
    leaves the globals, the flag and every other host as they are and
    registers and removes nothing.  Of its own host it changes at most the
    report, the packet counter and the queue, and the queue only loses its
    first element. *)
Theorem host_thread_touches_only_its_host k0 ev c c' :
  host_poll k0 ev c = Ret tt c' →
  globals_ c' = globals_ c
  ∧ poller_shutdown_flag c' = poller_shutdown_flag c
  ∧ coordinator_conf_ c' = coordinator_conf_ c
  ∧ (∀ k, k ≠ k0 → report_hosts_ c' !! k = report_hosts_ c !! k)
  ∧ match report_hosts_ c !! k0 with
    | None => report_hosts_ c' !! k0 = None
    | Some h =>
        ∃ h', report_hosts_ c' !! k0 = Some h'
          ∧ conf_ h' = conf_ h ∧ t_ h' = t_ h ∧ ticker_chan_ h' = ticker_chan_ h
          ∧ (packets_sock_ h' = packets_sock_ h
             ∨ ∃ batch, packets_sock_ h = batch :: packets_sock_ h')
    end.
Proof.
  unfold host_poll. intros Hd.
  apply bind_ret_inv in Hd as (hosts & c2 & [= <- <-] & Hd).
  apply bind_ret_inv in Hd as (g & c2 & [= <- <-] & Hd).
  destruct (report_hosts_ c !! k0) as [h|] eqn:Hk0; [|by injection Hd as <-].
  destruct (worker_running h (globals_ c)).
  2:{ injection Hd as <-. split_and!; try done. rewrite Hk0. exists h.
      split_and!; try done. by left. }
  apply bind_ret_inv in Hd as (h1 & c2 & Hw & [= <-]).
  apply on_globals_ret_inv in Hw as (g & Hw & ->). simpl.
  assert (g = globals_ c
          ∧ conf_ h1 = conf_ h ∧ t_ h1 = t_ h ∧ ticker_chan_ h1 = ticker_chan_ h
          ∧ (packets_sock_ h1 = packets_sock_ h
             ∨ ∃ batch, packets_sock_ h = batch :: packets_sock_ h1))
    as (-> & Hconf & Ht & Hch & Hq).
  { destruct ev as [now|now].
    - unfold worker_tick in Hw. destruct (report_ h); [|done].
      destruct (tick_now now _); [|done]. injection Hw as <- <-.
      split_and!; try done. by left.
    - unfold worker_packets in Hw. destruct (packets_sock_ h) as [|batch q] eqn:Hq.
      { injection Hw as <- <-. split_and!; try done. by left. }
      revert Hw. mstep. destruct (batches (globals_ c) !! batch); [|done].
      destruct (report_ h); [|done].
      destruct (add_multi _ _ _); [|done]. intros [= <- <-].
      split_and!; try done. right. by eexists. }
  split_and!; try done.
  - intros k Hne. by rewrite lookup_insert_ne.
  - exists h1. by rewrite lookup_insert_eq.
Qed.

End MoreProperties.

(** * The model at work

    Runs of the model on the counting report: the instances at which the
    statements above are used, and the runs on which the registry's index and
    the failure paths can be read off. *)

Import counting.

(** [DELETE_REPORT("nope")] on a coordinator without hosts. *)
Lemma unknown_report_replies_error_witness :
  on_control_sock (coordinator_request___delete_report_t "nope") (at_time 7 coordinator0)
  = Ret tt (replied (error_response "unknown report: nope") (at_time 7 coordinator0)).
Proof.
  apply (unknown_report_replies_error coordinator0
           (coordinator_request___delete_report_t "nope") "nope" 7 []);
    [reflexivity|reflexivity|left; reflexivity].
Defined.



(** [ADD_REPORT] of "x" while the ticker name "rh/0/x" is taken: the
    constructor succeeds, [startup] throws on the subscription. *)
Lemma add_report_failure_changes_nothing_witness :
  ∃ c', on_control_sock (coordinator_request___add_report_t (mk "x" 1000000000 10 false))
          name_taken = Ret tt c'
    ∧ report_hosts_ c' = ∅
    ∧ responses (trace (globals_ c'))
      = [error_response "ticker: subscription name already in use: rh/0/x"].
Proof.
  destruct (add_report_failure_changes_nothing (H:=reports) (mk "x" 1000000000 10 false) name_taken
              (ticker_name_in_use "rh/0/x")
              (final_state (new_report_host (rh_conf 2 0 "x") (globals_ name_taken))))
    as (c' & Hrun & Hhosts & _ & _ & _ & _ & Hresp).
  { right. eexists _, _. split; vm_compute; reflexivity. }
  exists c'. split_and!; [exact Hrun|exact Hhosts|exact Hresp].
Defined.

(** A report with a window of one second and ten ticks: the host subscribes
    at 100 ms. *)
Lemma startup_tick_interval_witness :
  ticker (final_state (startup (mk "a" 1000000000 10 false)
                         (fresh_host (rh_conf 2 0 "a")) globals0)) !! "rh/0/a"
  = Some 100000000.
Proof.
  destruct (startup_tick_interval (H:=reports) (mk "a" 1000000000 10 false)
              (fresh_host (rh_conf 2 0 "a")) globals0 eq_refl) as [_ Hpos].
  destruct Hpos as [_ Hsub]; [reflexivity|].
  destruct Hsub as [Hsub _]; [reflexivity|].
  exact Hsub.
Defined.

(** [SHUTDOWN] after the run [busy_run], which leaves the hosts "b" and "c":
    once it is handled every thread has ended. *)
Lemma shutdown_joins_every_host_witness :
  ∃ c', on_control_sock coordinator_request___shutdown_t (at_time 9 busy) = Ret tt c'
    ∧ poller_shutdown_flag c' = true
    ∧ ∀ tid st, threads (globals_ c') !! tid = Some st → st = Exited.
Proof.
  destruct (shutdown_joins_every_host coordinator0 busy_run busy 9 []
              {| chan_name := coordinator_tick_name; chan_interval := 1000 * d_millisecond |})
    as (c' & c'' & Hrun & _ & _ & Hthreads & _ & Hflag & _).
  - repeat split.
  - vm_compute. reflexivity.
  - reflexivity.
  - exists c'. split_and!; [exact Hrun|exact Hflag|exact Hthreads].
Defined.

(** In the state [busy] the hosts "b" and "c" have different names. *)
Lemma host_names_follow_registry_size_witness :
  ∃ h1 h2, report_hosts_ busy !! "b" = Some h1 ∧ report_hosts_ busy !! "c" = Some h2
    ∧ name (conf_ h1) ≠ name (conf_ h2).
Proof.
  destruct (host_names_follow_registry_size coordinator0 busy_run busy) as (_ & _ & Hne).
  - repeat split.
  - vm_compute. reflexivity.
  - reflexivity.
  - eexists _, _. split; [vm_compute; reflexivity|]. split; [vm_compute; reflexivity|].
    eapply (Hne "b" "c"); [vm_compute; reflexivity|vm_compute; reflexivity|done].
Defined.

(** [C8] as stated fails: after [ADD_REPORT], [DELETE_REPORT], [ADD_REPORT]
    both hosts were given the index 0. *)
Lemma index_reused_after_delete :
  hosts_created (trace (globals_ (final_state (poller_loop add_delete_add coordinator0))))
  = [("rh/0/a", "rh/0"); ("rh/0/b", "rh/0")]
  ∧ ¬ index_never_reused coordinator0.
Proof.
  split; [vm_compute; reflexivity|].
  intros Hclaim.
  assert (Hrun : poller_loop add_delete_add coordinator0
                 = Ret tt (final_state (poller_loop add_delete_add coordinator0)))
    by (vm_compute; reflexivity).
  apply Hclaim in Hrun. vm_compute in Hrun.
  apply NoDup_cons in Hrun as [Hin _]. apply Hin. left.
Qed.

(** [GET_REPORT_SNAPSHOT] of a host whose report raises in [get_snapshot]. *)
Lemma snapshot_exception_ends_the_process_witness :
  on_control_sock (coordinator_request___get_report_snapshot_t "r") with_broken
  = Fatal StdTerminate with_broken.
Proof.
  eapply (snapshot_exception_ends_the_process with_broken "r");
    vm_compute; reflexivity.
Defined.

(** A second [ADD_REPORT] of "a". *)
Lemma duplicate_add_report_terminates_witness :
  ∃ c', on_control_sock (coordinator_request___add_report_t (mk "a" 1000000000 10 false))
          with_a = Fatal StdTerminate c'
    ∧ responses (trace (globals_ c')) = [ok_response].
Proof.
  edestruct (duplicate_add_report_terminates (H:=reports) with_a (mk "a" 1000000000 10 false))
    as (c' & Hrun & _ & Hresp).
  - vm_compute. reflexivity.
  - vm_compute. reflexivity.
  - vm_compute. reflexivity.
  - exists c'. split; [exact Hrun|]. rewrite Hresp. vm_compute. reflexivity.
Defined.

(** ** Scenarios *)

(** A host that took two batches of 3 and 5 packets reports 8. *)
Example single_host_snapshot :
  responses (trace (globals_ (final_state (process_run single_host_run coordinator0))))
  = [ok_response; coordinator_response___report_snapshot_t 8].
Proof. vm_compute. reflexivity. Qed.

(** After a [DELETE_REPORT] of an unknown report the coordinator still adds
    one. *)
Example delete_unknown_then_add :
  responses (trace (globals_ (final_state (poller_loop [del "nope"; add "a"] coordinator0))))
  = [error_response "unknown report: nope"; ok_response].
Proof. vm_compute. reflexivity. Qed.

(** A third batch for a host of capacity 2 that has not drained: the relay
    returns and the registry is exactly as before. *)
Example full_queue_drop :
  ∃ c', on_in_sock 0%nat with_full_queue = Ret tt c'
    ∧ report_hosts_ c' = report_hosts_ with_full_queue
    ∧ (packets_sock_ <$> report_hosts_ c' !! "a") = Some [0%nat; 1%nat]
    ∧ (packets_received <$> report_hosts_ c' !! "a") = Some 0.
Proof. eexists. split_and!; vm_compute; reflexivity. Qed.

(** Re-adding a report whose old host still holds the derived name: the
    constructor throws on the address and the client gets an error. *)
Example readd_with_name_in_use :
  responses (trace (globals_ (final_state
    (poller_loop [add "a"; add "b"; del "a"; add "b"] coordinator0))))
  = [ok_response; ok_response; ok_response;
     error_response "nn_bind(inproc://rh/1/b/packets) failed: address in use"].
Proof. vm_compute. reflexivity. Qed.

(** ** The further properties at work *)

(** A [CALL] whose function throws a [std::exception], and one whose
    function does [throw 42;]. *)
Lemma control_handler_replies_once_witness :
  on_control_sock failing_call with_a
  = Ret tt (replied (error_response "callback failed") with_a)
  ∧ on_control_sock throwing_call with_a = Fatal StdTerminate with_a
  ∧ responses (trace (globals_ with_a)) = [ok_response].
Proof.
  destruct (control_handler_replies_once (H:=reports) failing_call with_a) as [_ Hstd].
  destruct (Hstd (StdException "callback failed") with_a eq_refl) as [_ Hcaught].
  destruct (control_handler_replies_once (H:=reports) throwing_call with_a) as [_ Hother].
  destruct (Hother (OtherException 42) with_a eq_refl) as [_ Hescaped].
  split; [exact Hcaught|]. split; [exact Hescaped|]. vm_compute. reflexivity.
Defined.

(** A second [startup] of the host "rh/0/a". *)
Lemma startup_only_once_witness :
  ∃ h' g',
    startup (mk "a" 1000000000 10 false) (fresh_host (rh_conf 2 0 "a")) globals0 = Ret h' g'
    ∧ startup (mk "b" 1000000000 10 false) h' globals0
      = Throw (StdException "report handler rh/0/a is already started") globals0.
Proof.
  eexists _, _. split; [vm_compute; reflexivity|].
  apply (startup_only_once (H:=reports) (mk "a" 1000000000 10 false)
           (fresh_host (rh_conf 2 0 "a")) globals0 _ _ eq_refl
           (mk "b" 1000000000 10 false) globals0).
Defined.

(** The host "a" after its [shutdown]. *)
Lemma host_is_deaf_after_shutdown_witness :
  ∃ h h' g',
    report_hosts_ with_a !! "a" = Some h
    ∧ shutdown h (globals_ with_a) = Ret h' g'
    ∧ threads g' = [Exited]
    ∧ call_with_report get_snapshot_func h' g' = Fatal BlockedForever g'.
Proof.
  eexists _, _, _. split; [vm_compute; reflexivity|].
  match goal with
  | |- shutdown ?h ?g = Ret ?h' ?g' ∧ _ =>
      assert (Hsh : shutdown h g = Ret h' g') by (vm_compute; reflexivity)
  end.
  destruct (host_is_deaf_after_shutdown (H:=reports) _ _ _ _ Hsh) as [_ Hdeaf].
  split; [exact Hsh|]. split; [vm_compute; reflexivity|]. apply Hdeaf.
Defined.

(** The snapshot of "a", which has seen nothing yet. *)
Lemma get_report_snapshot_changes_the_report_only_witness :
  ∃ h r',
    report_hosts_ with_a !! "a" = Some h
    ∧ on_control_sock (coordinator_request___get_report_snapshot_t "a") with_a
      = Ret tt (replied (coordinator_response___report_snapshot_t 0)
                  (set_report_hosts_ (insert "a" (set_report_ (Some r') h)) with_a)).
Proof.
  eexists _, _. split; [vm_compute; reflexivity|].
  eapply (get_report_snapshot_changes_the_report_only (H:=reports) with_a "a");
    vm_compute; reflexivity.
Defined.

(** [DELETE_REPORT("a")] where "a" is the only host. *)
Lemma delete_report_releases_the_host_witness :
  ∃ c', on_control_sock (coordinator_request___delete_report_t "a") with_a = Ret tt c'
    ∧ report_hosts_ c' !! "a" = None
    ∧ threads (globals_ c') = <[0%nat := Exited]> (threads (globals_ with_a)).
Proof.
  edestruct (delete_report_releases_the_host (H:=reports) with_a "a")
    as (c' & Hrun & _ & Hnone & Hthr & _).
  - vm_compute. reflexivity.
  - vm_compute. reflexivity.
  - vm_compute. reflexivity.
  - vm_compute. reflexivity.
  - exists c'. split_and!; [exact Hrun|exact Hnone|exact Hthr].
Defined.

(** The first [ADD_REPORT] of a coordinator. *)
Lemma add_report_ok_means_live_host_witness :
  ∃ h, report_hosts_ with_a = <[ "a" := h ]> ∅
    ∧ worker_running h (globals_ with_a) = true
    ∧ ticker (globals_ with_a) !! name (conf_ h) = Some 100000000.
Proof.
  destruct (add_report_ok_means_live_host (H:=reports) (mk "a" 1000000000 10 false)
              coordinator0 with_a (tick 0 (mk "a" 1000000000 10 false)))
    as (h & _ & Hhosts & _ & Hrun & _ & _ & _ & _ & Htick & _).
  - reflexivity.
  - vm_compute. reflexivity.
  - vm_compute. reflexivity.
  - exists h. split_and!; [exact Hhosts|exact Hrun|exact Htick].
Defined.

(** Add "a", delete "a", add "a". *)
Lemma add_then_delete_restores_witness :
  ∃ c2 c3,
    on_control_sock (coordinator_request___delete_report_t "a") with_a = Ret tt c2
    ∧ report_hosts_ c2 = ∅
    ∧ nn_bound (globals_ c2) = ∅
    ∧ on_control_sock (coordinator_request___add_report_t (mk "a" 1000000000 10 false)) c2
      = Ret tt c3.
Proof.
  destruct (add_then_delete_restores (H:=reports) (mk "a" 1000000000 10 false)
              coordinator0 with_a (tick 0 (mk "a" 1000000000 10 false)))
    as (c2 & Hdel & _ & Hhosts & _ & Hbound & _ & c3 & Hadd & _).
  - reflexivity.
  - vm_compute. reflexivity.
  - vm_compute. reflexivity.
  - exists c2, c3. split_and!; [exact Hdel|exact Hhosts|exact Hbound|exact Hadd].
Defined.

(** The host "b" at the end of [busy_run]. *)
Lemma host_queue_stays_bounded_witness :
  ∃ h, report_hosts_ busy !! "b" = Some h
    ∧ (length (packets_sock_ h) ≤ nn_packets_buffer (conf_ h))%nat
    ∧ 0 ≤ packets_received h < 2 ^ 64.
Proof.
  eexists. split; [vm_compute; reflexivity|].
  eapply (host_queue_stays_bounded (H:=reports) coordinator0 busy_run busy) with (k := "b").
  - repeat split.
  - vm_compute. reflexivity.
  - vm_compute. reflexivity.
Defined.

(** The host "a" with the batches 0 and 1 queued takes both: 3 + 5
    packets. *)
Lemma host_drains_queue_in_order_witness :
  ∃ c' h',
    process_run [host_thread "a" (host_packets_readable 1);
                 host_thread "a" (host_packets_readable 2)] with_full_queue = Ret tt c'
    ∧ report_hosts_ c' = <[ "a" := h' ]> (report_hosts_ with_full_queue)
    ∧ packets_sock_ h' = []
    ∧ packets_received h' = 8.
Proof.
  edestruct (host_drains_queue_in_order (H:=reports))
    with (c := with_full_queue) (k := "a") (nows := [1; 2])
         (bs := [@Build_packet_batch_t reports [1; 2; 3] 3;
                 @Build_packet_batch_t reports [4; 5; 6; 7; 8] 5])
    as (c' & h' & Hrun & Hhosts & _ & _ & Hq & _ & Hcount & _).
  - vm_compute. reflexivity.
  - vm_compute. reflexivity.
  - vm_compute. reflexivity.
  - vm_compute. split; [discriminate|reflexivity].
  - reflexivity.
  - vm_compute. repeat constructor.
  - vm_compute. reflexivity.
  - exists c', h'. split_and!; [exact Hrun|exact Hhosts|exact Hq|exact Hcount].
Defined.

(** [shutdown()] at the end of [busy_run]. *)
Lemma coordinator_shutdown_stops_everything_witness :
  ∃ c',
    coordinator_shutdown 9
      {| chan_name := coordinator_tick_name; chan_interval := 1000 * d_millisecond |} busy
    = Ret tt c'
    ∧ (∀ tid st, threads (globals_ c') !! tid = Some st → st = Exited)
    ∧ request 10 (coordinator_request___get_report_snapshot_t "b") c'
      = Fatal BlockedForever c'.
Proof.
  destruct (coordinator_shutdown_stops_everything (H:=reports) coordinator0 busy_run busy 9
              {| chan_name := coordinator_tick_name; chan_interval := 1000 * d_millisecond |})
    as (c' & Hrun & _ & Hthreads & _ & Hdeaf).
  - repeat split.
  - vm_compute. reflexivity.
  - reflexivity.
  - exists c'. split_and!; [exact Hrun|exact Hthreads|apply Hdeaf].
Defined.

(** At the end of [busy_run], where "a" was deleted and "b" and "c" are
    registered, "a" can be added again. *)
Lemma add_report_of_new_name_succeeds_witness :
  ∃ c', on_control_sock (coordinator_request___add_report_t (mk "a" 1000000000 10 false)) busy
        = Ret tt c'
    ∧ is_Some (report_hosts_ c' !! "a").
Proof.
  edestruct (add_report_of_new_name_succeeds (H:=reports) coordinator0 busy_run busy
               (mk "a" 1000000000 10 false))
    as (c' & Hrun & _ & Hin & _).
  - split; [repeat split|]. split.
    + intros n [x Hx]. vm_compute in Hx. discriminate.
    + intros a Ha. vm_compute in Ha. discriminate.
  - vm_compute. reflexivity.
  - reflexivity.
  - vm_compute. reflexivity.
  - vm_compute. discriminate.
  - vm_compute. reflexivity.
  - exists c'. split; [exact Hrun|exact Hin].
Defined.

(** [shutdown()] at the end of [busy_run]: the subscriptions of "b" and "c"
    are gone, their sockets are still bound. *)
Lemma shutdown_leaves_no_subscription_witness :
  ∃ c',
    coordinator_shutdown 9
      {| chan_name := coordinator_tick_name; chan_interval := 1000 * d_millisecond |} busy
    = Ret tt c'
    ∧ (∀ n, is_Some (ticker (globals_ c') !! n) →
         ¬ host_name_like n ∧ n ≠ coordinator_tick_name)
    ∧ nn_bound (globals_ c') = nn_bound (globals_ busy)
    ∧ dom (report_hosts_ c') = dom (report_hosts_ busy).
Proof.
  apply (shutdown_leaves_no_subscription (H:=reports) coordinator0 busy_run busy 9
           {| chan_name := coordinator_tick_name; chan_interval := 1000 * d_millisecond |}).
  - split; [repeat split|]. split.
    + intros n [x Hx]. vm_compute in Hx. discriminate.
    + intros a Ha. vm_compute in Ha. discriminate.
  - vm_compute. reflexivity.
  - reflexivity.
Defined.

(** The batches 0 and 1 arrive, "a" takes them, and the snapshot is 8. *)
Lemma batches_reach_the_snapshot_witness :
  ∃ c',
    process_run
      [coordinator_thread (in_sock_readable 1 0%nat);
       coordinator_thread (in_sock_readable 2 1%nat);
       host_thread "a" (host_packets_readable 3);
       host_thread "a" (host_packets_readable 4);
       coordinator_thread
         (control_sock_readable 5 (coordinator_request___get_report_snapshot_t "a"))] with_a
    = Ret tt c'
    ∧ responses (trace (globals_ c'))
      = [ok_response; coordinator_response___report_snapshot_t 8].
Proof.
  edestruct (batches_reach_the_snapshot (H:=reports))
    with (c := with_a) (k := "a") (s := 8) (arrivals := [(1, 0%nat); (2, 1%nat)])
         (nows := [3; 4]) (now := 5)
         (bs := [@Build_packet_batch_t reports [1; 2; 3] 3;
                 @Build_packet_batch_t reports [4; 5; 6; 7; 8] 5])
    as (c' & Hrun & Hresp & _).
  - reflexivity.
  - vm_compute. reflexivity.
  - vm_compute. reflexivity.
  - vm_compute. reflexivity.
  - vm_compute. reflexivity.
  - vm_compute. split; [discriminate|reflexivity].
  - vm_compute. repeat constructor.
  - vm_compute. repeat constructor.
  - reflexivity.
  - vm_compute. reflexivity.
  - vm_compute. reflexivity.
  - exists c'. split; [exact Hrun|]. rewrite Hresp. vm_compute. reflexivity.
Defined.

(** The coordinator's thread adds "a", relays a batch, is shut down and
    never sees the last request. *)
Lemma worker_thread_leaves_the_ticker_as_found_witness :
  ∃ c1,
    worker_thread [add "a"; push 0%nat;
                   control_sock_readable 9 coordinator_request___shutdown_t; add "b"]
      coordinator0 = Ret tt c1
    ∧ ticker (globals_ c1) = ticker (globals_ coordinator0)
    ∧ (∀ tid st, threads (globals_ c1) !! tid = Some st → st = Exited).
Proof.
  pose (c1 := final_state
                (worker_thread [add "a"; push 0%nat;
                                control_sock_readable 9 coordinator_request___shutdown_t;
                                add "b"] coordinator0)).
  destruct (worker_thread_leaves_the_ticker_as_found (H:=reports) coordinator0
              [add "a"; push 0%nat;
               control_sock_readable 9 coordinator_request___shutdown_t; add "b"] c1)
    as (_ & Hticker & Hthreads).
  - split; [repeat split|]. split.
    + intros n [x Hx]. vm_compute in Hx. discriminate.
    + intros a Ha. vm_compute in Ha. discriminate.
  - vm_compute. reflexivity.
  - vm_compute. reflexivity.
  - exists c1. split; [vm_compute; reflexivity|]. split; [exact Hticker|exact Hthreads].
Defined.

(** A batch arrives while "a" is the only host. *)
Lemma coordinator_thread_only_appends_to_queues_witness :
  ∃ h h',
    report_hosts_ with_a !! "a" = Some h
    ∧ report_hosts_ (final_state (poller_handle (push 0%nat) with_a)) !! "a" = Some h'
    ∧ conf_ h' = conf_ h ∧ ticker_chan_ h' = ticker_chan_ h
    ∧ packets_received h' = packets_received h
    ∧ (packets_sock_ h' = packets_sock_ h
       ∨ ∃ now batch, push 0%nat = in_sock_readable now batch
           ∧ packets_sock_ h' = packets_sock_ h ++ [batch])
    ∧ (report_ h' = report_ h
       ∨ ∃ now r r' s,
           push 0%nat
           = control_sock_readable now (coordinator_request___get_report_snapshot_t "a")
           ∧ report_ h = Some r ∧ get_snapshot r = Done (r', s) ∧ report_ h' = Some r').
Proof.
  eexists _, _. split; [vm_compute; reflexivity|]. split; [vm_compute; reflexivity|].
  eapply (coordinator_thread_only_appends_to_queues (H:=reports) (push 0%nat) with_a
            (final_state (poller_handle (push 0%nat) with_a)) "a");
    vm_compute; reflexivity.
Defined.

(** The thread of "a" takes the first of its two queued batches. *)
Lemma host_thread_touches_only_its_host_witness :
  globals_ (final_state (host_poll "a" (host_packets_readable 3) with_full_queue))
  = globals_ with_full_queue
  ∧ report_hosts_ (final_state (host_poll "a" (host_packets_readable 3) with_full_queue))
      !! "b"
    = report_hosts_ with_full_queue !! "b".
Proof.
  destruct (host_thread_touches_only_its_host (H:=reports) "a" (host_packets_readable 3)
              with_full_queue
              (final_state (host_poll "a" (host_packets_readable 3) with_full_queue)))
    as (Hg & _ & _ & Hother & _).
  - vm_compute. reflexivity.
  - split; [exact Hg|]. apply Hother. discriminate.
Defined.


(** Deleting "a", and an iteration of the thread of "a". *)
Lemma registry_keys_change_by_add_and_delete_witness :
  dom (report_hosts_ (final_state (poller_handle (del "a") with_a)))
  = dom (report_hosts_ with_a) ∖ {["a"]}
  ∧ dom (report_hosts_ (final_state (host_poll "a" (host_tick_readable 1) with_a)))
    = dom (report_hosts_ with_a).
Proof.
  destruct (registry_keys_change_by_add_and_delete (H:=reports) (del "a") with_a
              (final_state (poller_handle (del "a") with_a)) "a" (host_tick_readable 1)
              (final_state (host_poll "a" (host_tick_readable 1) with_a)))
    as [Hcoordinator Hhost].
  split; [apply Hcoordinator|apply Hhost]; vm_compute; reflexivity.
Defined.
